(** * Mars Shot: orbital injection game -- physics and game-state engine

    A shallow embedding of [src/game.js] (the final version of the game) and,
    where the earlier draft [src/unnamed/part_000] differs in a way that
    matters, of that draft too (module [Draft]).

    Conventions of the embedding.
    - A JavaScript [number] that carries a length, a speed, a time or a fuel
      level is a real number ([R]); the value [Infinity] that the source
      stores in [gameState.closestDist] is the constructor [Infinity] of
      [ExtR].  Rounding of IEEE doubles is not modelled; only
      [FloatVector] computes on doubles, to show what [Vector.normalize]
      does with a magnitude that is not finite.
    - Integer-valued numbers (coins, upgrade levels and costs) are [Z];
      counters that only grow from 0 (ages, frame counts) are [nat].
    - The global objects [gameData], [gameState], [physics],
      [UpgradeSystem.upgrades] and [InputManager.mouse] are the fields of one
      record [World] that every function takes and returns.
    - [Math.random()] reads an oracle [rng : nat -> R] at the position
      [rngPos] of the world and advances the position by one.
    - A [parentBody] reference is the index of the parent in
      [physics.bodies]: the parent is shared, not copied.
    - Canvas drawing and DOM writes are left out, except the end-of-run
      message ([UI]), which is the only place where the source records the
      outcome of a run. *)

From Stdlib Require Import Reals Lra Lia ZArith List Bool String Arith.
From Stdlib Require Floats.
Import ListNotations.

#[local] Open Scope R_scope.

(* ================================================================== *)
(** * 1. Data and configuration *)
(* ================================================================== *)

(** [GameConfig] of game.js. *)
Module GameConfig.
Definition SUN_MASS : R := 5000.
Definition EARTH_MASS : R := 100.
Definition MARS_MASS : R := 80.
Definition SATURN_MASS : R := 200.
Definition MOON_MASS : R := 10.
Definition G_BASE : R := 28 / 100.
Definition MAX_INPUT_DIST : R := 300.
Definition ROCKET_TRAIL_LIMIT : nat := 600.
Definition BODY_TRAIL_LIMIT : nat := 60.
Definition COLLISION_PADDING : R := 15.
Definition COLLISION_MIN_DIST : R := 10.
Definition LANDING_REWARD : Z := 100.
Definition MAX_DISTANCE_SCORE : Z := 50.
End GameConfig.

(** One entry of [LEVELS_DATA.upgrades]. *)
Record UpgradeConfig := mkUpgradeConfig {
  baseCost : Z;
  name : string;
  maxLevel : Z;
  costMultiplier : R
}.

Module LEVELS_DATA.
Definition fuel : UpgradeConfig := mkUpgradeConfig 50 "Fuel Tank" 5 (3 / 2).
Definition thrust : UpgradeConfig := mkUpgradeConfig 80 "Ion Engine" 5 (3 / 2).
Definition launch : UpgradeConfig := mkUpgradeConfig 60 "Catapult" 5 (3 / 2).
End LEVELS_DATA.

(** The value of [gameState.closestDist]: a distance, or [Infinity] before
    the first measurement of a flight. *)
Inductive ExtR : Type :=
| Finite (d : R)
| Infinity.

(** [gameState.mode]. *)
Inductive Mode : Type := IDLE | FLYING | ENDED.

(** The [type] string of a body. ['planet'] is the constructor's default. *)
Module BodyType.
Inductive t : Type :=
| planet | sun | target_start | target_end | moon | saturn | obstacle | rocket.

Definition eqb (a b : t) : bool :=
  match a, b with
  | planet, planet | sun, sun | target_start, target_start
  | target_end, target_end | moon, moon | saturn, saturn
  | obstacle, obstacle | rocket, rocket => true
  | _, _ => false
  end.
End BodyType.

(** The [reason] argument of [endGame]. *)
Inductive Reason : Type := landed | crashed | lost_space.

(** The keys of [UpgradeSystem.upgrades]. *)
Inductive UpgradeKey : Type := Kfuel | Kthrust | Klaunch.

(* ================================================================== *)
(** * 2. Vectors *)
(* ================================================================== *)

(** [Math.atan2] on the reals. *)
Definition atan2 (y x : R) : R :=
  if Rlt_dec 0 x then atan (y / x)
  else if Rlt_dec x 0 then
         if Rle_dec 0 y then atan (y / x) + PI else atan (y / x) - PI
  else if Rlt_dec 0 y then PI / 2
  else if Rlt_dec y 0 then - (PI / 2)
  else 0.

(** [class Vector].  The methods that mutate [this] return the new value of
    [this]. *)
Module Vector.
Record t : Type := mk { x : R; y : R }.

Definition add (this v : t) : t := mk (x this + x v) (y this + y v).
Definition sub (this v : t) : t := mk (x this - x v) (y this - y v).
Definition mult (this : t) (n : R) : t := mk (x this * n) (y this * n).
Definition mag (this : t) : R := sqrt (x this * x this + y this * y this).
(** [Number.isFinite(m)] holds of every real, so the guard of the source
    is [m !== 0]. *)
Definition normalize (this : t) : t :=
  let m := mag this in
  if Req_dec_T m 0 then this else mk (x this / m) (y this / m).
Definition copy (this : t) : t := this.
Definition heading (this : t) : R := atan2 (y this) (x this).
End Vector.

(** [Vector.mag] and [Vector.normalize] once more, on IEEE doubles, the
    numbers JavaScript computes with.  Here a magnitude can be infinite or
    NaN, and [Number.isFinite] is a real test. *)
Module FloatVector.
Import Floats.
#[local] Open Scope float_scope.

Record t : Type := mk { x : float; y : float }.

Definition mag (this : t) : float :=
  sqrt (x this * x this + y this * y this).

Definition normalize (this : t) : t :=
  let m := mag this in
  if negb (m =? 0) && is_finite m
  then mk (x this / m) (y this / m)
  else this.
End FloatVector.

(* ================================================================== *)
(** * 3. Bodies, particles and the world *)
(* ================================================================== *)

(** The fields of [class Body].  [parentBody] is an index into
    [physics.bodies]. *)
Module Body.
Record t : Type := mk {
  pos : Vector.t;
  vel : Vector.t;
  acc : Vector.t;
  mass : R;
  radius : R;
  color : string;
  isStatic : bool;
  type : BodyType.t;
  trail : list Vector.t;
  orbitCenter : option Vector.t;
  parentBody : option nat;
  orbitRadius : R;
  orbitAngle : R;
  orbitSpeed : R;
  startPos : Vector.t;
  oscillate : bool;
  oscillateSpeed : R;
  oscillateDist : R;
  timeOffset : R;
  fuel : R;
  angle : R;
  age : nat;
  shapeVertices : list Vector.t
}.

Definition set_pos (p : Vector.t) (b : t) : t :=
  mk p (vel b) (acc b) (mass b) (radius b) (color b) (isStatic b) (type b)
     (trail b) (orbitCenter b) (parentBody b) (orbitRadius b) (orbitAngle b)
     (orbitSpeed b) (startPos b) (oscillate b) (oscillateSpeed b)
     (oscillateDist b) (timeOffset b) (fuel b) (angle b) (age b)
     (shapeVertices b).
Definition set_vel (v : Vector.t) (b : t) : t :=
  mk (pos b) v (acc b) (mass b) (radius b) (color b) (isStatic b) (type b)
     (trail b) (orbitCenter b) (parentBody b) (orbitRadius b) (orbitAngle b)
     (orbitSpeed b) (startPos b) (oscillate b) (oscillateSpeed b)
     (oscillateDist b) (timeOffset b) (fuel b) (angle b) (age b)
     (shapeVertices b).
Definition set_acc (a : Vector.t) (b : t) : t :=
  mk (pos b) (vel b) a (mass b) (radius b) (color b) (isStatic b) (type b)
     (trail b) (orbitCenter b) (parentBody b) (orbitRadius b) (orbitAngle b)
     (orbitSpeed b) (startPos b) (oscillate b) (oscillateSpeed b)
     (oscillateDist b) (timeOffset b) (fuel b) (angle b) (age b)
     (shapeVertices b).
Definition set_trail (l : list Vector.t) (b : t) : t :=
  mk (pos b) (vel b) (acc b) (mass b) (radius b) (color b) (isStatic b)
     (type b) l (orbitCenter b) (parentBody b) (orbitRadius b)
     (orbitAngle b) (orbitSpeed b) (startPos b) (oscillate b)
     (oscillateSpeed b) (oscillateDist b) (timeOffset b) (fuel b) (angle b)
     (age b) (shapeVertices b).
Definition set_orbitAngle (a : R) (b : t) : t :=
  mk (pos b) (vel b) (acc b) (mass b) (radius b) (color b) (isStatic b)
     (type b) (trail b) (orbitCenter b) (parentBody b) (orbitRadius b) a
     (orbitSpeed b) (startPos b) (oscillate b) (oscillateSpeed b)
     (oscillateDist b) (timeOffset b) (fuel b) (angle b) (age b)
     (shapeVertices b).
Definition set_fuel (f : R) (b : t) : t :=
  mk (pos b) (vel b) (acc b) (mass b) (radius b) (color b) (isStatic b)
     (type b) (trail b) (orbitCenter b) (parentBody b) (orbitRadius b)
     (orbitAngle b) (orbitSpeed b) (startPos b) (oscillate b)
     (oscillateSpeed b) (oscillateDist b) (timeOffset b) f (angle b) (age b)
     (shapeVertices b).
Definition set_angle (a : R) (b : t) : t :=
  mk (pos b) (vel b) (acc b) (mass b) (radius b) (color b) (isStatic b)
     (type b) (trail b) (orbitCenter b) (parentBody b) (orbitRadius b)
     (orbitAngle b) (orbitSpeed b) (startPos b) (oscillate b)
     (oscillateSpeed b) (oscillateDist b) (timeOffset b) (fuel b) a (age b)
     (shapeVertices b).
Definition set_age (n : nat) (b : t) : t :=
  mk (pos b) (vel b) (acc b) (mass b) (radius b) (color b) (isStatic b)
     (type b) (trail b) (orbitCenter b) (parentBody b) (orbitRadius b)
     (orbitAngle b) (orbitSpeed b) (startPos b) (oscillate b)
     (oscillateSpeed b) (oscillateDist b) (timeOffset b) (fuel b) (angle b)
     n (shapeVertices b).
(** [applyForce(f)]: [this.acc] grows by [f / mass]. *)
Definition applyForce (this : t) (f : Vector.t) : t :=
  let fCopy := Vector.mult (Vector.copy f) (1 / mass this) in
  set_acc (Vector.add (acc this) fCopy) this.

(** The body a [parentBody] reference points to, read from the current
    contents of [physics.bodies]. *)
Definition parent (store : list t) (this : t) : option t :=
  match parentBody this with
  | Some j => nth_error store j
  | None => None
  end.

(** The first part of [update()]: the motion mode. *)
Definition move (frameCount : nat) (store : list t) (this : t) : t :=
  match orbitCenter this with
  | Some c =>
      let a := orbitAngle this + orbitSpeed this in
      let this := set_orbitAngle a this in
      let this :=
        set_pos (Vector.mk (Vector.x c + cos a * orbitRadius this)
                           (Vector.y c + sin a * orbitRadius this)) this in
      set_vel (Vector.mk (- sin a * orbitRadius this * orbitSpeed this)
                         (cos a * orbitRadius this * orbitSpeed this)) this
  | None =>
      match parent store this with
      | Some p =>
          let a := orbitAngle this + orbitSpeed this in
          let this := set_orbitAngle a this in
          let this :=
            set_pos (Vector.mk (Vector.x (pos p) + cos a * orbitRadius this)
                               (Vector.y (pos p) + sin a * orbitRadius this))
                    this in
          set_vel (Vector.mk
                     (Vector.x (vel p) - sin a * orbitRadius this * orbitSpeed this)
                     (Vector.y (vel p) + cos a * orbitRadius this * orbitSpeed this))
                  this
      | None =>
          if oscillate this then
            set_pos (Vector.mk (Vector.x (pos this))
                       (Vector.y (startPos this)
                        + sin (INR frameCount * oscillateSpeed this + timeOffset this)
                          * oscillateDist this)) this
          else if negb (isStatic this) then
            let this := set_vel (Vector.add (vel this) (acc this)) this in
            set_pos (Vector.add (pos this) (vel this)) this
          else this
      end
  end.

(** [update()].  [frameCount], [isThrusting] and [mouse] are the globals
    the method reads; [store] is [physics.bodies] at the time of the call. *)
Definition update (frameCount : nat) (isThrusting : bool) (mouse : Vector.t)
                  (store : list t) (this : t) : t :=
  let this := move frameCount store this in
  let this := set_acc (Vector.mult (acc this) 0) this in
  let this :=
    if BodyType.eqb (type this) BodyType.rocket then
      let this := set_age (S (age this)) this in
      if isThrusting then
        set_angle (Vector.heading (Vector.sub mouse (pos this))) this
      else if Rlt_dec (1 / 10) (Vector.mag (vel this)) then
        set_angle (Vector.heading (vel this)) this
      else this
    else this in
  if (BodyType.eqb (type this) BodyType.planet
      || BodyType.eqb (type this) BodyType.rocket)
     && (frameCount mod 5 =? 0)%nat
  then
    let tr := trail this ++ [pos this] in
    let limit := if BodyType.eqb (type this) BodyType.rocket
                 then GameConfig.ROCKET_TRAIL_LIMIT
                 else GameConfig.BODY_TRAIL_LIMIT in
    set_trail (if (limit <? List.length tr)%nat then tl tr else tr) this
  else this.
End Body.

(** [class Particle]. *)
Module Particle.
Record t : Type := mk {
  pos : Vector.t;
  vel : Vector.t;
  life : R;
  color : string;
  size : R
}.
Definition update (this : t) : t :=
  mk (Vector.add (pos this) (vel this)) (vel this) (life this - 3 / 100)
     (color this) (size this).
End Particle.

(** An element of [physics.stars]. *)
Record Star : Type := mkStar {
  star_x : R; star_y : R; star_size : R; star_alpha : R
}.

(** [gameData] (without the canvas handles). *)
Record GameData : Type := mkGameData {
  width : R;
  height : R;
  cx : R;
  cy : R;
  scaleFactor : R;
  frameCount : nat;
  lastTimestamp : R;
  accumulator : R
}.

(** [gameState]. *)
Record GameState : Type := mkGameState {
  mode : Mode;
  level : Z;
  coins : Z;
  closestDist : ExtR;
  isThrusting : bool;
  shakeStrength : R;
  isPaused : bool
}.

(** [physics]. *)
Record Physics : Type := mkPhysics {
  bodies : list Body.t;
  rocket : option Body.t;
  ghostTrail : list Vector.t;
  particles : list Particle.t;
  particlePool : list Particle.t;
  stars : list Star
}.

(** One entry of [UpgradeSystem.upgrades]. *)
Record Upgrade : Type := mkUpgrade {
  u_level : Z;
  u_cost : Z;
  u_name : string;
  u_max : Z;
  u_costMultiplier : R
}.

(** [UpgradeSystem.upgrades]: an object with exactly the three keys
    [fuel], [thrust] and [launch]. *)
Record Upgrades : Type := mkUpgrades {
  up_fuel : Upgrade;
  up_thrust : Upgrade;
  up_launch : Upgrade
}.

(** What [endGame] writes into the message box: the title, and whether the
    box carries the class [success] (true) or [failure] (false). *)
Record UI : Type := mkUI {
  messageShown : bool;
  msgTitle : string;
  msgSuccess : bool
}.

(** The whole mutable state of the program. *)
Record World : Type := mkWorld {
  gameData : GameData;
  gameState : GameState;
  physics : Physics;
  upgrades : Upgrades;
  mouse : Vector.t;
  ui : UI;
  rngPos : nat
}.

Definition set_gameData (g : GameData) (w : World) : World :=
  mkWorld g (gameState w) (physics w) (upgrades w) (mouse w) (ui w) (rngPos w).
Definition set_gameState (g : GameState) (w : World) : World :=
  mkWorld (gameData w) g (physics w) (upgrades w) (mouse w) (ui w) (rngPos w).
Definition set_physics (p : Physics) (w : World) : World :=
  mkWorld (gameData w) (gameState w) p (upgrades w) (mouse w) (ui w) (rngPos w).
Definition set_upgrades (u : Upgrades) (w : World) : World :=
  mkWorld (gameData w) (gameState w) (physics w) u (mouse w) (ui w) (rngPos w).
Definition set_mouse (m : Vector.t) (w : World) : World :=
  mkWorld (gameData w) (gameState w) (physics w) (upgrades w) m (ui w) (rngPos w).
Definition set_ui (u : UI) (w : World) : World :=
  mkWorld (gameData w) (gameState w) (physics w) (upgrades w) (mouse w) u (rngPos w).
Definition set_rngPos (n : nat) (w : World) : World :=
  mkWorld (gameData w) (gameState w) (physics w) (upgrades w) (mouse w) (ui w) n.

(** Field updates of [gameState]. *)
Definition set_mode (m : Mode) (w : World) : World :=
  let g := gameState w in
  set_gameState (mkGameState m (level g) (coins g) (closestDist g)
                   (isThrusting g) (shakeStrength g) (isPaused g)) w.
Definition set_coins (c : Z) (w : World) : World :=
  let g := gameState w in
  set_gameState (mkGameState (mode g) (level g) c (closestDist g)
                   (isThrusting g) (shakeStrength g) (isPaused g)) w.
Definition set_closestDist (d : ExtR) (w : World) : World :=
  let g := gameState w in
  set_gameState (mkGameState (mode g) (level g) (coins g) d
                   (isThrusting g) (shakeStrength g) (isPaused g)) w.
Definition set_isThrusting (b : bool) (w : World) : World :=
  let g := gameState w in
  set_gameState (mkGameState (mode g) (level g) (coins g) (closestDist g)
                   b (shakeStrength g) (isPaused g)) w.
Definition set_shakeStrength (s : R) (w : World) : World :=
  let g := gameState w in
  set_gameState (mkGameState (mode g) (level g) (coins g) (closestDist g)
                   (isThrusting g) s (isPaused g)) w.
Definition set_isPaused (b : bool) (w : World) : World :=
  let g := gameState w in
  set_gameState (mkGameState (mode g) (level g) (coins g) (closestDist g)
                   (isThrusting g) (shakeStrength g) b) w.

(** Field updates of [physics]. *)
Definition set_bodies (l : list Body.t) (w : World) : World :=
  let p := physics w in
  set_physics (mkPhysics l (rocket p) (ghostTrail p) (particles p)
                 (particlePool p) (stars p)) w.
Definition set_rocket (r : option Body.t) (w : World) : World :=
  let p := physics w in
  set_physics (mkPhysics (bodies p) r (ghostTrail p) (particles p)
                 (particlePool p) (stars p)) w.
Definition set_ghostTrail (l : list Vector.t) (w : World) : World :=
  let p := physics w in
  set_physics (mkPhysics (bodies p) (rocket p) l (particles p)
                 (particlePool p) (stars p)) w.
Definition set_particles (l : list Particle.t) (w : World) : World :=
  let p := physics w in
  set_physics (mkPhysics (bodies p) (rocket p) (ghostTrail p) l
                 (particlePool p) (stars p)) w.
Definition set_particlePool (l : list Particle.t) (w : World) : World :=
  let p := physics w in
  set_physics (mkPhysics (bodies p) (rocket p) (ghostTrail p) (particles p)
                 l (stars p)) w.
Definition set_stars (l : list Star) (w : World) : World :=
  let p := physics w in
  set_physics (mkPhysics (bodies p) (rocket p) (ghostTrail p) (particles p)
                 (particlePool p) l) w.

(** Field updates of [gameData]. *)
Definition set_frameCount (n : nat) (w : World) : World :=
  let g := gameData w in
  set_gameData (mkGameData (width g) (height g) (cx g) (cy g) (scaleFactor g)
                  n (lastTimestamp g) (accumulator g)) w.
Definition set_lastTimestamp (t : R) (w : World) : World :=
  let g := gameData w in
  set_gameData (mkGameData (width g) (height g) (cx g) (cy g) (scaleFactor g)
                  (frameCount g) t (accumulator g)) w.
Definition set_accumulator (a : R) (w : World) : World :=
  let g := gameData w in
  set_gameData (mkGameData (width g) (height g) (cx g) (cy g) (scaleFactor g)
                  (frameCount g) (lastTimestamp g) a) w.

(* ================================================================== *)
(** * 4. Upgrades *)
(* ================================================================== *)

(** The object [getStats()] returns. *)
Record Stats : Type := mkStats {
  maxFuel : R;
  thrustPower : R;
  launchForceMin : R;
  launchForceMax : R
}.

(** [const UpgradeSystem]. *)
Module UpgradeSystem.
Definition fromConfig (c : UpgradeConfig) : Upgrade :=
  mkUpgrade 1 (baseCost c) (name c) (maxLevel c) (costMultiplier c).

Definition init (w : World) : World :=
  set_upgrades (mkUpgrades (fromConfig LEVELS_DATA.fuel)
                           (fromConfig LEVELS_DATA.thrust)
                           (fromConfig LEVELS_DATA.launch)) w.

Definition getStats (w : World) : Stats :=
  let u := upgrades w in
  let s := scaleFactor (gameData w) in
  mkStats (100 + (IZR (u_level (up_fuel u)) - 1) * 30)
          ((1 / 10 + (IZR (u_level (up_thrust u)) - 1) * (25 / 1000)) * s)
          (15 / 10 * s)
          ((5 + (IZR (u_level (up_launch u)) - 1)) * s).

(** [this.upgrades[type]] and the assignment to it. *)
Definition get (k : UpgradeKey) (u : Upgrades) : Upgrade :=
  match k with
  | Kfuel => up_fuel u
  | Kthrust => up_thrust u
  | Klaunch => up_launch u
  end.

Definition set (k : UpgradeKey) (v : Upgrade) (u : Upgrades) : Upgrades :=
  match k with
  | Kfuel => mkUpgrades v (up_thrust u) (up_launch u)
  | Kthrust => mkUpgrades (up_fuel u) v (up_launch u)
  | Klaunch => mkUpgrades (up_fuel u) (up_thrust u) v
  end.

(** The test of [buy]. *)
Definition canBuy (k : UpgradeKey) (w : World) : bool :=
  let u := get k (upgrades w) in
  (u_level u <? u_max u)%Z && (u_cost u <=? coins (gameState w))%Z.

(** [buy(type)]. *)
Definition buy (k : UpgradeKey) (w : World) : World :=
  let u := get k (upgrades w) in
  if canBuy k w then
    let w := set_coins (coins (gameState w) - u_cost u)%Z w in
    let u := mkUpgrade (u_level u + 1)%Z (u_cost u) (u_name u) (u_max u)
                       (u_costMultiplier u) in
    let u := mkUpgrade (u_level u)
                       (Zfloor (IZR (u_cost u) * u_costMultiplier u))
                       (u_name u) (u_max u) (u_costMultiplier u) in
    set_upgrades (set k u (upgrades w)) w
  else w.
End UpgradeSystem.

(** [buyUpgrade(type)], the handler of a store button. *)
Definition buyUpgrade (k : UpgradeKey) (w : World) : World :=
  UpgradeSystem.buy k w.

(* ================================================================== *)
(** * 5. Core functions *)
(* ================================================================== *)

(** [Math.max(0, MAX_DISTANCE_SCORE - Math.floor(closestDist / 2))].  For
    [closestDist = Infinity] JavaScript computes [Math.floor(Infinity)] =
    [Infinity], [50 - Infinity = -Infinity] and [Math.max(0, -Infinity) = 0]. *)
Definition distanceScore (c : ExtR) : Z :=
  match c with
  | Finite d => Z.max 0 (GameConfig.MAX_DISTANCE_SCORE - Zfloor (d / 2))
  | Infinity => 0%Z
  end.

Definition Reason_eqb (a b : Reason) : bool :=
  match a, b with
  | landed, landed | crashed, crashed | lost_space, lost_space => true
  | _, _ => false
  end.

(** [endGame(success, reason)]. *)
Definition endGame (success : bool) (reason : Reason) (w : World) : World :=
  let w := set_mode ENDED w in
  let w := set_isThrusting false w in
  let w := set_isPaused false w in
  let w :=
    match rocket (physics w) with
    | Some r =>
        if (0 <? List.length (Body.trail r))%nat
        then set_ghostTrail (Body.trail r) w else w
    | None => w
    end in
  let w := set_rocket None w in
  let w :=
    if success then
      let earned := GameConfig.LANDING_REWARD in
      let w := set_coins (coins (gameState w) + earned)%Z w in
      set_ui (mkUI (messageShown (ui w)) "MARS LANDING!" true) w
    else
      let distScore := distanceScore (closestDist (gameState w)) in
      let distScore := if Reason_eqb reason crashed then 0%Z else distScore in
      let w := set_coins (coins (gameState w) + distScore)%Z w in
      let title := if Reason_eqb reason lost_space
                   then "LOST IN SPACE"%string else "CRASHED"%string in
      set_ui (mkUI (messageShown (ui w)) title false) w in
  set_ui (mkUI true (msgTitle (ui w)) (msgSuccess (ui w))) w.

(** [InputManager._updateMouse(e)]: an event carries a pointer position or
    none. *)
Definition updateMouse (e : option Vector.t) (w : World) : World :=
  match e with
  | Some c => set_mouse c w
  | None => w
  end.

(** [UIManager.togglePause()]. *)
Definition togglePause (w : World) : World :=
  match mode (gameState w) with
  | FLYING => set_isPaused (negb (isPaused (gameState w))) w
  | _ => w
  end.

(** [getLaunchVector()]: the pair [{vec, power}]. *)
Definition getLaunchVector (w : World) : Vector.t * R :=
  match find (fun b => BodyType.eqb (Body.type b) BodyType.target_start)
             (bodies (physics w)) with
  | None => (Vector.mk 0 0, 0)
  | Some earth =>
      let stats := UpgradeSystem.getStats w in
      let target := mouse w in
      let dir := Vector.sub target (Body.pos earth) in
      let dist := Vector.mag dir in
      let dir := Vector.normalize dir in
      let s := scaleFactor (gameData w) in
      let ratio := Rmin dist (GameConfig.MAX_INPUT_DIST * s)
                   / (GameConfig.MAX_INPUT_DIST * s) in
      let force := launchForceMin stats
                   + (launchForceMax stats - launchForceMin stats) * ratio in
      let launchVel := Vector.mult (Vector.copy dir) force in
      let launchVel := Vector.add launchVel (Body.vel earth) in
      (launchVel, ratio)
  end.

(** The result of one pass through the body of the [for] loop of
    [calculateGravity]: the function returned, or the loop goes on. *)
Inductive LoopExit : Type :=
| Return (w : World)
| Continue (w : World).

(** [d < gameState.closestDist]. *)
Definition ltClosest (d : R) (c : ExtR) : bool :=
  match c with
  | Finite c => if Rlt_dec d c then true else false
  | Infinity => true
  end.

Section Engine.

(** The values [Math.random()] returns, in the order of the calls. *)
Variable rng : nat -> R.

(** [Math.random()]. *)
Definition random (w : World) : R * World :=
  (rng (rngPos w), set_rngPos (S (rngPos w)) w).

(** The polygon of an obstacle, in the constructor of [Body]. *)
Fixpoint shapeLoop (count i numPoints : nat) (radius : R)
                   (vs : list Vector.t) (w : World)
  : list Vector.t * World :=
  match count with
  | O => (vs, w)
  | S count' =>
      let angle := INR i / INR numPoints * PI * 2 in
      let (q, w) := random w in
      let r := radius * (7 / 10 + q * (6 / 10)) in
      shapeLoop count' (S i) numPoints radius
                (vs ++ [Vector.mk (cos angle * r) (sin angle * r)]) w
  end.

(** [new Body(x, y, mass, radius, color, isStatic, type)]. *)
Definition newBody (x y mass radius : R) (color : string) (isStatic : bool)
                   (type : BodyType.t) (w : World) : Body.t * World :=
  let radius := radius * scaleFactor (gameData w) in
  let (q, w) := random w in
  let orbitAngle := q * PI * 2 in
  let (shape, w) :=
    if BodyType.eqb type BodyType.obstacle then
      let (q, w) := random w in
      let numPoints := Z.to_nat (6 + Zfloor (q * 4)) in
      shapeLoop numPoints 0 numPoints radius [] w
    else ([], w) in
  (Body.mk (Vector.mk x y) (Vector.mk 0 0) (Vector.mk 0 0) mass radius color
           isStatic type [] None None 0 orbitAngle 0 (Vector.mk x y) false
           0 0 0 0 0 0 shape,
   w).

(** [new Particle(x, y, color)]; a recycled particle gets the same fields
    assigned, in the same order. *)
Definition newParticle (x y : R) (color : string) (w : World)
  : Particle.t * World :=
  let s := scaleFactor (gameData w) in
  let (q1, w) := random w in
  let (q2, w) := random w in
  let (q3, w) := random w in
  (Particle.mk (Vector.mk x y)
               (Vector.mk ((q1 - 1 / 2) * 4 * s) ((q2 - 1 / 2) * 4 * s))
               1 color ((q3 * 3 + 1) * s),
   w).

(** [getPooledParticle(x, y, color)]. *)
Definition getPooledParticle (x y : R) (color : string) (w : World)
  : Particle.t * World :=
  match particlePool (physics w) with
  | _ :: _ =>
      let w := set_particlePool (removelast (particlePool (physics w))) w in
      newParticle x y color w
  | [] => newParticle x y color w
  end.

Fixpoint spawnLoop (n : nat) (x y : R) (color : string) (w : World) : World :=
  match n with
  | O => w
  | S n' =>
      let (p, w) := getPooledParticle x y color w in
      spawnLoop n' x y color (set_particles (particles (physics w) ++ [p]) w)
  end.

(** [spawnExplosion(x, y, color)]. *)
Definition spawnExplosion (x y : R) (color : string) (w : World) : World :=
  spawnLoop 30 x y color (set_shakeStrength 10 w).

(** [body.radius + COLLISION_PADDING * scaleFactor]. *)
Definition collisionDist (body : Body.t) (w : World) : R :=
  Body.radius body + GameConfig.COLLISION_PADDING * scaleFactor (gameData w).

(** One pass through the body of [for (const body of physics.bodies)].
    A missing rocket makes [physics.rocket.pos] throw; the [catch] of
    [calculateGravity] ends the function. *)
Definition gravityBody (localG : R) (body : Body.t) (w : World) : LoopExit :=
  if BodyType.eqb (Body.type body) BodyType.rocket then Continue w
  else
    match rocket (physics w) with
    | None => Return w
    | Some r =>
        let force := Vector.sub (Body.pos body) (Body.pos r) in
        let dist := Vector.mag force in
        let force := Vector.normalize force in
        let distClamped := Rmax dist (10 * scaleFactor (gameData w)) in
        let strength := localG * Body.mass body / (distClamped * distClamped) in
        let strength := if BodyType.eqb (Body.type body) BodyType.sun
                        then strength * 1 else strength in
        let force := Vector.mult force strength in
        let r := Body.applyForce r force in
        let w := set_rocket (Some r) w in
        if Rlt_dec dist (collisionDist body w) then
          let rx := Vector.x (Body.pos r) in
          let ry := Vector.y (Body.pos r) in
          Return
            match Body.type body with
            | BodyType.target_end => endGame true landed w
            | BodyType.target_start =>
                if (100 <? Body.age r)%nat then
                  spawnExplosion rx ry (Body.color body)
                                 (endGame false crashed w)
                else w
            | _ =>
                spawnExplosion rx ry (Body.color body)
                               (endGame false crashed w)
            end
        else Continue w
    end.

Fixpoint gravityLoop (localG : R) (bs : list Body.t) (w : World) : LoopExit :=
  match bs with
  | [] => Continue w
  | body :: rest =>
      match gravityBody localG body w with
      | Return w => Return w
      | Continue w => gravityLoop localG rest w
      end
  end.

(** The thrust block of [calculateGravity], for a live rocket [r]. *)
Definition thrustBlock (r : Body.t) (w : World) : World :=
  let stats := UpgradeSystem.getStats w in
  if isThrusting (gameState w) && (if Rlt_dec 0 (Body.fuel r) then true else false)
  then
    let target := mouse w in
    let force := Vector.sub target (Body.pos r) in
    let force := Vector.normalize force in
    let force := Vector.mult force (thrustPower stats) in
    let r := Body.applyForce r force in
    let r := Body.set_fuel (Body.fuel r - 1 / 2) r in
    let r := if Rlt_dec (Body.fuel r) 0 then Body.set_fuel 0 r else r in
    let w := set_rocket (Some r) w in
    if (frameCount (gameData w) mod 3 =? 0)%nat then
      let (p, w) := getPooledParticle (Vector.x (Body.pos r))
                                      (Vector.y (Body.pos r)) "#ffaa00" w in
      set_particles (particles (physics w) ++ [p]) w
    else w
  else w.

(** The closest-approach block at the end of [calculateGravity]. *)
Definition closestBlock (w : World) : World :=
  match find (fun b => BodyType.eqb (Body.type b) BodyType.target_end)
             (bodies (physics w)), rocket (physics w) with
  | Some mars, Some r =>
      let d := Vector.mag (Vector.sub (Body.pos r) (Body.pos mars)) in
      if ltClosest d (closestDist (gameState w))
      then set_closestDist (Finite d) w else w
  | _, _ => w
  end.

(** [calculateGravity()]. *)
Definition calculateGravity (w : World) : World :=
  match rocket (physics w) with
  | None => w
  | Some r =>
      match bodies (physics w) with
      | [] => w
      | _ :: _ =>
          let localG := GameConfig.G_BASE * scaleFactor (gameData w) in
          let w := thrustBlock r w in
          match gravityLoop localG (bodies (physics w)) w with
          | Return w => w
          | Continue w => closestBlock w
          end
      end
  end.

(** [launch(e)]. *)
Definition launch (e : option Vector.t) (w : World) : World :=
  match find (fun b => BodyType.eqb (Body.type b) BodyType.target_start)
             (bodies (physics w)) with
  | None => w
  | Some earth =>
      let stats := UpgradeSystem.getStats w in
      let w := updateMouse e w in
      let vec := fst (getLaunchVector w) in
      let (r, w) := newBody (Vector.x (Body.pos earth))
                            (Vector.y (Body.pos earth)) 1 4 "#fff" false
                            BodyType.rocket w in
      let r := Body.set_vel vec r in
      let r := Body.set_fuel (maxFuel stats) r in
      let dir := Vector.normalize (Vector.copy vec) in
      let off := Vector.mult (Vector.copy dir)
                   (Body.radius earth + 25 * scaleFactor (gameData w)) in
      let r := Body.set_pos (Vector.add (Body.pos r) off) r in
      let w := set_rocket (Some r) w in
      set_mode FLYING w
  end.

(** [InputManager._inputStart(e)] and [_inputEnd(e)], for an event that
    does not touch a UI element. *)
Definition inputStart (e : option Vector.t) (w : World) : World :=
  match mode (gameState w) with
  | FLYING => updateMouse e (set_isThrusting true w)
  | _ => w
  end.

Definition inputEnd (e : option Vector.t) (w : World) : World :=
  match mode (gameState w) with
  | FLYING => set_isThrusting false w
  | IDLE => launch e w
  | ENDED => w
  end.

(** [physics.bodies.forEach(b => b.update())]: the bodies are updated in
    place, in order, so a body that is updated after its parent reads the
    parent's new position and velocity.  [done] holds the bodies already
    updated, [todo] the others. *)
Fixpoint forEachUpdate (fc : nat) (th : bool) (m : Vector.t)
                       (done todo : list Body.t) : list Body.t :=
  match todo with
  | [] => done
  | b :: rest =>
      forEachUpdate fc th m
        (done ++ [Body.update fc th m (done ++ todo) b]) rest
  end.

Definition updateBodies (w : World) : World :=
  set_bodies (forEachUpdate (frameCount (gameData w))
                            (isThrusting (gameState w)) (mouse w)
                            [] (bodies (physics w))) w.

(** The rocket part of a physics step, with the lost-in-space test. *)
Definition updateRocket (w : World) : World :=
  match rocket (physics w) with
  | None => w
  | Some r =>
      let r := Body.update (frameCount (gameData w))
                           (isThrusting (gameState w)) (mouse w)
                           (bodies (physics w)) r in
      let w := set_rocket (Some r) w in
      let d := Vector.mag (Vector.mk (Vector.x (Body.pos r) - cx (gameData w))
                                     (Vector.y (Body.pos r) - cy (gameData w))) in
      if Rlt_dec (Rmax (width (gameData w)) (height (gameData w)) * 2) d
      then endGame false lost_space w else w
  end.

(** The particle loop of a physics step runs from the last particle to the
    first: [rps] is the list of particles reversed, [kept] the particles
    that stay, in their order. *)
Fixpoint particleLoop (rps kept pool : list Particle.t)
  : list Particle.t * list Particle.t :=
  match rps with
  | [] => (kept, pool)
  | p :: rest =>
      let p := Particle.update p in
      if Rle_dec (Particle.life p) 0
      then particleLoop rest kept (pool ++ [p])
      else particleLoop rest (p :: kept) pool
  end.

Definition updateParticles (w : World) : World :=
  let (kept, pool) := particleLoop (rev (particles (physics w))) []
                                   (particlePool (physics w)) in
  set_particlePool pool (set_particles kept w).

(** The body of the [while] loop of [loop] (the function [physicsStep] of
    the draft). *)
Definition physicsStep (w : World) : World :=
  let w := calculateGravity w in
  let w := updateBodies w in
  let w := updateRocket w in
  updateParticles w.

Definition step : R := 1 / 60.

(** [while (gameData.accumulator >= step && steps < 5)]; [n] is [5 - steps]. *)
Fixpoint stepsLoop (n : nat) (w : World) : World :=
  match n with
  | O => w
  | S n' =>
      if Rge_dec (accumulator (gameData w)) step then
        let w := physicsStep w in
        stepsLoop n' (set_accumulator (accumulator (gameData w) - step) w)
      else w
  end.

(** How many physics steps [stepsLoop] runs. *)
Fixpoint stepsTaken (n : nat) (a : R) : nat :=
  match n with
  | O => O
  | S n' => if Rge_dec a step then S (stepsTaken n' (a - step)) else O
  end.

(** The screen shake at the start of a frame. *)
Definition shakeBlock (w : World) : World :=
  if Rlt_dec 0 (shakeStrength (gameState w)) then
    let (_, w) := random w in
    let (_, w) := random w in
    let w := set_shakeStrength (shakeStrength (gameState w) * (9 / 10)) w in
    if Rlt_dec (shakeStrength (gameState w)) (1 / 2)
    then set_shakeStrength 0 w else w
  else w.

(** [physics.stars.forEach(...)]: the twinkle of the stars. *)
Fixpoint starsLoop (done todo : list Star) (w : World) : list Star * World :=
  match todo with
  | [] => (done, w)
  | s :: rest =>
      let (q, w) := random w in
      if Rlt_dec q (1 / 100) then
        let (q', w) := random w in
        starsLoop (done ++ [mkStar (star_x s) (star_y s) (star_size s)
                                   (q' * (8 / 10) + 2 / 10)]) rest w
      else starsLoop (done ++ [s]) rest w
  end.

Definition twinkle (w : World) : World :=
  let (l, w) := starsLoop [] (stars (physics w)) w in
  set_stars l w.

(** What [draw()] changes: the flame of a thrusting rocket takes one
    random number. *)
Definition draw (b : Body.t) (w : World) : World :=
  if BodyType.eqb (Body.type b) BodyType.rocket
     && isThrusting (gameState w)
     && (if Rlt_dec 0 (Body.fuel b) then true else false)
  then snd (random w) else w.

(** The drawing part of a frame. *)
Definition drawBlock (w : World) : World :=
  let w := fold_left (fun w b => draw b w) (bodies (physics w)) w in
  match rocket (physics w) with
  | Some r => draw r w
  | None => w
  end.

(** [loop()], one animation frame; [now] is [performance.now() / 1000]. *)
Definition loop (now : R) (w : World) : World :=
  let w := if Req_dec_T (lastTimestamp (gameData w)) 0
           then set_lastTimestamp now w else w in
  let delta := now - lastTimestamp (gameData w) in
  let delta := if Rlt_dec (1 / 4) delta then 1 / 4 else delta in
  let w := set_lastTimestamp now w in
  let w := set_accumulator (accumulator (gameData w) + delta) w in
  if isPaused (gameState w) then w
  else
    let w := shakeBlock w in
    let w := twinkle w in
    let w := stepsLoop 5 w in
    let w := drawBlock w in
    set_frameCount (S (frameCount (gameData w))) w.

(** A run of frames at the times [ts]. *)
Fixpoint frames (ts : list R) (w : World) : World :=
  match ts with
  | [] => w
  | now :: rest => frames rest (loop now w)
  end.

End Engine.

(* ================================================================== *)
(** * 5b. The collision branch of the earlier draft *)
(* ================================================================== *)

(** [src/unnamed/part_000] is an earlier draft of the same game.  Its
    [calculateGravity] differs from the final one in the constants, in the
    weight of the sun and in the collision branch, which is embedded here.
    [endGame] has the same effect in both files. *)
Module Draft.
Definition G_BASE : R := 35 / 100.
Definition COLLISION_PADDING : R := 4.

Definition collisionDist (body : Body.t) (w : World) : R :=
  Body.radius body + COLLISION_PADDING * scaleFactor (gameData w).

(** The tail of the collision branch: [if (physics.rocket &&
    physics.rocket.pos) spawnExplosion(...)], then [physics.rocket = null]. *)
Definition explodeAndDestroy (rng : nat -> R) (body : Body.t) (w : World)
  : World :=
  let w :=
    match rocket (physics w) with
    | Some r => spawnExplosion rng (Vector.x (Body.pos r))
                               (Vector.y (Body.pos r)) (Body.color body) w
    | None => w
    end in
  set_rocket None w.

(** One pass through the body of the [for] loop.  The draft guards against
    a missing rocket with [continue]. *)
Definition gravityBody (rng : nat -> R) (localG : R) (body : Body.t)
                       (w : World) : LoopExit :=
  if BodyType.eqb (Body.type body) BodyType.rocket then Continue w
  else
    match rocket (physics w) with
    | None => Continue w
    | Some r =>
        let force := Vector.sub (Body.pos body) (Body.pos r) in
        let dist := Vector.mag force in
        let force := Vector.normalize force in
        let distClamped :=
          Rmax dist (GameConfig.COLLISION_MIN_DIST * scaleFactor (gameData w)) in
        let strength := localG * Body.mass body / (distClamped * distClamped) in
        let force := if BodyType.eqb (Body.type body) BodyType.sun
                     then Vector.mult force (strength * (15 / 10))
                     else Vector.mult force strength in
        let r := Body.applyForce r force in
        let w := set_rocket (Some r) w in
        if Rlt_dec dist (collisionDist body w) then
          if BodyType.eqb (Body.type body) BodyType.target_end then
            Return (explodeAndDestroy rng body (endGame true landed w))
          else if BodyType.eqb (Body.type body) BodyType.target_start
                  && (Body.age r <=? 100)%nat then
            Return w
          else
            Return (explodeAndDestroy rng body (endGame false crashed w))
        else Continue w
    end.
End Draft.

(* ================================================================== *)
(** * 6. Notions used in the statements *)
(* ================================================================== *)

(** The condition under which [buy] goes through. *)
Definition affordable (k : UpgradeKey) (w : World) : Prop :=
  let u := UpgradeSystem.get k (upgrades w) in
  (u_level u < u_max u)%Z /\ (u_cost u <= coins (gameState w))%Z.

(** A sample world.  The arena is 800 by 800, so the scale factor is 1.
    The bodies stand where the first four bodies of [createSolarSystem]
    stand at their starting angles. *)
Module Sample.
Definition aBody (x y mass radius : R) (isStatic : bool) (type : BodyType.t)
                 (center : option Vector.t) (parent : option nat)
                 (orbitRadius orbitAngle orbitSpeed : R) : Body.t :=
  Body.mk (Vector.mk x y) (Vector.mk 0 0) (Vector.mk 0 0) mass radius "#fff"
          isStatic type [] center parent orbitRadius orbitAngle orbitSpeed
          (Vector.mk x y) false 0 0 0 0 0 0 [].

Definition theSun : Body.t :=
  aBody 400 400 GameConfig.SUN_MASS 30 true BodyType.sun None None 0 0 0.
Definition earth : Body.t :=
  aBody 576 400 GameConfig.EARTH_MASS 10 false BodyType.target_start
        (Some (Vector.mk 400 400)) None 176 0 (5 / 1000).
Definition theMoon : Body.t :=
  aBody 601 400 GameConfig.MOON_MASS 3 false BodyType.moon
        None (Some 1%nat) 25 0 (8 / 100).
Definition mars : Body.t :=
  aBody 120 400 GameConfig.MARS_MASS 9 false BodyType.target_end
        (Some (Vector.mk 400 400)) None 280 PI (3 / 1000).

Definition world : World :=
  UpgradeSystem.init
    (mkWorld (mkGameData 800 800 400 400 1 0 1 0)
             (mkGameState IDLE 1 100 Infinity false 0 false)
             (mkPhysics [theSun; earth; theMoon; mars] None [] [] [] [])
             (mkUpgrades (mkUpgrade 0 0 "" 0 0) (mkUpgrade 0 0 "" 0 0)
                         (mkUpgrade 0 0 "" 0 0))
             (Vector.mk 400 400)
             (mkUI false "" false)
             0).

(** A rocket in flight at [(x, y)]. *)
Definition aRocket (x y fuel : R) (age : nat) : Body.t :=
  Body.mk (Vector.mk x y) (Vector.mk 0 0) (Vector.mk 0 0) 1 4 "#fff" false
          BodyType.rocket [] None None 0 0 0 (Vector.mk x y) false 0 0 0
          fuel 0 age [].

Definition flying (r : Body.t) : World :=
  set_mode FLYING (set_rocket (Some r) world).
End Sample.

(** The coins [endGame] adds. *)
Definition reward (success : bool) (reason : Reason) (c : ExtR) : Z :=
  if success then GameConfig.LANDING_REWARD
  else match reason with
       | crashed => 0%Z
       | _ => distanceScore c
       end.

(** The ghost trail [endGame] leaves. *)
Definition ghostAfter (w : World) : list Vector.t :=
  match rocket (physics w) with
  | Some r => if (0 <? List.length (Body.trail r))%nat
              then Body.trail r else ghostTrail (physics w)
  | None => ghostTrail (physics w)
  end.

Definition endTitle (success : bool) (reason : Reason) : string :=
  if success then "MARS LANDING!"
  else match reason with
       | lost_space => "LOST IN SPACE"
       | _ => "CRASHED"
       end.

(** Linear interpolation, [a + (b - a) * t]. *)
Definition lerp (a b t : R) : R := a + (b - a) * t.

(** The launch body: the first body of type ['target_start']. *)
Definition launchBody (w : World) : option Body.t :=
  find (fun b => BodyType.eqb (Body.type b) BodyType.target_start)
       (bodies (physics w)).

(** The aim-derived impulse. *)
Definition aimImpulse (w : World) (earth : Body.t) : Vector.t :=
  let stats := UpgradeSystem.getStats w in
  let aim := Vector.sub (mouse w) (Body.pos earth) in
  let maxd := GameConfig.MAX_INPUT_DIST * scaleFactor (gameData w) in
  Vector.mult (Vector.normalize aim)
              (lerp (launchForceMin stats) (launchForceMax stats)
                    (Rmin (Vector.mag aim) maxd / maxd)).

(** The rocket [launch] builds for the launch body [earth]. *)
Definition launchedRocket (rng : nat -> R) (e : option Vector.t) (w : World)
                          (earth : Body.t) : Body.t :=
  let vec := fst (getLaunchVector (updateMouse e w)) in
  let s := scaleFactor (gameData w) in
  Body.mk (Vector.add (Body.pos earth)
             (Vector.mult (Vector.normalize vec) (Body.radius earth + 25 * s)))
          vec (Vector.mk 0 0) 1 (4 * s) "#fff" false BodyType.rocket []
          None None 0 (rng (rngPos w) * PI * 2) 0
          (Vector.mk (Vector.x (Body.pos earth)) (Vector.y (Body.pos earth)))
          false 0 0 0 (maxFuel (UpgradeSystem.getStats w)) 0 0 [].

(** The sample world with the launch body moving as it does at angle 0 of
    its orbit: 176 * 0.005 = 0.88 per tick, upwards. *)
Definition earthMoving : Body.t :=
  Body.set_vel (Vector.mk 0 (88 / 100)) Sample.earth.

Definition worldMoving : World :=
  set_bodies [Sample.theSun; earthMoving; Sample.theMoon; Sample.mars]
             Sample.world.

(** C9 as the specification words it: the rocket is put on the surface of
    the launch body along the aim direction. *)
Definition C9_as_claimed (rng : nat -> R) (e : option Vector.t) (w : World)
  : Prop :=
  forall earth,
    mode (gameState w) = IDLE ->
    launchBody w = Some earth ->
    let w' := inputEnd rng e w in
    let aim := Vector.sub (mouse (updateMouse e w)) (Body.pos earth) in
    mode (gameState w') = FLYING
    /\ exists r,
         rocket (physics w') = Some r
         /\ Body.fuel r = maxFuel (UpgradeSystem.getStats w)
         /\ Body.pos r
            = Vector.add (Body.pos earth)
                (Vector.mult (Vector.normalize aim)
                   (Body.radius earth + 25 * scaleFactor (gameData w))).

(** Everything in the world but the particles, the particle pool and the
    position of the random oracle. *)
Definition frameOf (w : World) :=
  (gameData w, gameState w, bodies (physics w), rocket (physics w),
   ghostTrail (physics w), stars (physics w), upgrades w, mouse w, ui w).

(** A particle as [getPooledParticle(x, y, color)] returns it. *)
Definition freshAt (x y : R) (color : string) (p : Particle.t) : Prop :=
  Particle.pos p = Vector.mk x y
  /\ Particle.color p = color
  /\ Particle.life p = 1.

(** The distance of the rocket [r] from the centre of [body]. *)
Definition distTo (body r : Body.t) : R :=
  Vector.mag (Vector.sub (Body.pos body) (Body.pos r)).

(** The rocket [r] is within the collision threshold of [body]. *)
Definition hits (w : World) (r body : Body.t) : Prop :=
  distTo body r < collisionDist body w.

(** The loop passes [body] without a collision. *)
Definition misses (w : World) (r body : Body.t) : Prop :=
  Body.type body = BodyType.rocket \/ ~ hits w r body.

(** The fuel after the thrust block. *)
Definition fuelAfter (thrusting : bool) (f : R) : R :=
  if thrusting && (if Rlt_dec 0 f then true else false)
  then Rmax 0 (f - 1 / 2) else f.

(** What the collision branch of the loop does with [body], for the rocket
    [r], in the world [w]. *)
Definition dispatch (rng : nat -> R) (body r : Body.t) (w : World) : World :=
  match Body.type body with
  | BodyType.target_end => endGame true landed w
  | BodyType.target_start =>
      if (100 <? Body.age r)%nat then
        spawnExplosion rng (Vector.x (Body.pos r)) (Vector.y (Body.pos r))
                       (Body.color body) (endGame false crashed w)
      else w
  | _ =>
      spawnExplosion rng (Vector.x (Body.pos r)) (Vector.y (Body.pos r))
                     (Body.color body) (endGame false crashed w)
  end.

(** The rocket as the collision branch finds it: [r] with the fuel left by
    the thrust block and some acceleration. *)
Definition inLoop (w : World) (r : Body.t) (a : Vector.t) : Body.t :=
  Body.set_acc a
    (Body.set_fuel (fuelAfter (isThrusting (gameState w)) (Body.fuel r)) r).

(** The input signals of a tick: the thrust signal and the aim point. *)
Record Input : Type := mkInput {
  in_thrust : bool;
  in_aim : Vector.t
}.

(** A physics tick under the input [i]. *)
Definition tick (rng : nat -> R) (i : Input) (w : World) : World :=
  physicsStep rng (set_mouse (in_aim i) (set_isThrusting (in_thrust i) w)).

Fixpoint ticks (rng : nat -> R) (l : list Input) (w : World) : World :=
  match l with
  | [] => w
  | i :: rest => ticks rng rest (tick rng i w)
  end.

(** The rocket of [w] is gone, or it is [r] up to its acceleration, with
    the fuel [f]. *)
Definition rocketGoneOr (r : Body.t) (f : R) (w : World) : Prop :=
  rocket (physics w) = None
  \/ exists a, rocket (physics w) = Some (Body.set_acc a (Body.set_fuel f r)).

(** The point at angle [a] of the circle of radius [r] around [c], and the
    velocity of a body that runs along it at the angular speed [s]. *)
Definition onCircle (c : Vector.t) (r a : R) : Vector.t :=
  Vector.mk (Vector.x c + cos a * r) (Vector.y c + sin a * r).

Definition tangent (r s a : R) : Vector.t :=
  Vector.mk (- sin a * r * s) (cos a * r * s).

(** The launch body of the sample world after one tick. *)
Definition earthAfterTick : Body.t :=
  Body.update 0 false (Vector.mk 400 400)
    [Body.update 0 false (Vector.mk 400 400)
       [Sample.theSun; Sample.earth; Sample.theMoon; Sample.mars] Sample.theSun;
     Sample.earth; Sample.theMoon; Sample.mars]
    Sample.earth.

(** The moon of the sample world after one tick: it moves with the launch
    body, which stands before it in the list. *)
Definition moonAfterTick : Body.t :=
  Body.update 0 false (Vector.mk 400 400)
    [Body.update 0 false (Vector.mk 400 400)
       [Sample.theSun; Sample.earth; Sample.theMoon; Sample.mars] Sample.theSun;
     earthAfterTick; Sample.theMoon; Sample.mars]
    Sample.theMoon.

(** The world a pass of the gravity loop ends with. *)
Definition exitWorld (e : LoopExit) : World :=
  match e with
  | Return w => w
  | Continue w => w
  end.

(** The time a frame adds to the accumulator: the time since the last frame,
    at most a quarter of a second. *)
Definition clampDelta (last now : R) : R :=
  let last := if Req_dec_T last 0 then now else last in
  let delta := now - last in
  if Rlt_dec (1 / 4) delta then 1 / 4 else delta.

(** What every frame does first, paused or not. *)
Definition accumulate (now : R) (w : World) : World :=
  set_accumulator (accumulator (gameData w)
                   + clampDelta (lastTimestamp (gameData w)) now)
                  (set_lastTimestamp now w).

(** One pass of the [while] loop of [loop]. *)
Definition oneStep (rng : nat -> R) (w : World) : World :=
  let w := physicsStep rng w in
  set_accumulator (accumulator (gameData w) - step) w.

(** The example of the specification: the launch body moves at [(2, 0)] and
    the player aims to the right from a distance of 900/7, which gives an
    impulse of [(3, 0)]; the launch velocity is [(5, 0)]. *)
Definition worldDrifting : World :=
  set_mouse (Vector.mk (576 + 900 / 7) 400)
    (set_bodies [Sample.theSun; Body.set_vel (Vector.mk 2 0) Sample.earth;
                 Sample.theMoon; Sample.mars]
                Sample.world).

(** From [w] to [w'] mode and coins have not changed, or the run has ended:
    the rocket is destroyed and the coins have grown by the reward of some
    outcome, computed from the closest approach on record. *)
Definition stepOutcome (w w' : World) : Prop :=
  (mode (gameState w') = mode (gameState w)
   /\ coins (gameState w') = coins (gameState w))
  \/ (mode (gameState w') = ENDED
      /\ rocket (physics w') = None
      /\ exists success reason,
           coins (gameState w')
           = (coins (gameState w)
              + reward success reason (closestDist (gameState w')))%Z).

(* ================================================================== *)
(** * 6b. Levels, reset, resize and start-up *)
(* ================================================================== *)

(** One entry of [LEVELS_DATA.levels]. *)
Record LevelConfig : Type := mkLevelConfig {
  lv_id : Z;
  lv_name : string;
  asteroidCount : nat;
  asteroidMinSize : R;
  asteroidMaxSize : R
}.

(** [LEVELS_DATA.levels]. *)
Definition LEVELS_DATA_levels : list LevelConfig :=
  [ mkLevelConfig 1 "Level 1" 3 15 25;
    mkLevelConfig 2 "Level 2" 8 15 30;
    mkLevelConfig 3 "Level 3" 14 18 28;
    mkLevelConfig 4 "Level 4" 20 20 32 ].

(** [LEVELS_DATA.levels[level - 1]]; [None] is JavaScript's [undefined]. *)
Definition levelConfigOf (level : Z) : option LevelConfig :=
  if (level <? 1)%Z then None
  else nth_error LEVELS_DATA_levels (Z.to_nat (level - 1)).

(** A function that can throw: the world at its return, or the world at the
    throw.  Nothing in the source catches what [createSolarSystem] throws, so
    the event handler (or [init]) that called it stops there. *)
Inductive Result : Type :=
| Done (w : World)
| Thrown (w : World).

Definition worldOf (r : Result) : World :=
  match r with
  | Done w => w
  | Thrown w => w
  end.

(** The [action] argument of [resetGame]. *)
Module Action.
Inductive t : Type := reset | next | stay.
End Action.

(** Assignments to fields that only the set-up code writes. *)
Definition set_level (l : Z) (w : World) : World :=
  let g := gameState w in
  set_gameState (mkGameState (mode g) l (coins g) (closestDist g)
                   (isThrusting g) (shakeStrength g) (isPaused g)) w.
Definition set_width (x : R) (w : World) : World :=
  let g := gameData w in
  set_gameData (mkGameData x (height g) (cx g) (cy g) (scaleFactor g)
                  (frameCount g) (lastTimestamp g) (accumulator g)) w.
Definition set_height (x : R) (w : World) : World :=
  let g := gameData w in
  set_gameData (mkGameData (width g) x (cx g) (cy g) (scaleFactor g)
                  (frameCount g) (lastTimestamp g) (accumulator g)) w.
Definition set_cx (x : R) (w : World) : World :=
  let g := gameData w in
  set_gameData (mkGameData (width g) (height g) x (cy g) (scaleFactor g)
                  (frameCount g) (lastTimestamp g) (accumulator g)) w.
Definition set_cy (x : R) (w : World) : World :=
  let g := gameData w in
  set_gameData (mkGameData (width g) (height g) (cx g) x (scaleFactor g)
                  (frameCount g) (lastTimestamp g) (accumulator g)) w.
Definition set_scaleFactor (x : R) (w : World) : World :=
  let g := gameData w in
  set_gameData (mkGameData (width g) (height g) (cx g) (cy g) x
                  (frameCount g) (lastTimestamp g) (accumulator g)) w.

Definition set_orbitCenter (c : option Vector.t) (b : Body.t) : Body.t :=
  Body.mk (Body.pos b) (Body.vel b) (Body.acc b) (Body.mass b) (Body.radius b)
    (Body.color b) (Body.isStatic b) (Body.type b) (Body.trail b) c
    (Body.parentBody b) (Body.orbitRadius b) (Body.orbitAngle b)
    (Body.orbitSpeed b) (Body.startPos b) (Body.oscillate b)
    (Body.oscillateSpeed b) (Body.oscillateDist b) (Body.timeOffset b)
    (Body.fuel b) (Body.angle b) (Body.age b) (Body.shapeVertices b).
Definition set_parentBody (p : option nat) (b : Body.t) : Body.t :=
  Body.mk (Body.pos b) (Body.vel b) (Body.acc b) (Body.mass b) (Body.radius b)
    (Body.color b) (Body.isStatic b) (Body.type b) (Body.trail b)
    (Body.orbitCenter b) p (Body.orbitRadius b) (Body.orbitAngle b)
    (Body.orbitSpeed b) (Body.startPos b) (Body.oscillate b)
    (Body.oscillateSpeed b) (Body.oscillateDist b) (Body.timeOffset b)
    (Body.fuel b) (Body.angle b) (Body.age b) (Body.shapeVertices b).
Definition set_orbitRadius (r : R) (b : Body.t) : Body.t :=
  Body.mk (Body.pos b) (Body.vel b) (Body.acc b) (Body.mass b) (Body.radius b)
    (Body.color b) (Body.isStatic b) (Body.type b) (Body.trail b)
    (Body.orbitCenter b) (Body.parentBody b) r (Body.orbitAngle b)
    (Body.orbitSpeed b) (Body.startPos b) (Body.oscillate b)
    (Body.oscillateSpeed b) (Body.oscillateDist b) (Body.timeOffset b)
    (Body.fuel b) (Body.angle b) (Body.age b) (Body.shapeVertices b).
Definition set_orbitSpeed (s : R) (b : Body.t) : Body.t :=
  Body.mk (Body.pos b) (Body.vel b) (Body.acc b) (Body.mass b) (Body.radius b)
    (Body.color b) (Body.isStatic b) (Body.type b) (Body.trail b)
    (Body.orbitCenter b) (Body.parentBody b) (Body.orbitRadius b)
    (Body.orbitAngle b) s (Body.startPos b) (Body.oscillate b)
    (Body.oscillateSpeed b) (Body.oscillateDist b) (Body.timeOffset b)
    (Body.fuel b) (Body.angle b) (Body.age b) (Body.shapeVertices b).

(** [physics.bodies.push(b)]. *)
Definition push (b : Body.t) (w : World) : World :=
  set_bodies (bodies (physics w) ++ [b]) w.

Section Setup.

Variable rng : nat -> R.

(** The loop of [initStars]; the four fields of a star take four random
    numbers, in the order of the object literal. *)
Fixpoint starsInit (n : nat) (w : World) : World :=
  match n with
  | O => w
  | S n' =>
      let (qx, w) := random rng w in
      let (qy, w) := random rng w in
      let (qs, w) := random rng w in
      let (qa, w) := random rng w in
      let s := mkStar (qx * width (gameData w)) (qy * height (gameData w))
                      (qs * (15 / 10)) (qa * (8 / 10) + 2 / 10) in
      starsInit n' (set_stars (stars (physics w) ++ [s]) w)
  end.

(** [initStars()]. *)
Definition initStars (w : World) : World :=
  starsInit 150 (set_stars [] w).

(** One pass of [for (let i = 0; i < 12; i++)]: the rock number [i] of
    Saturn's ring; [saturn] is the place of Saturn in [physics.bodies]. *)
Definition ringRock (i saturn : nat) (w : World) : Body.t * World :=
  let s := scaleFactor (gameData w) in
  let (ring, w) := newBody rng 0 0 5 2 "#8d6e63" false BodyType.obstacle w in
  let ring := set_parentBody (Some saturn) ring in
  let (q, w) := random rng w in
  let ring := set_orbitRadius (30 * s + q * (10 * s)) ring in
  let ring := Body.set_orbitAngle (INR i / 12 * PI * 2) ring in
  let (q, w) := random rng w in
  let ring := set_orbitSpeed (5 / 100 + q * (2 / 100)) ring in
  (ring, w).

(** The loop itself; [count] is the number of passes left. *)
Fixpoint ringLoop (count i saturn : nat) (w : World) : World :=
  match count with
  | O => w
  | S count' =>
      let (ring, w) := ringRock i saturn w in
      ringLoop count' (S i) saturn (push ring w)
  end.

(** One pass of [for (let i = 0; i < astCount; i++)]: an asteroid of the
    level. *)
Definition asteroid (minS maxS zStart zEnd : R) (w : World) : Body.t * World :=
  let g := gameData w in
  let (q, w) := random rng w in
  let sz := minS + q * (maxS - minS) in
  let (a, w) := newBody rng 0 0 20 sz "#777" false BodyType.obstacle w in
  let a := set_orbitCenter (Some (Vector.mk (cx g) (cy g))) a in
  let (q, w) := random rng w in
  let a := set_orbitRadius (zStart + q * (zEnd - zStart)) a in
  let (q, w) := random rng w in
  let a := Body.set_orbitAngle (q * PI * 2) a in
  let (q, w) := random rng w in
  let spd := 2 / 1000 + q * (4 / 1000) in
  let (q, w) := random rng w in
  let a := set_orbitSpeed (if Rlt_dec (1 / 2) q then spd else - spd) a in
  (a, w).

Fixpoint asteroidLoop (count : nat) (minS maxS zStart zEnd : R) (w : World)
  : World :=
  match count with
  | O => w
  | S count' =>
      let (a, w) := asteroid minS maxS zStart zEnd w in
      asteroidLoop count' minS maxS zStart zEnd (push a w)
  end.

(** [createSolarSystem()].  A level without an entry in
    [LEVELS_DATA.levels] makes [levelConfig.asteroidCount] throw, after the
    sun, the planets and the ring are in place. *)
Definition createSolarSystem (w : World) : Result :=
  let w := set_bodies [] w in
  let g := gameData w in
  let s := scaleFactor g in
  let minDim := Rmin (width g) (height g) in
  let (sun, w) := newBody rng (cx g) (cy g) GameConfig.SUN_MASS 30 "#ffd700"
                          true BodyType.sun w in
  let w := push sun w in
  let r1 := minDim * (22 / 100) in
  let (earth, w) := newBody rng (cx g + r1) (cy g) GameConfig.EARTH_MASS 10
                            "#4facfe" false BodyType.target_start w in
  let earth := set_orbitCenter (Some (Vector.mk (cx g) (cy g))) earth in
  let earth := set_orbitRadius r1 earth in
  let earth := Body.set_orbitAngle 0 earth in
  let earth := set_orbitSpeed (5 / 1000) earth in
  let earthAt := List.length (bodies (physics w)) in
  let w := push earth w in
  let moonDist := 25 * s in
  let (moon, w) := newBody rng (cx g + r1 + moonDist) (cy g)
                           GameConfig.MOON_MASS 3 "#ccc" false BodyType.moon w in
  let moon := set_parentBody (Some earthAt) moon in
  let moon := set_orbitRadius moonDist moon in
  let moon := set_orbitSpeed (8 / 100) moon in
  let w := push moon w in
  let r2 := minDim * (35 / 100) in
  let (mars, w) := newBody rng (cx g) (cy g) GameConfig.MARS_MASS 9 "#ff5e62"
                           false BodyType.target_end w in
  let mars := set_orbitCenter (Some (Vector.mk (cx g) (cy g))) mars in
  let mars := set_orbitRadius r2 mars in
  let mars := Body.set_orbitAngle PI mars in
  let mars := set_orbitSpeed (3 / 1000) mars in
  let w := push mars w in
  let rSaturn := minDim * (48 / 100) in
  let (saturn, w) := newBody rng (cx g) (cy g) GameConfig.SATURN_MASS 18
                             "#f4d03f" false BodyType.saturn w in
  let saturn := set_orbitCenter (Some (Vector.mk (cx g) (cy g))) saturn in
  let saturn := set_orbitRadius rSaturn saturn in
  let saturn := Body.set_orbitAngle (PI / 2) saturn in
  let saturn := set_orbitSpeed (1 / 1000) saturn in
  let saturnAt := List.length (bodies (physics w)) in
  let w := push saturn w in
  let w := ringLoop 12 0 saturnAt w in
  match levelConfigOf (level (gameState w)) with
  | None => Thrown w
  | Some levelConfig =>
      let astCount := asteroidCount levelConfig in
      let minS := asteroidMinSize levelConfig * s in
      let maxS := asteroidMaxSize levelConfig * s in
      let zStart := r1 + 30 * s in
      let zEnd := r2 - 30 * s in
      Done (asteroidLoop astCount minS maxS zStart zEnd w)
  end.

(** [resetGame(action)]; [now] is [performance.now() / 1000] at the call. *)
Definition resetGame (action : Action.t) (now : R) (w : World) : Result :=
  let w :=
    match action with
    | Action.reset => set_ghostTrail [] (set_level 1 w)
    | Action.next =>
        let w := set_level (level (gameState w) + 1) w in
        let w := set_ghostTrail [] w in
        if (4 <? level (gameState w))%Z then set_level 1 w else w
    | Action.stay => w
    end in
  let w := set_mode IDLE w in
  let w := set_isPaused false w in
  let w := set_ui (mkUI false (msgTitle (ui w)) (msgSuccess (ui w))) w in
  let w := set_rocket None w in
  let w := set_closestDist Infinity w in
  match createSolarSystem w with
  | Thrown w => Thrown w
  | Done w => Done (set_accumulator 0 (set_lastTimestamp now w))
  end.

(** [changeLevel(val)], for a [val] that [parseInt] reads as the integer
    [v]. *)
Definition changeLevel (v : Z) (now : R) (w : World) : Result :=
  resetGame Action.stay now (set_level v w).

(** [resize()]; [innerWidth] and [innerHeight] are the size of the
    window. *)
Definition resize (innerWidth innerHeight now : R) (w : World) : Result :=
  let w := set_width innerWidth w in
  let w := set_height innerHeight w in
  let w := set_cx (width (gameData w) / 2) w in
  let w := set_cy (height (gameData w) / 2) w in
  let w := set_scaleFactor
             (Rmin (width (gameData w)) (height (gameData w)) / 800) w in
  let w := if Rlt_dec (12 / 10) (scaleFactor (gameData w))
           then set_scaleFactor (12 / 10) w else w in
  let w := if Rlt_dec (scaleFactor (gameData w)) (6 / 10)
           then set_scaleFactor (6 / 10) w else w in
  let w := set_mouse (Vector.mk (cx (gameData w)) (cy (gameData w))) w in
  let w := initStars w in
  match mode (gameState w) with
  | IDLE => resetGame Action.stay now w
  | _ => Done w
  end.

(** [init()]: the upgrades, the first [resize] (at the time [t0]), a second
    [createSolarSystem] and the first frame (at the time [t1]). *)
Definition init (innerWidth innerHeight t0 t1 : R) (w : World) : Result :=
  let w := UpgradeSystem.init w in
  match resize innerWidth innerHeight t0 w with
  | Thrown w => Thrown w
  | Done w =>
      match createSolarSystem w with
      | Thrown w => Thrown w
      | Done w => Done (loop rng t1 w)
      end
  end.

End Setup.

(** The globals as the script declares them, before [init] runs.  The
    pointer starts in the middle of the window; [UpgradeSystem.upgrades]
    is an empty object until [UpgradeSystem.init] fills it. *)
Definition initialWorld (innerWidth innerHeight : R) : World :=
  mkWorld (mkGameData 0 0 0 0 1 0 0 0)
          (mkGameState IDLE 1 0 Infinity false 0 false)
          (mkPhysics [] None [] [] [] [])
          (mkUpgrades (mkUpgrade 0 0 "" 0 0) (mkUpgrade 0 0 "" 0 0)
                      (mkUpgrade 0 0 "" 0 0))
          (Vector.mk (innerWidth / 2) (innerHeight / 2))
          (mkUI false "" false)
          0.

(* ================================================================== *)
(** * 6c. Notions used in the further properties *)
(* ================================================================== *)

(** A run of clicks on the buy buttons of the store. *)
Fixpoint buys (ks : list UpgradeKey) (w : World) : World :=
  match ks with
  | [] => w
  | k :: rest => buys rest (buyUpgrade k w)
  end.

(** The entry of [LEVELS_DATA.upgrades] under a key. *)
Definition configOf (k : UpgradeKey) : UpgradeConfig :=
  match k with
  | Kfuel => LEVELS_DATA.fuel
  | Kthrust => LEVELS_DATA.thrust
  | Klaunch => LEVELS_DATA.launch
  end.

(** The cost of the next level after [n] purchases. *)
Fixpoint costAt (c : UpgradeConfig) (n : nat) : Z :=
  match n with
  | O => baseCost c
  | S n' => Zfloor (IZR (costAt c n') * costMultiplier c)
  end.

(** The sum of the costs of the first [n] purchases. *)
Fixpoint paid (c : UpgradeConfig) (n : nat) : Z :=
  match n with
  | O => 0%Z
  | S n' => (paid c n' + costAt c n')%Z
  end.

(** The number of purchases a level stands for: levels start at 1. *)
Definition purchases (k : UpgradeKey) (w : World) : nat :=
  Z.to_nat (u_level (UpgradeSystem.get k (upgrades w)) - 1).

(** What the levels of [w] have cost together. *)
Definition spent (w : World) : Z :=
  (paid (configOf Kfuel) (purchases Kfuel w)
   + paid (configOf Kthrust) (purchases Kthrust w)
   + paid (configOf Klaunch) (purchases Klaunch w))%Z.

(** What holds of the store after any run of purchases that started with
    [c0] coins. *)
Definition storeInv (c0 : Z) (w : World) : Prop :=
  (forall k,
     let u := UpgradeSystem.get k (upgrades w) in
     (1 <= u_level u <= 5)%Z
     /\ u_max u = 5%Z
     /\ u_costMultiplier u = 3 / 2
     /\ u_cost u = costAt (configOf k) (purchases k w))
  /\ coins (gameState w) = (c0 - spent w)%Z
  /\ ((0 <= c0)%Z -> (0 <= coins (gameState w))%Z).

Definition UpgradeKey_eq_dec (a b : UpgradeKey) : {a = b} + {a <> b}.
Proof. decide equality. Defined.

(** [Math.random()] returns a number that is at least 0 and less than 1. *)
Definition unitRange (rng : nat -> R) : Prop := forall n, 0 <= rng n < 1.

(** The number of corners of the polygon of an obstacle, from the random
    number [q]: [6 + Math.floor(q * 4)]. *)
Definition numPointsOf (q : R) : nat := Z.to_nat (6 + Zfloor (q * 4)).

(** The fields the constructor of [Body] sets from its arguments, at the
    scale [s]; an orbit comes later, if at all. *)
Definition constructed (x y mass radius s : R) (color : string)
                       (isStatic : bool) (type : BodyType.t) (b : Body.t)
  : Prop :=
  Body.pos b = Vector.mk x y
  /\ Body.startPos b = Vector.mk x y
  /\ Body.vel b = Vector.mk 0 0
  /\ Body.acc b = Vector.mk 0 0
  /\ Body.mass b = mass
  /\ Body.radius b = radius * s
  /\ Body.color b = color
  /\ Body.isStatic b = isStatic
  /\ Body.type b = type
  /\ Body.trail b = []
  /\ Body.oscillate b = false
  /\ Body.fuel b = 0
  /\ Body.age b = 0%nat.

(** The corner [v] of a polygon lies between 0.7 and 1.3 times [radius]
    from the centre. *)
Definition cornerOf (radius : R) (v : Vector.t) : Prop :=
  7 / 10 * radius <= Vector.mag v <= 13 / 10 * radius.

(** A body of a type other than ['obstacle'] as the constructor returns it
    at the scale [s]; [q] is the random number drawn for the orbit angle. *)
Definition plainBody (x y mass radius : R) (color : string) (isStatic : bool)
                     (type : BodyType.t) (s q : R) : Body.t :=
  Body.mk (Vector.mk x y) (Vector.mk 0 0) (Vector.mk 0 0) mass (radius * s)
          color isStatic type [] None None 0 (q * PI * 2) 0 (Vector.mk x y)
          false 0 0 0 0 0 0 [].

(** The sun and the planets [createSolarSystem] builds in the world [w], in
    the order in which it pushes them. *)
Definition sunOf (rng : nat -> R) (w : World) : Body.t :=
  let g := gameData w in
  plainBody (cx g) (cy g) GameConfig.SUN_MASS 30 "#ffd700" true BodyType.sun
            (scaleFactor g) (rng (rngPos w)).

Definition earthOf (rng : nat -> R) (w : World) : Body.t :=
  let g := gameData w in
  let r1 := Rmin (width g) (height g) * (22 / 100) in
  set_orbitSpeed (5 / 1000)
    (Body.set_orbitAngle 0
       (set_orbitRadius r1
          (set_orbitCenter (Some (Vector.mk (cx g) (cy g)))
             (plainBody (cx g + r1) (cy g) GameConfig.EARTH_MASS 10 "#4facfe"
                        false BodyType.target_start (scaleFactor g)
                        (rng (1 + rngPos w)%nat))))).

Definition moonOf (rng : nat -> R) (w : World) : Body.t :=
  let g := gameData w in
  let r1 := Rmin (width g) (height g) * (22 / 100) in
  let moonDist := 25 * scaleFactor g in
  set_orbitSpeed (8 / 100)
    (set_orbitRadius moonDist
       (set_parentBody (Some 1%nat)
          (plainBody (cx g + r1 + moonDist) (cy g) GameConfig.MOON_MASS 3
                     "#ccc" false BodyType.moon (scaleFactor g)
                     (rng (2 + rngPos w)%nat)))).

Definition marsOf (rng : nat -> R) (w : World) : Body.t :=
  let g := gameData w in
  set_orbitSpeed (3 / 1000)
    (Body.set_orbitAngle PI
       (set_orbitRadius (Rmin (width g) (height g) * (35 / 100))
          (set_orbitCenter (Some (Vector.mk (cx g) (cy g)))
             (plainBody (cx g) (cy g) GameConfig.MARS_MASS 9 "#ff5e62" false
                        BodyType.target_end (scaleFactor g)
                        (rng (3 + rngPos w)%nat))))).

Definition saturnOf (rng : nat -> R) (w : World) : Body.t :=
  let g := gameData w in
  set_orbitSpeed (1 / 1000)
    (Body.set_orbitAngle (PI / 2)
       (set_orbitRadius (Rmin (width g) (height g) * (48 / 100))
          (set_orbitCenter (Some (Vector.mk (cx g) (cy g)))
             (plainBody (cx g) (cy g) GameConfig.SATURN_MASS 18 "#f4d03f"
                        false BodyType.saturn (scaleFactor g)
                        (rng (4 + rngPos w)%nat))))).

Definition planets (rng : nat -> R) (w : World) : list Body.t :=
  [sunOf rng w; earthOf rng w; moonOf rng w; marsOf rng w; saturnOf rng w].

(** The inner and the outer edge of the asteroid belt. *)
Definition zoneStart (g : GameData) : R :=
  Rmin (width g) (height g) * (22 / 100) + 30 * scaleFactor g.
Definition zoneEnd (g : GameData) : R :=
  Rmin (width g) (height g) * (35 / 100) - 30 * scaleFactor g.

(** The types of the bodies of a level with [n] asteroids, in the order of
    [physics.bodies]. *)
Definition systemTypes (n : nat) : list BodyType.t :=
  [BodyType.sun; BodyType.target_start; BodyType.moon; BodyType.target_end;
   BodyType.saturn] ++ repeat BodyType.obstacle (12 + n).

(** Every parent stands before its child in the list. *)
Definition parentsEarlier (bs : list Body.t) : Prop :=
  forall i b j,
    nth_error bs i = Some b -> Body.parentBody b = Some j -> (j < i)%nat.

(** A body that [update()] never moves by its velocity: it is static, or it
    circles a fixed point or a parent. *)
Definition onRails (b : Body.t) : Prop :=
  Body.isStatic b = true
  \/ Body.orbitCenter b <> None
  \/ Body.parentBody b <> None.

(** What [createSolarSystem] says of the rock number [i] of the ring, at
    the scale [s]; the ranges hold for random numbers in the unit range. *)
Definition ringRockAt (s : R) (saturn i : nat) (b : Body.t) : Prop :=
  constructed 0 0 5 2 s "#8d6e63" false BodyType.obstacle b
  /\ Body.orbitCenter b = None
  /\ Body.parentBody b = Some saturn
  /\ Body.orbitAngle b = INR i / 12 * PI * 2.

Definition ringRockRange (s : R) (b : Body.t) : Prop :=
  30 * s <= Body.orbitRadius b <= 40 * s
  /\ 5 / 100 <= Body.orbitSpeed b <= 7 / 100
  /\ (6 <= List.length (Body.shapeVertices b) <= 9)%nat
  /\ Forall (cornerOf (Body.radius b)) (Body.shapeVertices b).

(** The same for an asteroid of the level [c], in the world with the
    globals [g]. *)
Definition asteroidAt (g : GameData) (b : Body.t) : Prop :=
  Body.pos b = Vector.mk 0 0
  /\ Body.mass b = 20
  /\ Body.type b = BodyType.obstacle
  /\ Body.isStatic b = false
  /\ Body.oscillate b = false
  /\ Body.orbitCenter b = Some (Vector.mk (cx g) (cy g))
  /\ Body.parentBody b = None.

Definition asteroidRange (c : LevelConfig) (g : GameData) (b : Body.t) : Prop :=
  let s := scaleFactor g in
  asteroidMinSize c * s * s <= Body.radius b <= asteroidMaxSize c * s * s
  /\ Rmin (zoneStart g) (zoneEnd g) <= Body.orbitRadius b
     <= Rmax (zoneStart g) (zoneEnd g)
  /\ 0 <= Body.orbitAngle b <= 2 * PI
  /\ 2 / 1000 <= Rabs (Body.orbitSpeed b) <= 6 / 1000
  /\ (6 <= List.length (Body.shapeVertices b) <= 9)%nat
  /\ Forall (cornerOf (Body.radius b)) (Body.shapeVertices b).

(** Nothing but [physics.bodies] and the position of the random oracle
    differs between [w] and [w']. *)
Definition rebuilt (w w' : World) : Prop :=
  exists bs n, w' = set_rngPos n (set_bodies bs w).

(** A star inside the canvas of the size [g] records, with a size of at
    most 1.5 and an opacity from 0.2 to 1. *)
Definition starIn (g : GameData) (s : Star) : Prop :=
  0 <= star_x s <= width g
  /\ 0 <= star_y s <= height g
  /\ 0 <= star_size s <= 15 / 10
  /\ 2 / 10 <= star_alpha s <= 1.

(** Where a star is drawn and how large. *)
Definition starPlace (s : Star) : R * R * R :=
  (star_x s, star_y s, star_size s).

(** The scale factor [resize] computes for a window: a 800th of its
    smaller side, kept between 0.6 and 1.2. *)
Definition scaleFor (innerWidth innerHeight : R) : R :=
  Rmax (6 / 10) (Rmin (12 / 10) (Rmin innerWidth innerHeight / 800)).

(** The level after [resetGame(action)], for a level from 1 to 4: ['next']
    goes round from 4 to 1. *)
Definition levelAfter (action : Action.t) (l : Z) : Z :=
  match action with
  | Action.reset => 1%Z
  | Action.next => (l mod 4 + 1)%Z
  | Action.stay => l
  end.

(** The number of bodies of a level: the sun, four planets, twelve rocks
    and the asteroids. *)
Definition bodyCount (l : Z) : nat :=
  (17 + nth (Z.to_nat (l - 1)) [3; 8; 14; 20] 0)%nat.

(** The world in which [resetGame(action)] calls [createSolarSystem], when
    the level is one of 1 to 4. *)
Definition resetWorld (action : Action.t) (w : World) : World :=
  mkWorld (gameData w)
          (mkGameState IDLE (levelAfter action (level (gameState w)))
                       (coins (gameState w)) Infinity
                       (isThrusting (gameState w))
                       (shakeStrength (gameState w)) false)
          (mkPhysics (bodies (physics w)) None
                     match action with
                     | Action.stay => ghostTrail (physics w)
                     | _ => []
                     end
                     (particles (physics w)) (particlePool (physics w))
                     (stars (physics w)))
          (upgrades w) (mouse w)
          (mkUI false (msgTitle (ui w)) (msgSuccess (ui w)))
          (rngPos w).

(** The world after the assignments of [resize], before [initStars]. *)
Definition resized (innerWidth innerHeight : R) (w : World) : World :=
  set_mouse (Vector.mk (innerWidth / 2) (innerHeight / 2))
    (set_gameData
       (mkGameData innerWidth innerHeight (innerWidth / 2) (innerHeight / 2)
                   (scaleFor innerWidth innerHeight)
                   (frameCount (gameData w)) (lastTimestamp (gameData w))
                   (accumulator (gameData w))) w).

(** The longest trail [update()] lets a body of the type [t] keep. *)
Definition trailLimit (t : BodyType.t) : nat :=
  if BodyType.eqb t BodyType.rocket then GameConfig.ROCKET_TRAIL_LIMIT
  else GameConfig.BODY_TRAIL_LIMIT.

(** Whether [update()] records the trail of a body of the type [t]. *)
Definition leavesTrail (t : BodyType.t) : bool :=
  BodyType.eqb t BodyType.planet || BodyType.eqb t BodyType.rocket.

(** The order of the values of [gameState.closestDist]: every distance is
    below [Infinity]. *)
Definition extLe (a b : ExtR) : Prop :=
  match a, b with
  | _, Infinity => True
  | Finite x, Finite y => x <= y
  | Infinity, Finite _ => False
  end.

(** A closest approach on record is a distance, so not negative. *)
Definition extNonneg (c : ExtR) : Prop :=
  match c with
  | Finite d => 0 <= d
  | Infinity => True
  end.

(** The rocket [r'] is the rocket [r] one step later: [r] with the fuel and
    the acceleration the step gave it, moved by [update()]. *)
Definition stepped (r r' : Body.t) : Prop :=
  exists a f fc th m store,
    r' = Body.update fc th m store (Body.set_acc a (Body.set_fuel f r)).

(** The part of the world that the flight and the score live in: everything
    but the bodies, the particles, the stars and the random oracle. *)
Definition core (w : World) :=
  (gameData w, gameState w, rocket (physics w), ghostTrail (physics w),
   upgrades w, mouse w, ui w).

(** From [w] to [w'] the flight of the rocket [r] goes on: the rocket is one
    step older, and mode, coins, pause, thrust, shake, ghost trail and
    message are as they were. *)
Definition flightGoesOn (r : Body.t) (w w' : World) : Prop :=
  exists r',
    rocket (physics w') = Some r'
    /\ stepped r r'
    /\ mode (gameState w') = mode (gameState w)
    /\ coins (gameState w') = coins (gameState w)
    /\ isPaused (gameState w') = isPaused (gameState w)
    /\ isThrusting (gameState w') = isThrusting (gameState w)
    /\ shakeStrength (gameState w') = shakeStrength (gameState w)
    /\ ghostTrail (physics w') = ghostTrail (physics w)
    /\ ui w' = ui w.

(** From [w] to [w'] the flight of the rocket [r] ends: [endGame] has run
    for some outcome. *)
Definition flightEnds (r : Body.t) (w w' : World) : Prop :=
  rocket (physics w') = None
  /\ mode (gameState w') = ENDED
  /\ isPaused (gameState w') = false
  /\ isThrusting (gameState w') = false
  /\ messageShown (ui w') = true
  /\ (exists success reason,
        coins (gameState w')
        = (coins (gameState w)
           + reward success reason (closestDist (gameState w')))%Z
        /\ msgTitle (ui w') = endTitle success reason
        /\ msgSuccess (ui w') = success)
  /\ (shakeStrength (gameState w') = shakeStrength (gameState w)
      \/ shakeStrength (gameState w') = 10)
  /\ (exists r1,
        (Body.trail r1 = Body.trail r \/ stepped r r1)
        /\ ghostTrail (physics w')
           = if (0 <? List.length (Body.trail r1))%nat
             then Body.trail r1 else ghostTrail (physics w)).

(** What a physics step does to the core of the world. *)
Definition stepCases (w w' : World) : Prop :=
  gameData w' = gameData w
  /\ upgrades w' = upgrades w
  /\ mouse w' = mouse w
  /\ level (gameState w') = level (gameState w)
  /\ extLe (closestDist (gameState w')) (closestDist (gameState w))
  /\ (extNonneg (closestDist (gameState w)) ->
      extNonneg (closestDist (gameState w')))
  /\ match rocket (physics w) with
     | None =>
         gameState w' = gameState w
         /\ rocket (physics w') = None
         /\ ghostTrail (physics w') = ghostTrail (physics w)
         /\ ui w' = ui w
     | Some r => flightGoesOn r w w' \/ flightEnds r w w'
     end.

(** The rocket, if there is one, is of the type ['rocket'] and its trail
    holds at most [ROCKET_TRAIL_LIMIT] points, and so does the ghost trail. *)
Definition trailsShort (w : World) : Prop :=
  (List.length (ghostTrail (physics w)) <= GameConfig.ROCKET_TRAIL_LIMIT)%nat
  /\ forall r,
       rocket (physics w) = Some r ->
       Body.type r = BodyType.rocket
       /\ (List.length (Body.trail r) <= GameConfig.ROCKET_TRAIL_LIMIT)%nat.

(** A particle that still has some life; the others are recycled. *)
Definition alive (p : Particle.t) : bool :=
  if Rle_dec (Particle.life p) 0 then false else true.

(** A particle after [n] steps. *)
Definition aged (n : nat) (p : Particle.t) : Particle.t :=
  Nat.iter n Particle.update p.

(** The shake strength after the shake block of a frame. *)
Definition shakeAfter (s : R) : R :=
  if Rlt_dec 0 s
  then if Rlt_dec (s * (9 / 10)) (1 / 2) then 0 else s * (9 / 10)
  else s.

(** What the browser delivers to the page: an animation frame at the time
    [now], a move, a press or a release of the pointer (on an element of the
    interface or not), a click on one of the buttons (a button of the store
    is enabled or disabled), a choice in the level selector, a resize of the
    window.  A handler that reads the clock gets the time [now]. *)
Inductive Event : Type :=
| Frame (now : R)
| PointerMove (e : option Vector.t)
| PointerDown (onUI : bool) (e : option Vector.t)
| PointerUp (onUI : bool) (e : option Vector.t)
| PauseClick
| PauseRestartClick (now : R)
| RetryClick (now : R)
| NextLevelClick (now : R)
| LevelSelect (v : Z) (now : R)
| BuyClick (enabled : bool) (k : UpgradeKey)
| WindowResize (innerWidth innerHeight now : R).

(** The handlers that [InputManager.init], [UIManager.setupEventListeners],
    [UIManager.renderStore], [init] and [loop] register for these events.
    A press or a release on an element of the interface returns at once; a
    click on a disabled button of the store does nothing.  What a handler
    throws is not caught: the world stays as it is at the throw. *)
Definition handle (rng : nat -> R) (ev : Event) (w : World) : World :=
  match ev with
  | Frame now => loop rng now w
  | PointerMove e => updateMouse e w
  | PointerDown onUI e => if onUI then w else inputStart e w
  | PointerUp onUI e => if onUI then w else inputEnd rng e w
  | PauseClick => togglePause w
  | PauseRestartClick now =>
      worldOf (resetGame rng Action.stay now (togglePause w))
  | RetryClick now => worldOf (resetGame rng Action.stay now w)
  | NextLevelClick now => worldOf (resetGame rng Action.next now w)
  | LevelSelect v now => worldOf (changeLevel rng v now w)
  | BuyClick enabled k => if enabled then buyUpgrade k w else w
  | WindowResize iw ih now => worldOf (resize rng iw ih now w)
  end.

(** The world after a sequence of events. *)
Fixpoint run (rng : nat -> R) (evs : list Event) (w : World) : World :=
  match evs with
  | [] => w
  | ev :: rest => run rng rest (handle rng ev w)
  end.

(** The state of the game hangs together: there is a rocket exactly while
    the mode is ['FLYING']; an idle game has no closest approach on record,
    and one on record is a distance; a pause is a pause of a flight; the
    coins are not negative; and the trails are within their limit. *)
Definition coherent (w : World) : Prop :=
  (mode (gameState w) = FLYING <-> rocket (physics w) <> None)
  /\ (mode (gameState w) = IDLE -> closestDist (gameState w) = Infinity)
  /\ extNonneg (closestDist (gameState w))
  /\ (isPaused (gameState w) = true -> mode (gameState w) = FLYING)
  /\ (0 <= coins (gameState w))%Z
  /\ trailsShort w.

(** The same with the canvas set up: the scale factor within its range and
    the 150 stars in place. *)
Definition sound (w : World) : Prop :=
  coherent w
  /\ 6 / 10 <= scaleFactor (gameData w) <= 12 / 10
  /\ List.length (stars (physics w)) = 150%nat.

(* ================================================================== *)
(** * 7. The upgrade store *)
(* ================================================================== *)

Lemma canBuy_affordable (k : UpgradeKey) (w : World) :
  UpgradeSystem.canBuy k w = true <-> affordable k w.
Proof.
  unfold UpgradeSystem.canBuy, affordable; cbv zeta.
  rewrite andb_true_iff, Z.ltb_lt, Z.leb_le. tauto.
Qed.

Lemma get_set_same (k : UpgradeKey) (v : Upgrade) (u : Upgrades) :
  UpgradeSystem.get k (UpgradeSystem.set k v u) = v.
Proof. destruct k; reflexivity. Qed.

Lemma get_set_other (k k' : UpgradeKey) (v : Upgrade) (u : Upgrades) :
  k <> k' ->
  UpgradeSystem.get k' (UpgradeSystem.set k v u) = UpgradeSystem.get k' u.
Proof. destruct k, k'; intros H; try reflexivity; congruence. Qed.

Lemma buy_rejected (k : UpgradeKey) (w : World) :
  ~ affordable k w -> UpgradeSystem.buy k w = w.
Proof.
  intros H. unfold UpgradeSystem.buy.
  destruct (UpgradeSystem.canBuy k w) eqn:E; [|reflexivity].
  apply canBuy_affordable in E. contradiction.
Qed.

Lemma buy_accepted (k : UpgradeKey) (w : World) :
  affordable k w ->
  let u := UpgradeSystem.get k (upgrades w) in
  UpgradeSystem.buy k w =
  set_upgrades
    (UpgradeSystem.set k
       (mkUpgrade (u_level u + 1) (Zfloor (IZR (u_cost u) * u_costMultiplier u))
                  (u_name u) (u_max u) (u_costMultiplier u))
       (upgrades w))
    (set_coins (coins (gameState w) - u_cost u) w).
Proof.
  intros H u. unfold UpgradeSystem.buy.
  apply canBuy_affordable in H. rewrite H. reflexivity.
Qed.

(** C8.  [buy] goes through (the level of the track rises by one) exactly
    when the level is below the maximum and the coins cover the cost.  Then
    the coins drop by the cost, the level rises by one, the cost becomes
    [floor (cost * costMultiplier)] and the other tracks stay as they are.
    Otherwise the whole state is left as it was; [buy] is a total function,
    so no error is raised. *)
Theorem C8_buy_spec (k : UpgradeKey) (w : World) :
  let u := UpgradeSystem.get k (upgrades w) in
  let w' := UpgradeSystem.buy k w in
  let u' := UpgradeSystem.get k (upgrades w') in
  (u_level u' = u_level u + 1 <-> affordable k w)%Z
  /\ (affordable k w ->
      coins (gameState w') = (coins (gameState w) - u_cost u)%Z
      /\ u_level u' = (u_level u + 1)%Z
      /\ u_cost u' = Zfloor (IZR (u_cost u) * u_costMultiplier u)
      /\ u_max u' = u_max u
      /\ u_costMultiplier u' = u_costMultiplier u
      /\ forall k', k <> k' ->
           UpgradeSystem.get k' (upgrades w') = UpgradeSystem.get k' (upgrades w))
  /\ (~ affordable k w ->
      w' = w
      /\ coins (gameState w') = coins (gameState w)
      /\ u_level u' = u_level u
      /\ u_cost u' = u_cost u).
Proof.
  intros u w' u'. split; [|split].
  - split.
    + intros Hl.
      destruct (UpgradeSystem.canBuy k w) eqn:E.
      * now apply canBuy_affordable.
      * exfalso. subst u' w' u. unfold UpgradeSystem.buy in Hl.
        rewrite E in Hl. lia.
    + intros H. subst u' w'. rewrite (buy_accepted k w H).
      cbn. rewrite get_set_same. reflexivity.
  - intros H. subst u' w'. rewrite (buy_accepted k w H). cbn.
    rewrite get_set_same. cbn. repeat split.
    intros k' Hk. now apply get_set_other.
  - intros H. subst u' w'. rewrite (buy_rejected k w H). auto.
Qed.

Lemma Zfloor_75 : Zfloor (IZR 50 * (3 / 2)) = 75%Z.
Proof. apply Zfloor_eq. lra. Qed.

(** In the sample world the player has 100 coins and the fuel tank costs 50:
    the purchase leaves 50 coins, level 2 and the next cost 75.  A second
    purchase is then rejected and leaves the state as it is. *)
Lemma C8_buy_witness :
  let w1 := UpgradeSystem.buy Kfuel Sample.world in
  affordable Kfuel Sample.world
  /\ coins (gameState w1) = 50%Z
  /\ u_level (UpgradeSystem.get Kfuel (upgrades w1)) = 2%Z
  /\ u_cost (UpgradeSystem.get Kfuel (upgrades w1)) = 75%Z
  /\ ~ affordable Kfuel w1
  /\ UpgradeSystem.buy Kfuel w1 = w1.
Proof.
  intros w1.
  assert (H : affordable Kfuel Sample.world) by (unfold affordable; cbn; lia).
  split; [exact H|].
  destruct (C8_buy_spec Kfuel Sample.world) as (_ & Hok & _).
  destruct (Hok H) as (Hc & Hl & Hk & _).
  fold w1 in Hc, Hl, Hk.
  assert (Hc' : coins (gameState w1) = 50%Z) by (rewrite Hc; reflexivity).
  assert (Hk' : u_cost (UpgradeSystem.get Kfuel (upgrades w1)) = 75%Z)
    by (rewrite Hk; exact Zfloor_75).
  assert (Hn : ~ affordable Kfuel w1).
  { intros [_ Hle]. rewrite Hc', Hk' in Hle. lia. }
  split; [exact Hc'|]. split; [rewrite Hl; reflexivity|].
  split; [exact Hk'|]. split; [exact Hn|].
  exact (proj1 (proj2 (proj2 (C8_buy_spec Kfuel w1)) Hn)).
Defined.

(* ================================================================== *)
(** * 8. The end of a run *)
(* ================================================================== *)

(** [endGame], field by field. *)
Lemma endGame_eq success reason w :
  endGame success reason w
  = mkWorld (gameData w)
            (mkGameState ENDED (level (gameState w))
               (coins (gameState w)
                + reward success reason (closestDist (gameState w)))
               (closestDist (gameState w)) false
               (shakeStrength (gameState w)) false)
            (mkPhysics (bodies (physics w)) None (ghostAfter w)
               (particles (physics w)) (particlePool (physics w))
               (stars (physics w)))
            (upgrades w) (mouse w)
            (mkUI true (endTitle success reason) success)
            (rngPos w).
Proof.
  unfold endGame, reward, ghostAfter, endTitle. cbn.
  destruct (rocket (physics w)) as [r|]; [destruct (Body.trail r)|];
    destruct success; try reflexivity; destruct reason; reflexivity.
Qed.

Lemma endGame_mode success reason w :
  mode (gameState (endGame success reason w)) = ENDED.
Proof. now rewrite endGame_eq. Qed.

Lemma endGame_rocket success reason w :
  rocket (physics (endGame success reason w)) = None.
Proof. now rewrite endGame_eq. Qed.

Lemma endGame_coins success reason w :
  coins (gameState (endGame success reason w))
  = (coins (gameState w) + reward success reason (closestDist (gameState w)))%Z.
Proof. now rewrite endGame_eq. Qed.


(** The examples of the specification: a closest approach of 40 earns 30
    coins, one of 200 earns none, and a crash at a closest approach of 5
    earns none. *)
Example reward_lost_40 : reward false lost_space (Finite 40) = 30%Z.
Proof.
  unfold reward, distanceScore, GameConfig.MAX_DISTANCE_SCORE.
  replace (Zfloor (40 / 2)) with 20%Z; [reflexivity|].
  symmetry. apply Zfloor_eq. lra.
Qed.

Example reward_lost_200 : reward false lost_space (Finite 200) = 0%Z.
Proof.
  unfold reward, distanceScore, GameConfig.MAX_DISTANCE_SCORE.
  replace (Zfloor (200 / 2)) with 100%Z; [reflexivity|].
  symmetry. apply Zfloor_eq. lra.
Qed.

Example reward_crashed_5 : reward false crashed (Finite 5) = 0%Z.
Proof. reflexivity. Qed.

(* ================================================================== *)
(** * 9. Vectors and the launch velocity *)
(* ================================================================== *)

Lemma mag_nonneg (v : Vector.t) : 0 <= Vector.mag v.
Proof. apply sqrt_pos. Qed.

Lemma sumsq_nonneg (a b : R) : 0 <= a * a + b * b.
Proof. nra. Qed.

Lemma mag_sqr (v : Vector.t) :
  Vector.mag v * Vector.mag v
  = Vector.x v * Vector.x v + Vector.y v * Vector.y v.
Proof. unfold Vector.mag. apply sqrt_sqrt, sumsq_nonneg. Qed.

Lemma mag_zero (v : Vector.t) :
  Vector.mag v = 0 -> v = Vector.mk 0 0.
Proof.
  intros H. destruct v as [a b]. unfold Vector.mag in H. cbn in H.
  apply sqrt_eq_0 in H; [|apply sumsq_nonneg].
  assert (a = 0) by nra. assert (b = 0) by nra. subst. reflexivity.
Qed.

Lemma mag_origin : Vector.mag (Vector.mk 0 0) = 0.
Proof.
  unfold Vector.mag. cbn. replace (0 * 0 + 0 * 0) with 0 by ring.
  apply sqrt_0.
Qed.

(** A vector of magnitude 0 is left as it is: nothing is divided by 0. *)
Lemma normalize_zero (v : Vector.t) :
  Vector.mag v = 0 -> Vector.normalize v = v.
Proof.
  intros H. unfold Vector.normalize. cbv zeta.
  destruct (Req_dec_T (Vector.mag v) 0); [reflexivity|contradiction].
Qed.

Lemma normalize_nonzero (v : Vector.t) :
  Vector.mag v <> 0 ->
  Vector.normalize v
  = Vector.mk (Vector.x v / Vector.mag v) (Vector.y v / Vector.mag v).
Proof.
  intros H. unfold Vector.normalize. cbv zeta.
  destruct (Req_dec_T (Vector.mag v) 0); [contradiction|reflexivity].
Qed.

(** Scaling a vector scales its magnitude. *)
Lemma mag_mult (v : Vector.t) (n : R) :
  Vector.mag (Vector.mult v n) = Rabs n * Vector.mag v.
Proof.
  unfold Vector.mag, Vector.mult. cbn.
  replace (Vector.x v * n * (Vector.x v * n) + Vector.y v * n * (Vector.y v * n))
    with (n * n * (Vector.x v * Vector.x v + Vector.y v * Vector.y v)) by ring.
  rewrite sqrt_mult; [|nra|apply sumsq_nonneg].
  f_equal. replace (n * n) with (Rsqr n) by reflexivity. apply sqrt_Rsqr_abs.
Qed.

(** A normalized vector of non-zero magnitude has magnitude 1. *)
Lemma mag_normalize (v : Vector.t) :
  Vector.mag v <> 0 -> Vector.mag (Vector.normalize v) = 1.
Proof.
  intros H. rewrite normalize_nonzero by exact H.
  assert (Hm : 0 < Vector.mag v) by (pose proof (mag_nonneg v); lra).
  replace (Vector.mk (Vector.x v / Vector.mag v) (Vector.y v / Vector.mag v))
    with (Vector.mult v (/ Vector.mag v)) by reflexivity.
  rewrite mag_mult, Rabs_pos_eq by (left; now apply Rinv_0_lt_compat).
  now field.
Qed.

Lemma getLaunchVector_eq (w : World) (earth : Body.t) :
  launchBody w = Some earth ->
  getLaunchVector w
  = (Vector.add (aimImpulse w earth) (Body.vel earth),
     Rmin (Vector.mag (Vector.sub (mouse w) (Body.pos earth)))
          (GameConfig.MAX_INPUT_DIST * scaleFactor (gameData w))
     / (GameConfig.MAX_INPUT_DIST * scaleFactor (gameData w))).
Proof.
  unfold launchBody, getLaunchVector. intros ->. reflexivity.
Qed.



Lemma mag_horizontal (v : Vector.t) :
  Vector.y v = 0 -> 0 <= Vector.x v -> Vector.mag v = Vector.x v.
Proof.
  intros Hy Hx. unfold Vector.mag. rewrite Hy.
  replace (Vector.x v * Vector.x v + 0 * 0) with (Rsqr (Vector.x v))
    by (unfold Rsqr; ring).
  now apply sqrt_Rsqr.
Qed.

(** The example of the specification: a launch body moving at [(2, 0)] and
    an aim-derived impulse of [(3, 0)] give the launch velocity [(5, 0)]. *)
Example launch_adds_velocity :
  aimImpulse worldDrifting (Body.set_vel (Vector.mk 2 0) Sample.earth)
  = Vector.mk 3 0
  /\ fst (getLaunchVector worldDrifting) = Vector.mk 5 0.
Proof.
  set (earth := Body.set_vel (Vector.mk 2 0) Sample.earth).
  set (aim := Vector.sub (mouse worldDrifting) (Body.pos earth)).
  assert (Hm : Vector.mag aim = 900 / 7).
  { rewrite mag_horizontal; unfold aim; cbn; lra. }
  assert (Hn : Vector.normalize aim = Vector.mk 1 0).
  { rewrite normalize_nonzero by (rewrite Hm; lra). rewrite Hm.
    unfold aim. cbn. f_equal; field. }
  assert (Hi : aimImpulse worldDrifting earth = Vector.mk 3 0).
  { unfold aimImpulse. cbv zeta. fold aim. rewrite Hn, Hm.
    unfold Vector.mult, lerp, GameConfig.MAX_INPUT_DIST. cbn.
    unfold Rmin. destruct (Rle_dec (900 / 7) (300 * 1)); [|lra].
    f_equal; field. }
  split; [exact Hi|].
  rewrite (getLaunchVector_eq worldDrifting earth eq_refl). cbn [fst].
  rewrite Hi. unfold Vector.add. cbn. f_equal; ring.
Qed.

(* ================================================================== *)
(** * 10. Launch *)
(* ================================================================== *)

Lemma launchBody_updateMouse (e : option Vector.t) (w : World) :
  launchBody (updateMouse e w) = launchBody w.
Proof. destruct e; reflexivity. Qed.

Lemma launch_eq (rng : nat -> R) (e : option Vector.t) (w : World)
                (earth : Body.t) :
  launchBody w = Some earth ->
  launch rng e w
  = set_mode FLYING
      (set_rocket (Some (launchedRocket rng e w earth))
         (set_rngPos (S (rngPos w)) (updateMouse e w))).
Proof.
  intros He. unfold launch. unfold launchBody in He. rewrite He.
  unfold launchedRocket. destruct e as [c|]; reflexivity.
Qed.

Lemma launch_no_body (rng : nat -> R) (e : option Vector.t) (w : World) :
  launchBody w = None -> launch rng e w = w.
Proof. unfold launch, launchBody. now intros ->. Qed.

(** The offset of a point from another has the magnitude of the scaled unit
    vector. *)
Lemma mag_offset (p v : Vector.t) (k : R) :
  Vector.mag v <> 0 ->
  Vector.mag (Vector.sub (Vector.add p (Vector.mult (Vector.normalize v) k)) p)
  = Rabs k.
Proof.
  intros Hv.
  replace (Vector.sub (Vector.add p (Vector.mult (Vector.normalize v) k)) p)
    with (Vector.mult (Vector.normalize v) k).
  - rewrite mag_mult, mag_normalize by exact Hv. ring.
  - unfold Vector.sub, Vector.add, Vector.mult. cbn. f_equal; ring.
Qed.

(** C9, as the code has it.  A pointer release in mode [IDLE] launches: with
    a launch body [earth] the mode becomes [FLYING] and the new rocket has the
    maximum fuel of the current upgrade level and the launch velocity [vec]
    (the aim-derived impulse plus the velocity of [earth]).  It stands at the
    position of [earth] moved along the direction of [vec] -- not along the
    aim direction -- by [earth.radius + 25 * scale], which is its distance
    from the centre of [earth] whenever [vec] is not the zero vector. *)
Theorem C9_launch (rng : nat -> R) (e : option Vector.t) (w : World)
                  (earth : Body.t) :
  mode (gameState w) = IDLE ->
  launchBody w = Some earth ->
  let w' := inputEnd rng e w in
  let vec := fst (getLaunchVector (updateMouse e w)) in
  let margin := Body.radius earth + 25 * scaleFactor (gameData w) in
  mode (gameState w') = FLYING
  /\ exists r,
       rocket (physics w') = Some r
       /\ Body.fuel r = maxFuel (UpgradeSystem.getStats w)
       /\ Body.vel r = vec
       /\ Body.age r = 0%nat
       /\ Body.pos r
          = Vector.add (Body.pos earth)
                       (Vector.mult (Vector.normalize vec) margin)
       /\ (Vector.mag vec <> 0 -> 0 <= margin ->
           Vector.mag (Vector.sub (Body.pos r) (Body.pos earth)) = margin).
Proof.
  intros Hm He w' vec margin. subst w'.
  unfold inputEnd. rewrite Hm, (launch_eq rng e w earth He).
  split; [reflexivity|].
  exists (launchedRocket rng e w earth).
  split; [reflexivity|]. split; [reflexivity|]. split; [reflexivity|].
  split; [reflexivity|]. split; [reflexivity|].
  intros Hv Hpos. unfold launchedRocket. cbn [Body.pos].
  rewrite mag_offset by exact Hv. now apply Rabs_pos_eq.
Qed.

Lemma C9_launch_witness :
  mode (gameState worldMoving) = IDLE
  /\ launchBody worldMoving = Some earthMoving
  /\ mode (gameState (inputEnd (fun _ => 0) (Some (Vector.mk 876 400))
                               worldMoving)) = FLYING.
Proof.
  split; [reflexivity|]. split; [reflexivity|].
  exact (proj1 (C9_launch (fun _ => 0) (Some (Vector.mk 876 400)) worldMoving
                          earthMoving eq_refl eq_refl)).
Defined.

Lemma normalize_y (v : Vector.t) :
  Vector.y (Vector.normalize v)
  = if Req_dec_T (Vector.mag v) 0 then Vector.y v
    else Vector.y v / Vector.mag v.
Proof.
  unfold Vector.normalize. cbv zeta.
  destruct (Req_dec_T (Vector.mag v) 0); reflexivity.
Qed.

Lemma normalize_y_zero (v : Vector.t) :
  Vector.y v = 0 -> Vector.y (Vector.normalize v) = 0.
Proof.
  intros H. rewrite normalize_y, H.
  destruct (Req_dec_T (Vector.mag v) 0); [reflexivity|].
  unfold Rdiv. ring.
Qed.

Lemma normalize_y_pos (v : Vector.t) :
  0 < Vector.y v -> 0 < Vector.y (Vector.normalize v).
Proof.
  intros H. rewrite normalize_y.
  destruct (Req_dec_T (Vector.mag v) 0) as [E|E]; [exact H|].
  pose proof (mag_nonneg v).
  apply Rdiv_lt_0_compat; lra.
Qed.

(** The launch body of the sample moves upwards and the player aims to the
    right, at full distance: the rocket starts above the horizontal line
    through the centre of the launch body, not on it. *)
Lemma C9_counterexample :
  ~ C9_as_claimed (fun _ => 0) (Some (Vector.mk 876 400)) worldMoving.
Proof.
  intros H.
  destruct (H earthMoving eq_refl eq_refl) as (_ & r & Hr & _ & Hp).
  unfold inputEnd in Hr.
  change (mode (gameState worldMoving)) with IDLE in Hr. cbv iota in Hr.
  rewrite (launch_eq (fun _ => 0) (Some (Vector.mk 876 400)) worldMoving
                     earthMoving eq_refl) in Hr.
  cbn [set_mode set_rocket set_physics set_gameState physics rocket] in Hr.
  injection Hr as Hr. subst r.
  apply (f_equal Vector.y) in Hp.
  unfold launchedRocket in Hp. cbn [Body.pos Vector.add Vector.mult Vector.y] in Hp.
  set (w1 := updateMouse (Some (Vector.mk 876 400)) worldMoving) in *.
  set (aim := Vector.sub (mouse w1) (Body.pos earthMoving)) in *.
  assert (Ha : Vector.y (Vector.normalize aim) = 0).
  { apply normalize_y_zero. unfold aim, w1. cbn. ring. }
  rewrite Ha in Hp.
  assert (Hv : 0 < Vector.y (Vector.normalize (fst (getLaunchVector w1)))).
  { apply normalize_y_pos.
    rewrite (getLaunchVector_eq w1 earthMoving eq_refl).
    unfold aimImpulse. fold aim.
    cbn [fst Vector.add Vector.mult Vector.y].
    rewrite Ha. cbn. lra. }
  assert (Hk : 0 < Body.radius earthMoving
                   + 25 * scaleFactor (gameData worldMoving)) by (cbn; lra).
  nra.
Qed.

(* ================================================================== *)
(** * 11. Normalizing a vector without magnitude *)
(* ================================================================== *)

(** On doubles, [normalize] leaves a vector as it is when its magnitude is
    zero, infinite or NaN. *)
Lemma float_normalize_guard (v : FloatVector.t) :
  PrimFloat.eqb (FloatVector.mag v) PrimFloat.zero = true
  \/ PrimFloat.is_finite (FloatVector.mag v) = false ->
  FloatVector.normalize v = v.
Proof.
  intros H. unfold FloatVector.normalize. cbv zeta.
  unfold PrimFloat.zero in H.
  destruct H as [H|H]; rewrite H; [reflexivity|].
  now rewrite andb_false_r.
Qed.

(** The zero vector; a vector with an infinite component; a vector whose
    squares overflow (2^512 squared is beyond the doubles), so that its
    magnitude is infinite although its components are finite. *)
Example float_normalize_zero :
  FloatVector.normalize (FloatVector.mk PrimFloat.zero PrimFloat.zero)
  = FloatVector.mk PrimFloat.zero PrimFloat.zero.
Proof. reflexivity. Qed.

Example float_normalize_infinite :
  FloatVector.normalize (FloatVector.mk PrimFloat.infinity PrimFloat.one)
  = FloatVector.mk PrimFloat.infinity PrimFloat.one.
Proof. reflexivity. Qed.

Example float_normalize_overflow :
  let sq := fun f => PrimFloat.mul f f in
  let big := sq (sq (sq (sq (sq (sq (sq (sq (sq PrimFloat.two)))))))) in
  PrimFloat.is_finite big = true
  /\ FloatVector.normalize (FloatVector.mk big big) = FloatVector.mk big big.
Proof. vm_compute. split; reflexivity. Qed.

Lemma add_origin_l (v : Vector.t) (k : R) :
  Vector.add (Vector.mult (Vector.mk 0 0) k) v = v.
Proof.
  destruct v as [a b]. unfold Vector.add, Vector.mult. cbn. f_equal; ring.
Qed.

Lemma sub_self (v : Vector.t) : Vector.sub v v = Vector.mk 0 0.
Proof. unfold Vector.sub. f_equal; ring. Qed.

(** C10.  [normalize] leaves a vector of magnitude zero as it is (on the
    reals and on doubles, where the same holds of an infinite or NaN
    magnitude): it never divides by zero.  So with the pointer exactly on the
    launch body the aim-derived impulse is the zero vector, the launch
    velocity is the velocity of the launch body, and this is the velocity of
    the rocket a launch at that point builds. *)
Theorem C10_normalize_zero_aim :
  (forall v : Vector.t, Vector.mag v = 0 -> Vector.normalize v = v)
  /\ (forall v : FloatVector.t,
        PrimFloat.eqb (FloatVector.mag v) PrimFloat.zero = true
        \/ PrimFloat.is_finite (FloatVector.mag v) = false ->
        FloatVector.normalize v = v)
  /\ (forall (w : World) (earth : Body.t),
        launchBody w = Some earth ->
        mouse w = Body.pos earth ->
        aimImpulse w earth = Vector.mk 0 0
        /\ fst (getLaunchVector w) = Body.vel earth)
  /\ (forall (rng : nat -> R) (w : World) (earth : Body.t),
        launchBody w = Some earth ->
        exists r,
          rocket (physics (launch rng (Some (Body.pos earth)) w)) = Some r
          /\ Body.vel r = Body.vel earth).
Proof.
  split; [exact normalize_zero|]. split; [exact float_normalize_guard|].
  assert (Hzero : forall w earth,
             launchBody w = Some earth -> mouse w = Body.pos earth ->
             aimImpulse w earth = Vector.mk 0 0
             /\ fst (getLaunchVector w) = Body.vel earth).
  { intros w earth He Hm.
    assert (Hi : aimImpulse w earth = Vector.mk 0 0).
    { unfold aimImpulse. cbv zeta. rewrite Hm, sub_self.
      rewrite (normalize_zero _ mag_origin).
      unfold Vector.mult. cbn. f_equal; ring. }
    split; [exact Hi|].
    rewrite (getLaunchVector_eq w earth He). cbn [fst]. rewrite Hi.
    destruct (Body.vel earth) as [a b]. unfold Vector.add. cbn. f_equal; ring. }
  split; [exact Hzero|].
  intros rng w earth He.
  rewrite (launch_eq rng (Some (Body.pos earth)) w earth He).
  exists (launchedRocket rng (Some (Body.pos earth)) w earth).
  split; [reflexivity|].
  unfold launchedRocket. cbn [Body.vel].
  apply (Hzero (updateMouse (Some (Body.pos earth)) w) earth).
  - now rewrite launchBody_updateMouse.
  - reflexivity.
Qed.

(** The sample world, with the pointer on the launch body. *)
Lemma C10_normalize_zero_aim_witness :
  Vector.mag (Vector.mk 0 0) = 0
  /\ Vector.normalize (Vector.mk 0 0) = Vector.mk 0 0
  /\ launchBody (set_mouse (Body.pos earthMoving) worldMoving) = Some earthMoving
  /\ fst (getLaunchVector (set_mouse (Body.pos earthMoving) worldMoving))
     = Vector.mk 0 (88 / 100).
Proof.
  destruct C10_normalize_zero_aim as (Hn & _ & Hl & _).
  split; [exact mag_origin|]. split; [exact (Hn _ mag_origin)|].
  split; [reflexivity|].
  exact (proj2 (Hl (set_mouse (Body.pos earthMoving) worldMoving) earthMoving
                   eq_refl eq_refl)).
Defined.

(* ================================================================== *)
(** * 12. Particles and explosions *)
(* ================================================================== *)

Lemma newParticle_spec rng x y color w :
  freshAt x y color (fst (newParticle rng x y color w))
  /\ frameOf (snd (newParticle rng x y color w)) = frameOf w
  /\ particles (physics (snd (newParticle rng x y color w)))
     = particles (physics w).
Proof. unfold newParticle, freshAt. cbn. repeat split. Qed.

Lemma getPooledParticle_spec rng x y color w :
  freshAt x y color (fst (getPooledParticle rng x y color w))
  /\ frameOf (snd (getPooledParticle rng x y color w)) = frameOf w
  /\ particles (physics (snd (getPooledParticle rng x y color w)))
     = particles (physics w).
Proof.
  unfold getPooledParticle.
  destruct (particlePool (physics w)) as [|p pool].
  - apply newParticle_spec.
  - destruct (newParticle_spec rng x y color
                (set_particlePool (removelast (p :: pool)) w)) as (H1 & H2 & H3).
    split; [exact H1|]. split; [rewrite H2|rewrite H3]; reflexivity.
Qed.

Lemma spawnLoop_spec rng n x y color : forall w,
  frameOf (spawnLoop rng n x y color w) = frameOf w
  /\ exists ps,
       particles (physics (spawnLoop rng n x y color w))
       = particles (physics w) ++ ps
       /\ List.length ps = n
       /\ Forall (freshAt x y color) ps.
Proof.
  induction n as [|n IH]; intros w.
  - split; [reflexivity|]. exists []. cbn. rewrite app_nil_r. auto.
  - cbn [spawnLoop].
    destruct (getPooledParticle_spec rng x y color w) as (Hp & Hf & Hps).
    destruct (getPooledParticle rng x y color w) as [p w1]. cbn [fst snd] in *.
    destruct (IH (set_particles (particles (physics w1) ++ [p]) w1))
      as (Hf' & ps & Heq & Hlen & Hall).
    split.
    + rewrite Hf'. rewrite <- Hf. reflexivity.
    + exists (p :: ps). split; [|split].
      * rewrite Heq. cbn. rewrite Hps, <- app_assoc. reflexivity.
      * cbn. now rewrite Hlen.
      * now constructor.
Qed.

(** [spawnExplosion] sets the screen shake to 10 and adds 30 particles at
    [(x, y)], in the colour given. *)
Lemma spawnExplosion_spec rng x y color w :
  frameOf (spawnExplosion rng x y color w) = frameOf (set_shakeStrength 10 w)
  /\ exists ps,
       particles (physics (spawnExplosion rng x y color w))
       = particles (physics w) ++ ps
       /\ List.length ps = 30%nat
       /\ Forall (freshAt x y color) ps.
Proof.
  unfold spawnExplosion.
  destruct (spawnLoop_spec rng 30 x y color (set_shakeStrength 10 w))
    as (Hf & ps & Heq & Hlen & Hall).
  split; [exact Hf|]. exists ps. auto.
Qed.

(** Reading the frame. *)
Lemma frameOf_inv w w' :
  frameOf w = frameOf w' ->
  gameData w = gameData w' /\ gameState w = gameState w'
  /\ bodies (physics w) = bodies (physics w')
  /\ rocket (physics w) = rocket (physics w')
  /\ ghostTrail (physics w) = ghostTrail (physics w')
  /\ upgrades w = upgrades w' /\ mouse w = mouse w' /\ ui w = ui w'.
Proof. unfold frameOf. intros H. injection H as -> -> -> -> -> _ -> -> ->. repeat split. Qed.

(* ================================================================== *)
(** * 13. Thrust, gravity and collisions *)
(* ================================================================== *)

Lemma set_rocket_same w x :
  rocket (physics w) = x -> set_rocket x w = w.
Proof.
  destruct w as [gd gs [bs r gt ps pool st] up m u n]. cbn. now intros ->.
Qed.

Lemma set_acc_fuel_same (r : Body.t) :
  Body.set_acc (Body.acc r) (Body.set_fuel (Body.fuel r) r) = r.
Proof. now destruct r. Qed.

Lemma BodyType_eqb_eq (a b : BodyType.t) :
  BodyType.eqb a b = true <-> a = b.
Proof. destruct a, b; cbn; split; intros H; congruence. Qed.

Lemma BodyType_eqb_neq (a b : BodyType.t) :
  BodyType.eqb a b = false <-> a <> b.
Proof.
  rewrite <- BodyType_eqb_eq. destruct (BodyType.eqb a b); split; congruence.
Qed.

Lemma Rmax_0_half (f : R) :
  (if Rlt_dec (f - 1 / 2) 0 then 0 else f - 1 / 2) = Rmax 0 (f - 1 / 2).
Proof.
  unfold Rmax. destruct (Rlt_dec (f - 1 / 2) 0), (Rle_dec 0 (f - 1 / 2)); lra.
Qed.

(** The thrust block changes the acceleration and the fuel of the rocket,
    may add an exhaust particle, and nothing else. *)
Lemma thrustBlock_spec rng r w :
  rocket (physics w) = Some r ->
  let w' := thrustBlock rng r w in
  (exists a,
     rocket (physics w')
     = Some (Body.set_acc a
               (Body.set_fuel (fuelAfter (isThrusting (gameState w)) (Body.fuel r)) r)))
  /\ gameData w' = gameData w /\ gameState w' = gameState w
  /\ bodies (physics w') = bodies (physics w)
  /\ ghostTrail (physics w') = ghostTrail (physics w)
  /\ upgrades w' = upgrades w /\ mouse w' = mouse w /\ ui w' = ui w.
Proof.
  intros Hr w'. subst w'. unfold thrustBlock, fuelAfter. cbv zeta.
  destruct (isThrusting (gameState w) && (if Rlt_dec 0 (Body.fuel r) then true else false)).
  - match goal with
    | |- context [set_rocket (Some ?b) w] => set (r3 := b)
    end.
    assert (H3 : exists a, r3 = Body.set_acc a (Body.set_fuel (Rmax 0 (Body.fuel r - 1 / 2)) r)).
    { eexists. unfold r3. cbn [Body.fuel Body.applyForce Body.set_acc Body.set_fuel].
      rewrite <- Rmax_0_half.
      destruct (Rlt_dec (Body.fuel r - 1 / 2) 0); reflexivity. }
    destruct H3 as [a Ha].
    destruct (frameCount (gameData (set_rocket (Some r3) w)) mod 3 =? 0)%nat.
    + destruct (getPooledParticle_spec rng (Vector.x (Body.pos r3))
                  (Vector.y (Body.pos r3)) "#ffaa00" (set_rocket (Some r3) w))
        as (_ & Hf & _).
      destruct (getPooledParticle rng _ _ _ _) as [p w1]. cbn [snd] in Hf.
      apply frameOf_inv in Hf.
      destruct Hf as (H1 & H2 & H3 & H4 & H5 & H6 & H7 & H8).
      split; [exists a; cbn; rewrite H4; cbn; now rewrite Ha|].
      cbn. rewrite H1, H2, H3, H5, H6, H7, H8. repeat split.
    + split; [exists a; cbn; now rewrite Ha|]. repeat split.
  - split; [|repeat split].
    exists (Body.acc r). now rewrite set_acc_fuel_same.
Qed.

Lemma collisionDist_gameData body w w' :
  gameData w' = gameData w -> collisionDist body w' = collisionDist body w.
Proof. unfold collisionDist. now intros ->. Qed.

(** One pass of the loop for a body that is not itself a rocket: gravity is
    added to the acceleration of the rocket, then comes the collision test. *)
Lemma gravityBody_cases rng localG body w r a f :
  rocket (physics w) = Some (Body.set_acc a (Body.set_fuel f r)) ->
  Body.type body <> BodyType.rocket ->
  exists a',
    let w2 := set_rocket (Some (Body.set_acc a' (Body.set_fuel f r))) w in
    gravityBody rng localG body w
    = if Rlt_dec (distTo body r) (collisionDist body w)
      then Return (dispatch rng body r w2)
      else Continue w2.
Proof.
  intros Hr Ht. unfold gravityBody.
  apply BodyType_eqb_neq in Ht. rewrite Ht, Hr. cbv zeta.
  eexists.
  cbn [Body.pos Body.set_acc Body.set_fuel Body.applyForce Body.age].
  unfold distTo, dispatch, collisionDist.
  cbn [gameData set_rocket set_physics].
  destruct (Rlt_dec _ _); reflexivity.
Qed.

Lemma gravityBody_rocket rng localG body w :
  Body.type body = BodyType.rocket ->
  gravityBody rng localG body w = Continue w.
Proof.
  intros Ht. unfold gravityBody. now rewrite Ht.
Qed.

(** The loop passes the bodies that miss the rocket and only adds their
    gravity to its acceleration. *)
Lemma gravityLoop_misses rng localG r f rest : forall pre w a,
  rocket (physics w) = Some (Body.set_acc a (Body.set_fuel f r)) ->
  Forall (misses w r) pre ->
  exists a',
    gravityLoop rng localG (pre ++ rest) w
    = gravityLoop rng localG rest
        (set_rocket (Some (Body.set_acc a' (Body.set_fuel f r))) w).
Proof.
  induction pre as [|b pre IH]; intros w a Hr Hall.
  - exists a. cbn. now rewrite (set_rocket_same w _ Hr).
  - inversion Hall as [|b' pre' Hb Hpre]; subst. cbn [app gravityLoop].
    destruct Hb as [Hb|Hb].
    + rewrite (gravityBody_rocket rng localG b w Hb). now apply (IH w a).
    + destruct (BodyType.eqb (Body.type b) BodyType.rocket) eqn:E.
      * apply BodyType_eqb_eq in E.
        rewrite (gravityBody_rocket rng localG b w E). now apply (IH w a).
      * apply BodyType_eqb_neq in E.
        destruct (gravityBody_cases rng localG b w r a f Hr E) as [a1 H1].
        cbv zeta in H1. rewrite H1.
        destruct (Rlt_dec (distTo b r) (collisionDist b w)) as [Hlt|_];
          [contradiction|].
        destruct (IH (set_rocket (Some (Body.set_acc a1 (Body.set_fuel f r))) w) a1)
          as [a2 H2].
        -- destruct w as [gd gs [bs r0 gt ps pool st] up m u n]. reflexivity.
        -- eapply Forall_impl; [|exact Hpre].
           intros x [Hx|Hx]; [now left|right]. exact Hx.
        -- exists a2. rewrite H2. reflexivity.
Qed.

(** The loop returns at the first body the rocket hits: the bodies after it
    are not looked at. *)
Lemma gravityLoop_hit rng localG r f pre body post w a :
  rocket (physics w) = Some (Body.set_acc a (Body.set_fuel f r)) ->
  Forall (misses w r) pre ->
  Body.type body <> BodyType.rocket ->
  hits w r body ->
  exists a',
    gravityLoop rng localG (pre ++ body :: post) w
    = Return (dispatch rng body r
                (set_rocket (Some (Body.set_acc a' (Body.set_fuel f r))) w)).
Proof.
  intros Hr Hpre Ht Hhit.
  destruct (gravityLoop_misses rng localG r f (body :: post) pre w a Hr Hpre)
    as [a1 H1].
  rewrite H1. cbn [gravityLoop].
  set (w1 := set_rocket (Some (Body.set_acc a1 (Body.set_fuel f r))) w).
  assert (Hr1 : rocket (physics w1) = Some (Body.set_acc a1 (Body.set_fuel f r))).
  { unfold w1. destruct w as [gd gs [bs r0 gt ps pool st] up m u n]. reflexivity. }
  destruct (gravityBody_cases rng localG body w1 r a1 f Hr1 Ht) as [a2 H2].
  cbv zeta in H2. rewrite H2.
  change (collisionDist body w1) with (collisionDist body w).
  destruct (Rlt_dec (distTo body r) (collisionDist body w)) as [_|Hn];
    [|contradiction].
  exists a2. reflexivity.
Qed.

(** [calculateGravity] when the rocket hits [body] and no body before it. *)
Lemma calculateGravity_hit rng w r pre body post :
  rocket (physics w) = Some r ->
  bodies (physics w) = pre ++ body :: post ->
  Forall (misses w r) pre ->
  Body.type body <> BodyType.rocket ->
  hits w r body ->
  exists a,
    calculateGravity rng w
    = dispatch rng body r
        (set_rocket (Some (inLoop w r a)) (thrustBlock rng r w)).
Proof.
  intros Hr Hb Hpre Ht Hhit. unfold calculateGravity. rewrite Hr.
  destruct (bodies (physics w)) as [|b0 bs0] eqn:Eb.
  { destruct pre; discriminate. }
  rewrite <- Eb in Hb. clear b0 bs0 Eb. cbv zeta.
  destruct (thrustBlock_spec rng r w Hr) as ([a Ha] & Hgd & Hgs & Hbs & _).
  rewrite Hbs, Hb.
  assert (Hpre' : Forall (misses (thrustBlock rng r w) r) pre).
  { eapply Forall_impl; [|exact Hpre].
    intros x [Hx|Hx]; [now left|right].
    unfold hits in *. now rewrite (collisionDist_gameData x w _ Hgd). }
  assert (Hhit' : hits (thrustBlock rng r w) r body).
  { unfold hits in *. now rewrite (collisionDist_gameData body w _ Hgd). }
  destruct (gravityLoop_hit rng (GameConfig.G_BASE * scaleFactor (gameData w))
              r _ pre body post (thrustBlock rng r w) a Ha Hpre' Ht Hhit')
    as [a' H']. 
  rewrite H'. exists a'. reflexivity.
Qed.

(** [calculateGravity] when the rocket hits no body at all. *)
Lemma calculateGravity_clear rng w r :
  rocket (physics w) = Some r ->
  bodies (physics w) <> [] ->
  Forall (misses w r) (bodies (physics w)) ->
  exists a,
    calculateGravity rng w
    = closestBlock (set_rocket (Some (inLoop w r a)) (thrustBlock rng r w)).
Proof.
  intros Hr Hne Hall. unfold calculateGravity. rewrite Hr.
  destruct (bodies (physics w)) as [|b0 bs0] eqn:Eb; [contradiction|].
  rewrite <- Eb in Hall. clear b0 bs0 Eb Hne. cbv zeta.
  destruct (thrustBlock_spec rng r w Hr) as ([a Ha] & Hgd & Hgs & Hbs & _).
  rewrite Hbs.
  assert (Hall' : Forall (misses (thrustBlock rng r w) r) (bodies (physics w))).
  { eapply Forall_impl; [|exact Hall].
    intros x [Hx|Hx]; [now left|right].
    unfold hits in *. now rewrite (collisionDist_gameData x w _ Hgd). }
  destruct (gravityLoop_misses rng (GameConfig.G_BASE * scaleFactor (gameData w))
              r _ [] (bodies (physics w)) (thrustBlock rng r w) a Ha Hall')
    as [a' H'].
  rewrite app_nil_r in H'. rewrite H'. cbn [gravityLoop].
  exists a'. reflexivity.
Qed.







(** The collision branch for a body that is not the launch body. *)
Lemma dispatch_terminal rng body r w :
  Body.type body <> BodyType.target_start ->
  dispatch rng body r w
  = if BodyType.eqb (Body.type body) BodyType.target_end
    then endGame true landed w
    else spawnExplosion rng (Vector.x (Body.pos r)) (Vector.y (Body.pos r))
                        (Body.color body) (endGame false crashed w).
Proof.
  intros Ht. unfold dispatch.
  revert Ht. destruct (Body.type body); intros Ht; cbn [BodyType.eqb];
    first [ exfalso; apply Ht; reflexivity | reflexivity ].
Qed.



(** The world after a crash with its explosion. *)
Lemma crash_outcome rng x y color w :
  let w' := spawnExplosion rng x y color (endGame false crashed w) in
  mode (gameState w') = ENDED
  /\ rocket (physics w') = None
  /\ msgSuccess (ui w') = false
  /\ msgTitle (ui w') = "CRASHED"%string
  /\ coins (gameState w') = (coins (gameState w) + 0)%Z
  /\ closestDist (gameState w') = closestDist (gameState w)
  /\ bodies (physics w') = bodies (physics w)
  /\ shakeStrength (gameState w') = 10
  /\ exists ps,
       particles (physics w') = particles (physics w) ++ ps
       /\ List.length ps = 30%nat
       /\ Forall (freshAt x y color) ps.
Proof.
  cbv zeta.
  destruct (spawnExplosion_spec rng x y color (endGame false crashed w))
    as (Hf & ps & Hps & Hlen & Hall).
  apply frameOf_inv in Hf.
  destruct Hf as (_ & H2 & H3 & H4 & _ & _ & _ & H8).
  set (we := endGame false crashed w) in *.
  rewrite H2, H3, H4, H8, Hps. unfold we. rewrite endGame_eq.
  split; [reflexivity|]. split; [reflexivity|]. split; [reflexivity|].
  split; [reflexivity|]. split; [reflexivity|]. split; [reflexivity|].
  split; [reflexivity|]. split; [reflexivity|].
  exists ps. auto.
Qed.


(** C3.  Let the launch body be the first body whose collision threshold the
    rocket [r] is within.  While [r.age <= 100] nothing happens to the game:
    mode, coins, closest approach and message stay as they are and the rocket
    lives on, at its place, with its age -- only the tick goes no further.
    From [r.age = 101] on the run ends as a crash, with the explosion. *)
Theorem C3_launch_body_grace (rng : nat -> R) (w : World) (r : Body.t)
    (pre : list Body.t) (body : Body.t) (post : list Body.t) :
  rocket (physics w) = Some r ->
  bodies (physics w) = pre ++ body :: post ->
  Forall (misses w r) pre ->
  hits w r body ->
  Body.type body = BodyType.target_start ->
  let w' := calculateGravity rng w in
  ((Body.age r <= 100)%nat ->
     gameState w' = gameState w
     /\ ui w' = ui w
     /\ bodies (physics w') = bodies (physics w)
     /\ exists r',
          rocket (physics w') = Some r'
          /\ Body.pos r' = Body.pos r
          /\ Body.vel r' = Body.vel r
          /\ Body.age r' = Body.age r
          /\ Body.fuel r' = fuelAfter (isThrusting (gameState w)) (Body.fuel r))
  /\ ((101 <= Body.age r)%nat ->
        mode (gameState w') = ENDED
        /\ rocket (physics w') = None
        /\ msgSuccess (ui w') = false
        /\ msgTitle (ui w') = "CRASHED"%string
        /\ coins (gameState w') = coins (gameState w)
        /\ shakeStrength (gameState w') = 10
        /\ exists ps,
             particles (physics w')
             = particles (physics (thrustBlock rng r w)) ++ ps
             /\ List.length ps = 30%nat
             /\ Forall (freshAt (Vector.x (Body.pos r)) (Vector.y (Body.pos r))
                                (Body.color body)) ps).
Proof.
  intros Hr Hb Hpre Hhit Hts w'.
  assert (Ht : Body.type body <> BodyType.rocket) by (rewrite Hts; discriminate).
  destruct (calculateGravity_hit rng w r pre body post Hr Hb Hpre Ht Hhit)
    as [a Hcg].
  unfold dispatch in Hcg. rewrite Hts in Hcg.
  destruct (thrustBlock_spec rng r w Hr) as (_ & _ & Hgs & Hbs & _ & _ & _ & Hui).
  set (wt := thrustBlock rng r w) in *.
  set (w2 := set_rocket (Some (inLoop w r a)) wt) in *.
  assert (Hgs2 : gameState w2 = gameState w) by exact Hgs.
  assert (Hbs2 : bodies (physics w2) = bodies (physics w)) by exact Hbs.
  assert (Hps2 : particles (physics w2) = particles (physics wt)) by reflexivity.
  assert (Hui2 : ui w2 = ui w) by exact Hui.
  subst w'. split; intros Hage.
  - replace (100 <? Body.age r)%nat with false in Hcg
      by (symmetry; apply Nat.ltb_ge; lia).
    rewrite Hcg.
    split; [exact Hgs2|]. split; [exact Hui2|]. split; [exact Hbs2|].
    exists (inLoop w r a). repeat split.
  - replace (100 <? Body.age r)%nat with true in Hcg
      by (symmetry; apply Nat.ltb_lt; lia).
    rewrite Hcg.
    destruct (crash_outcome rng (Vector.x (Body.pos r)) (Vector.y (Body.pos r))
                (Body.color body) w2)
      as (H1 & H2 & H3 & H4 & H5 & _ & _ & H8 & H9).
    rewrite Hgs2 in H5. rewrite Hps2 in H9.
    repeat (split; [assumption|]). split; [lia|]. now split.
Qed.

(** ** Collisions in the sample world *)

Lemma mag_at_least (v : Vector.t) (k : R) :
  0 <= k ->
  k * k <= Vector.x v * Vector.x v + Vector.y v * Vector.y v ->
  k <= Vector.mag v.
Proof.
  intros Hk H. unfold Vector.mag.
  rewrite <- (sqrt_square k Hk). now apply sqrt_le_1_alt.
Qed.

Lemma distTo_same (body r : Body.t) :
  Body.pos body = Body.pos r -> distTo body r = 0.
Proof.
  intros H. unfold distTo. rewrite H, sub_self. apply mag_origin.
Qed.


(** A rocket over the launch body, 50 ticks old and then 101 ticks old. *)
Lemma C3_launch_body_grace_witness :
  let young := Sample.aRocket 576 400 100 50 in
  let old := Sample.aRocket 576 400 100 101 in
  hits (Sample.flying young) young Sample.earth
  /\ mode (gameState (calculateGravity (fun _ => 0) (Sample.flying young)))
     = FLYING
  /\ mode (gameState (calculateGravity (fun _ => 0) (Sample.flying old)))
     = ENDED
  /\ msgTitle (ui (calculateGravity (fun _ => 0) (Sample.flying old)))
     = "CRASHED"%string.
Proof.
  intros young old.
  assert (Hhit : forall n, hits (Sample.flying (Sample.aRocket 576 400 100 n))
                                (Sample.aRocket 576 400 100 n) Sample.earth).
  { intros n. unfold hits. rewrite distTo_same by reflexivity.
    unfold collisionDist, GameConfig.COLLISION_PADDING. cbn. lra. }
  assert (Hpre : forall n, Forall (misses (Sample.flying (Sample.aRocket 576 400 100 n))
                                          (Sample.aRocket 576 400 100 n))
                                  [Sample.theSun]).
  { intros n. apply Forall_cons; [|apply Forall_nil].
    right. unfold hits, collisionDist,
      GameConfig.COLLISION_PADDING, distTo. cbn. apply Rle_not_lt.
    apply Rle_trans with 176; [lra|]. apply mag_at_least; cbn; lra. }
  split; [exact (Hhit 50%nat)|].
  destruct (C3_launch_body_grace (fun _ => 0) (Sample.flying young) young
              [Sample.theSun] Sample.earth [Sample.theMoon; Sample.mars]
              eq_refl eq_refl (Hpre 50%nat) (Hhit 50%nat) eq_refl) as [Hy _].
  destruct (C3_launch_body_grace (fun _ => 0) (Sample.flying old) old
              [Sample.theSun] Sample.earth [Sample.theMoon; Sample.mars]
              eq_refl eq_refl (Hpre 101%nat) (Hhit 101%nat) eq_refl) as [_ Ho].
  split.
  - destruct Hy as (Hgs & _); [cbn; lia|]. now rewrite Hgs.
  - destruct Ho as (H1 & _ & _ & H4 & _); [cbn; lia|]. now split.
Defined.

(* ================================================================== *)
(** * 14. Fuel *)
(* ================================================================== *)

Lemma spawnExplosion_rocket rng x y color w :
  rocket (physics (spawnExplosion rng x y color w)) = rocket (physics w).
Proof.
  destruct (spawnExplosion_spec rng x y color w) as [Hf _].
  apply frameOf_inv in Hf. destruct Hf as (_ & _ & _ & H & _). exact H.
Qed.

Lemma dispatch_rocket rng body r w a f :
  rocket (physics w) = Some (Body.set_acc a (Body.set_fuel f r)) ->
  rocketGoneOr r f (dispatch rng body r w).
Proof.
  intros Hr. unfold dispatch.
  assert (Hcrash : rocketGoneOr r f
            (spawnExplosion rng (Vector.x (Body.pos r)) (Vector.y (Body.pos r))
               (Body.color body) (endGame false crashed w))).
  { left. now rewrite spawnExplosion_rocket, endGame_rocket. }
  destruct (Body.type body); try exact Hcrash.
  - destruct (100 <? Body.age r)%nat; [exact Hcrash|]. right. now exists a.
  - left. apply endGame_rocket.
Qed.

Lemma gravityLoop_rocket rng localG r f : forall bs w a,
  rocket (physics w) = Some (Body.set_acc a (Body.set_fuel f r)) ->
  match gravityLoop rng localG bs w with
  | Return w' => rocketGoneOr r f w'
  | Continue w' =>
      exists a', rocket (physics w') = Some (Body.set_acc a' (Body.set_fuel f r))
  end.
Proof.
  induction bs as [|b bs IH]; intros w a Hr.
  - cbn. now exists a.
  - cbn [gravityLoop].
    destruct (BodyType.eqb (Body.type b) BodyType.rocket) eqn:E.
    + apply BodyType_eqb_eq in E.
      rewrite (gravityBody_rocket rng localG b w E). now apply (IH w a).
    + apply BodyType_eqb_neq in E.
      destruct (gravityBody_cases rng localG b w r a f Hr E) as [a1 H1].
      cbv zeta in H1. rewrite H1.
      destruct (Rlt_dec (distTo b r) (collisionDist b w)).
      * apply (dispatch_rocket rng b r _ a1 f). reflexivity.
      * apply (IH _ a1). reflexivity.
Qed.

Lemma closestBlock_rocket w :
  rocket (physics (closestBlock w)) = rocket (physics w).
Proof.
  unfold closestBlock.
  destruct (find _ _); [|reflexivity].
  destruct (rocket (physics w)) eqn:E; [|now rewrite E].
  destruct (ltClosest _ _); cbn; now rewrite E.
Qed.

(** After [calculateGravity] the rocket is gone, or it has the fuel it had
    (no bodies) or the fuel the thrust block left. *)
Lemma calculateGravity_rocket rng w r :
  rocket (physics w) = Some r ->
  (bodies (physics w) = []
   /\ rocketGoneOr r (Body.fuel r) (calculateGravity rng w))
  \/ (bodies (physics w) <> []
      /\ rocketGoneOr r (fuelAfter (isThrusting (gameState w)) (Body.fuel r))
                      (calculateGravity rng w)).
Proof.
  intros Hr. unfold calculateGravity. rewrite Hr.
  destruct (bodies (physics w)) as [|b0 bs0] eqn:Eb.
  - left. split; [reflexivity|].
    right. exists (Body.acc r). now rewrite set_acc_fuel_same.
  - right. split; [discriminate|]. cbv zeta.
    destruct (thrustBlock_spec rng r w Hr) as ([a Ha] & _).
    pose proof (gravityLoop_rocket rng
                  (GameConfig.G_BASE * scaleFactor (gameData w)) r _
                  (bodies (physics (thrustBlock rng r w)))
                  (thrustBlock rng r w) a Ha) as H.
    destruct (gravityLoop rng _ _ _) as [w1|w1]; [exact H|].
    destruct H as [a' H]. right. exists a'.
    now rewrite closestBlock_rocket.
Qed.

(** [update()] never touches the fuel. *)
Lemma update_fuel fc th m store b :
  Body.fuel (Body.update fc th m store b) = Body.fuel b.
Proof.
  unfold Body.update, Body.move. cbv zeta.
  repeat match goal with
         | |- context [match ?x with _ => _ end] => destruct x
         end; reflexivity.
Qed.

Lemma updateRocket_fuel w r :
  rocket (physics w) = Some r ->
  rocket (physics (updateRocket w)) = None
  \/ exists r', rocket (physics (updateRocket w)) = Some r'
                /\ Body.fuel r' = Body.fuel r.
Proof.
  intros Hr. unfold updateRocket. rewrite Hr. cbv zeta.
  destruct (Rlt_dec _ _).
  - left. apply endGame_rocket.
  - right. eexists. split; [reflexivity|]. apply update_fuel.
Qed.

Lemma updateRocket_none w :
  rocket (physics w) = None -> updateRocket w = w.
Proof. intros Hr. unfold updateRocket. now rewrite Hr. Qed.

Lemma updateParticles_rocket w :
  rocket (physics (updateParticles w)) = rocket (physics w).
Proof.
  unfold updateParticles. destruct (particleLoop _ _ _). reflexivity.
Qed.

Lemma physicsStep_none rng w :
  rocket (physics w) = None -> rocket (physics (physicsStep rng w)) = None.
Proof.
  intros Hr. unfold physicsStep, calculateGravity. rewrite Hr.
  rewrite updateParticles_rocket, updateRocket_none; exact Hr.
Qed.

(** The fuel after a physics step. *)
Lemma physicsStep_fuel rng w r r' :
  rocket (physics w) = Some r ->
  rocket (physics (physicsStep rng w)) = Some r' ->
  (bodies (physics w) = [] /\ Body.fuel r' = Body.fuel r)
  \/ (bodies (physics w) <> []
      /\ Body.fuel r' = fuelAfter (isThrusting (gameState w)) (Body.fuel r)).
Proof.
  intros Hr Hr'. unfold physicsStep in Hr'.
  rewrite updateParticles_rocket in Hr'.
  set (w1 := calculateGravity rng w) in *.
  assert (Hstep : forall f, rocketGoneOr r f w1 -> Body.fuel r' = f).
  { intros f [Hn|[a Ha]].
    - rewrite updateRocket_none in Hr' by exact Hn. cbn in Hr'. congruence.
    - destruct (updateRocket_fuel (updateBodies w1) _ Ha) as [Hn|(r2 & H2 & Hf)].
      + congruence.
      + rewrite H2 in Hr'. injection Hr' as <-. exact Hf. }
  destruct (calculateGravity_rocket rng w r Hr) as [[He H]|[Hne H]].
  - left. split; [exact He|]. now apply Hstep.
  - right. split; [exact Hne|]. now apply Hstep.
Qed.

Lemma fuelAfter_bounds th f :
  0 <= f -> 0 <= fuelAfter th f <= f.
Proof.
  intros Hf. unfold fuelAfter.
  destruct (th && (if Rlt_dec 0 f then true else false)); [|lra].
  unfold Rmax. destruct (Rle_dec 0 (f - 1 / 2)); lra.
Qed.

Lemma ticks_none rng l : forall w,
  rocket (physics w) = None -> rocket (physics (ticks rng l w)) = None.
Proof.
  induction l as [|i l IH]; intros w Hr; [exact Hr|].
  cbn [ticks]. apply IH. unfold tick. now apply physicsStep_none.
Qed.

(** Without fuel the thrust block does nothing: no force is applied. *)
Lemma thrustBlock_empty rng r w :
  Body.fuel r <= 0 -> thrustBlock rng r w = w.
Proof.
  intros Hf. unfold thrustBlock. cbv zeta.
  destruct (Rlt_dec 0 (Body.fuel r)); [lra|].
  now rewrite andb_false_r.
Qed.

(** C6.  Over any sequence of ticks, under any thrust and aim signals, the
    fuel of a live rocket never grows and never goes below zero.  In a
    single tick it stays as it is, or -- only with the thrust signal on and
    fuel left -- becomes [max 0 (fuel - 0.5)]; this is what happens whenever
    the thrust signal is on, fuel is left and there are bodies.  With no
    fuel left the thrust block leaves the world as it is: no force is
    applied. *)
Theorem C6_fuel_monotone (rng : nat -> R) (w : World) (r : Body.t) :
  rocket (physics w) = Some r ->
  0 <= Body.fuel r ->
  (forall i r',
      rocket (physics (tick rng i w)) = Some r' ->
      (Body.fuel r' = Body.fuel r
       \/ (in_thrust i = true /\ 0 < Body.fuel r
           /\ Body.fuel r' = Rmax 0 (Body.fuel r - 1 / 2)))
      /\ (in_thrust i = true -> 0 < Body.fuel r -> bodies (physics w) <> [] ->
          Body.fuel r' = Rmax 0 (Body.fuel r - 1 / 2))
      /\ (in_thrust i = false -> Body.fuel r' = Body.fuel r))
  /\ (forall l r',
        rocket (physics (ticks rng l w)) = Some r' ->
        0 <= Body.fuel r' <= Body.fuel r)
  /\ (Body.fuel r <= 0 -> thrustBlock rng r w = w).
Proof.
  intros Hr Hf. split; [|split].
  - intros i r' Hr'. unfold tick in Hr'.
    set (wi := set_mouse (in_aim i) (set_isThrusting (in_thrust i) w)) in *.
    assert (Hri : rocket (physics wi) = Some r) by exact Hr.
    destruct (physicsStep_fuel rng wi r r' Hri Hr') as [[He H]|[Hne H]].
    + split; [now left|]. split; [|now intros _].
      intros _ _ Hne. contradiction.
    + change (isThrusting (gameState wi)) with (in_thrust i) in H.
      unfold fuelAfter in H.
      destruct (in_thrust i); cbn [andb] in H.
      * destruct (Rlt_dec 0 (Body.fuel r)).
        -- split; [right; auto|]. split; [auto|discriminate].
        -- split; [now left|]. split; [intros _ Hpos; lra|discriminate].
      * split; [now left|]. split; [discriminate|auto].
  - intros l. revert w r Hr Hf.
    induction l as [|i l IH]; intros w r Hr Hf r' Hr'.
    + cbn in Hr'. rewrite Hr in Hr'. injection Hr' as <-. lra.
    + cbn [ticks] in Hr'.
      destruct (rocket (physics (tick rng i w))) as [r1|] eqn:E1.
      * assert (H1 : 0 <= Body.fuel r1 <= Body.fuel r).
        { unfold tick in E1.
          destruct (physicsStep_fuel rng
                      (set_mouse (in_aim i) (set_isThrusting (in_thrust i) w))
                      r r1 Hr E1) as [[_ H]|[_ H]];
            rewrite H; [lra|]. now apply fuelAfter_bounds. }
        specialize (IH (tick rng i w) r1 E1 (proj1 H1) r' Hr'). lra.
      * rewrite (ticks_none rng l _ E1) in Hr'. discriminate.
  - apply thrustBlock_empty.
Qed.

(** A rocket with 100 units of fuel in the sample world: whatever the player
    does, the fuel stays between 0 and 100. *)
Lemma C6_fuel_monotone_witness :
  let r := Sample.aRocket 700 400 100 0 in
  rocket (physics (Sample.flying r)) = Some r
  /\ 0 <= Body.fuel r
  /\ forall rng l r',
       rocket (physics (ticks rng l (Sample.flying r))) = Some r' ->
       0 <= Body.fuel r' <= 100.
Proof.
  intros r.
  assert (Hf : 0 <= Body.fuel r) by (cbn; lra).
  split; [reflexivity|]. split; [exact Hf|].
  intros rng l r' Hr'.
  exact (proj1 (proj2 (C6_fuel_monotone rng (Sample.flying r) r eq_refl Hf))
               l r' Hr').
Defined.

(* ================================================================== *)
(** * 15. Orbits *)
(* ================================================================== *)

(** [update()] leaves what [move] has set. *)
Lemma update_after_move fc th m store b :
  let b' := Body.update fc th m store b in
  let bm := Body.move fc store b in
  Body.pos b' = Body.pos bm /\ Body.vel b' = Body.vel bm
  /\ Body.orbitAngle b' = Body.orbitAngle bm
  /\ Body.orbitCenter b' = Body.orbitCenter bm
  /\ Body.parentBody b' = Body.parentBody bm
  /\ Body.orbitRadius b' = Body.orbitRadius bm
  /\ Body.orbitSpeed b' = Body.orbitSpeed bm.
Proof.
  cbv zeta. unfold Body.update. cbv zeta.
  generalize (Body.move fc store b). intros bm.
  repeat match goal with
         | |- context [match ?x with _ => _ end] => destruct x
         end; repeat split.
Qed.

Lemma move_keeps fc store b :
  let bm := Body.move fc store b in
  Body.orbitCenter bm = Body.orbitCenter b
  /\ Body.parentBody bm = Body.parentBody b
  /\ Body.orbitRadius bm = Body.orbitRadius b
  /\ Body.orbitSpeed bm = Body.orbitSpeed b.
Proof.
  cbv zeta. unfold Body.move.
  repeat match goal with
         | |- context [match ?x with _ => _ end] => destruct x eqn:?
         end; cbn; auto.
Qed.

Lemma move_fixed fc store b c :
  Body.orbitCenter b = Some c ->
  let bm := Body.move fc store b in
  let a := Body.orbitAngle b + Body.orbitSpeed b in
  Body.orbitAngle bm = a
  /\ Body.pos bm = onCircle c (Body.orbitRadius b) a
  /\ Body.vel bm = tangent (Body.orbitRadius b) (Body.orbitSpeed b) a.
Proof.
  intros Hc. cbv zeta. unfold Body.move. rewrite Hc. repeat split.
Qed.

Lemma move_parent fc store b p :
  Body.orbitCenter b = None ->
  Body.parent store b = Some p ->
  let bm := Body.move fc store b in
  let a := Body.orbitAngle b + Body.orbitSpeed b in
  Body.orbitAngle bm = a
  /\ Body.pos bm = onCircle (Body.pos p) (Body.orbitRadius b) a
  /\ Body.vel bm
     = Vector.add (Body.vel p)
                  (tangent (Body.orbitRadius b) (Body.orbitSpeed b) a).
Proof.
  intros Hc Hp. cbv zeta. unfold Body.move. rewrite Hc, Hp.
  split; [reflexivity|]. split; [reflexivity|].
  cbn. unfold Vector.add, tangent. cbn. f_equal; ring.
Qed.

(** A point of the circle is at the distance [|r|] from the centre. *)
Lemma mag_onCircle (c : Vector.t) (r a : R) :
  Vector.mag (Vector.sub (onCircle c r a) c) = Rabs r.
Proof.
  unfold Vector.mag, Vector.sub, onCircle. cbn.
  replace ((Vector.x c + cos a * r - Vector.x c) * (Vector.x c + cos a * r - Vector.x c)
           + (Vector.y c + sin a * r - Vector.y c) * (Vector.y c + sin a * r - Vector.y c))
    with (Rsqr r * (Rsqr (sin a) + Rsqr (cos a))) by (unfold Rsqr; ring).
  rewrite sin2_cos2, Rmult_1_r. apply sqrt_Rsqr_abs.
Qed.

(** [forEach] updates every body once, in place.  The body at the index [k]
    is updated against a store that holds, at every earlier index, the body
    as it is at the end. *)
Lemma forEachUpdate_spec fc th m : forall todo done,
  exists res,
    forEachUpdate fc th m done todo = done ++ res
    /\ List.length res = List.length todo
    /\ forall k b,
         nth_error todo k = Some b ->
         exists store,
           nth_error res k = Some (Body.update fc th m store b)
           /\ forall j, (j < List.length done + k)%nat ->
                        nth_error store j = nth_error (done ++ res) j.
Proof.
  induction todo as [|b rest IH]; intros done.
  - exists []. cbn. rewrite app_nil_r. split; [reflexivity|].
    split; [reflexivity|]. intros k b Hk. destruct k; discriminate.
  - cbn [forEachUpdate].
    set (b1 := Body.update fc th m (done ++ b :: rest) b).
    destruct (IH (done ++ [b1])) as (res & Heq & Hlen & Hk).
    exists (b1 :: res). split; [|split].
    + rewrite Heq, <- app_assoc. reflexivity.
    + cbn. now rewrite Hlen.
    + intros k b0 Hb0. destruct k as [|k].
      * cbn in Hb0. injection Hb0 as <-.
        exists (done ++ b :: rest). split; [reflexivity|].
        intros j Hj. rewrite Nat.add_0_r in Hj.
        now rewrite !nth_error_app1 by exact Hj.
      * cbn in Hb0. destruct (Hk k b0 Hb0) as (store & Hs & Hj).
        exists store. split; [exact Hs|].
        intros j Hlt. rewrite Hj.
        -- rewrite <- app_assoc. reflexivity.
        -- rewrite length_app. cbn. lia.
Qed.

Lemma updateRocket_bodies w :
  bodies (physics (updateRocket w)) = bodies (physics w).
Proof.
  unfold updateRocket. destruct (rocket (physics w)); [|reflexivity].
  cbv zeta. destruct (Rlt_dec _ _); [|reflexivity].
  now rewrite endGame_eq.
Qed.

Lemma updateParticles_bodies w :
  bodies (physics (updateParticles w)) = bodies (physics w).
Proof.
  unfold updateParticles. destruct (particleLoop _ _ _). reflexivity.
Qed.

(** The bodies after a physics step: each is the result of [update()], and
    its parent, if it stands earlier in the list, is read as it is at the
    end of the step. *)
Lemma physicsStep_bodies rng w i b' :
  nth_error (bodies (physics (physicsStep rng w))) i = Some b' ->
  exists fc th m store b,
    b' = Body.update fc th m store b
    /\ forall j, (j < i)%nat ->
         nth_error store j
         = nth_error (bodies (physics (physicsStep rng w))) j.
Proof.
  unfold physicsStep. rewrite updateParticles_bodies, updateRocket_bodies.
  set (w1 := calculateGravity rng w). unfold updateBodies. cbn [bodies physics set_bodies set_physics].
  destruct (forEachUpdate_spec (frameCount (gameData w1))
              (isThrusting (gameState w1)) (mouse w1) (bodies (physics w1)) [])
    as (res & Heq & Hlen & Hk).
  rewrite Heq. cbn [app]. intros Hi.
  assert (Hlt : (i < List.length (bodies (physics w1)))%nat).
  { rewrite <- Hlen. apply nth_error_Some. congruence. }
  destruct (nth_error (bodies (physics w1)) i) as [b|] eqn:Eb;
    [|apply nth_error_None in Eb; lia].
  destruct (Hk i b Eb) as (store & Hs & Hj).
  exists (frameCount (gameData w1)), (isThrusting (gameState w1)), (mouse w1),
         store, b.
  split; [congruence|]. intros j Hji. apply Hj. cbn. exact Hji.
Qed.

Lemma ticks_app rng l1 : forall l2 w,
  ticks rng (l1 ++ l2) w = ticks rng l2 (ticks rng l1 w).
Proof.
  induction l1 as [|i l1 IH]; intros l2 w; [reflexivity|].
  cbn [app ticks]. apply IH.
Qed.

Lemma tangent_scaled (r s a : R) :
  tangent r s a = Vector.mult (Vector.mk (- sin a) (cos a)) (r * s).
Proof. unfold tangent, Vector.mult. cbn. f_equal; ring. Qed.

(** C7.  After every tick (the last of any non-empty sequence of ticks),
    every body [b'] with a fixed orbit centre [c] stands on the circle around
    [c] at its angle: its distance from [c] is its orbit radius (the absolute
    value of it, should the radius be negative), and its velocity is
    [radius * angularSpeed * (- sin angle, cos angle)].  A body without a
    fixed centre that orbits a parent standing earlier in the list has this
    velocity plus the velocity of the parent, and stands on the circle
    around the parent.  The position is computed from the angle alone, so
    nothing drifts. *)
Theorem C7_orbit_invariant (rng : nat -> R) (w : World) (l : list Input)
    (i0 : Input) (i : nat) (b' : Body.t) :
  let w' := ticks rng (l ++ [i0]) w in
  nth_error (bodies (physics w')) i = Some b' ->
  let r := Body.orbitRadius b' in
  let s := Body.orbitSpeed b' in
  let a := Body.orbitAngle b' in
  (forall c,
      Body.orbitCenter b' = Some c ->
      Body.pos b' = onCircle c r a
      /\ Vector.mag (Vector.sub (Body.pos b') c) = Rabs r
      /\ (0 <= r -> Vector.mag (Vector.sub (Body.pos b') c) = r)
      /\ Body.vel b' = Vector.mult (Vector.mk (- sin a) (cos a)) (r * s))
  /\ (forall j p',
        Body.orbitCenter b' = None ->
        Body.parentBody b' = Some j ->
        (j < i)%nat ->
        nth_error (bodies (physics w')) j = Some p' ->
        Body.pos b' = onCircle (Body.pos p') r a
        /\ Body.vel b'
           = Vector.add (Body.vel p')
                        (Vector.mult (Vector.mk (- sin a) (cos a)) (r * s))).
Proof.
  intros w' Hi r s a. subst w'.
  rewrite ticks_app in *. cbn [ticks] in *. unfold tick in *.
  set (w0 := set_mouse (in_aim i0)
               (set_isThrusting (in_thrust i0) (ticks rng l w))) in *.
  destruct (physicsStep_bodies rng w0 i b' Hi)
    as (fc & th & m & store & b & Hb & Hstore).
  destruct (update_after_move fc th m store b)
    as (Hpos & Hvel & Hang & Hcen & Hpar & Hrad & Hspd).
  destruct (move_keeps fc store b) as (Kcen & Kpar & Krad & Kspd).
  rewrite <- Hb in Hpos, Hvel, Hang, Hcen, Hpar, Hrad, Hspd.
  assert (Er : r = Body.orbitRadius b) by (unfold r; congruence).
  assert (Es : s = Body.orbitSpeed b) by (unfold s; congruence).
  split.
  - intros c Hc.
    assert (Hcb : Body.orbitCenter b = Some c) by congruence.
    destruct (move_fixed fc store b c Hcb) as (Ma & Mp & Mv).
    assert (Ea : a = Body.orbitAngle b + Body.orbitSpeed b)
      by (unfold a; congruence).
    assert (Hp : Body.pos b' = onCircle c r a) by (rewrite Er, Ea; congruence).
    split; [exact Hp|]. rewrite Hp, mag_onCircle.
    split; [reflexivity|]. split; [intros Hr; now apply Rabs_pos_eq|].
    rewrite <- tangent_scaled, Er, Es, Ea. congruence.
  - intros j p' Hc Hpj Hji Hp'.
    assert (Hcb : Body.orbitCenter b = None) by congruence.
    assert (Hpb : Body.parent store b = Some p').
    { unfold Body.parent. replace (Body.parentBody b) with (Some j) by congruence.
      rewrite (Hstore j Hji). exact Hp'. }
    destruct (move_parent fc store b p' Hcb Hpb) as (Ma & Mp & Mv).
    assert (Ea : a = Body.orbitAngle b + Body.orbitSpeed b)
      by (unfold a; congruence).
    rewrite <- tangent_scaled, Er, Es, Ea. split; congruence.
Qed.

Lemma forEachUpdate_cons fc th m done b rest :
  forEachUpdate fc th m done (b :: rest)
  = forEachUpdate fc th m
      (done ++ [Body.update fc th m (done ++ b :: rest) b]) rest.
Proof. reflexivity. Qed.

Lemma sample_tick_bodies :
  exists s' m',
    bodies (physics (ticks (fun _ => 0)
                       ([] ++ [mkInput false (Vector.mk 400 400)])
                       Sample.world))
    = [s'; earthAfterTick; moonAfterTick; m'].
Proof.
  cbn [ticks app]. unfold tick, physicsStep.
  rewrite updateParticles_bodies, updateRocket_bodies.
  unfold calculateGravity.
  change (rocket (physics (set_mouse _ _))) with (@None Body.t). cbv iota.
  unfold updateBodies. cbn [bodies physics set_bodies set_physics].
  change (bodies (physics _))
    with [Sample.theSun; Sample.earth; Sample.theMoon; Sample.mars].
  change (frameCount (gameData _)) with 0%nat.
  change (isThrusting (gameState _)) with false.
  change (mouse _) with (Vector.mk 400 400).
  rewrite !forEachUpdate_cons. cbn [forEachUpdate app].
  unfold moonAfterTick, earthAfterTick. do 2 eexists. reflexivity.
Qed.

(** [update()] keeps the orbit a body is on. *)
Lemma update_keeps fc th m store b :
  let b' := Body.update fc th m store b in
  Body.orbitCenter b' = Body.orbitCenter b
  /\ Body.parentBody b' = Body.parentBody b
  /\ Body.orbitRadius b' = Body.orbitRadius b
  /\ Body.orbitSpeed b' = Body.orbitSpeed b.
Proof.
  cbv zeta.
  destruct (update_after_move fc th m store b) as (_ & _ & _ & H1 & H2 & H3 & H4).
  destruct (move_keeps fc store b) as (K1 & K2 & K3 & K4).
  repeat split; congruence.
Qed.

(** In the sample world after one tick the launch body stands on its orbit,
    176 from the centre, and the moon moves with the launch body, which
    stands before it in the list. *)
Lemma C7_orbit_invariant_witness :
  let w' := ticks (fun _ => 0) ([] ++ [mkInput false (Vector.mk 400 400)])
                  Sample.world in
  let a := Body.orbitAngle moonAfterTick in
  let r := Body.orbitRadius moonAfterTick in
  let s := Body.orbitSpeed moonAfterTick in
  nth_error (bodies (physics w')) 1 = Some earthAfterTick
  /\ nth_error (bodies (physics w')) 2 = Some moonAfterTick
  /\ Vector.mag (Vector.sub (Body.pos earthAfterTick) (Vector.mk 400 400)) = 176
  /\ r = 25 /\ s = 8 / 100
  /\ Body.vel moonAfterTick
     = Vector.add (Body.vel earthAfterTick)
                  (Vector.mult (Vector.mk (- sin a) (cos a)) (r * s))
  /\ Body.pos moonAfterTick = onCircle (Body.pos earthAfterTick) r a.
Proof.
  intros w' a r s. destruct sample_tick_bodies as (s' & m' & E).
  fold w' in E.
  assert (E1 : nth_error (bodies (physics w')) 1 = Some earthAfterTick)
    by (rewrite E; reflexivity).
  assert (E2 : nth_error (bodies (physics w')) 2 = Some moonAfterTick)
    by (rewrite E; reflexivity).
  destruct (update_keeps 0 false (Vector.mk 400 400)
       [Body.update 0 false (Vector.mk 400 400)
       [Sample.theSun; Sample.earth; Sample.theMoon; Sample.mars] Sample.theSun;
     earthAfterTick; Sample.theMoon; Sample.mars] Sample.theMoon)
    as (Hc & Hp & Hr & Hs).
  fold moonAfterTick in Hc, Hp, Hr, Hs.
  destruct (update_keeps 0 false (Vector.mk 400 400)
       [Body.update 0 false (Vector.mk 400 400)
       [Sample.theSun; Sample.earth; Sample.theMoon; Sample.mars] Sample.theSun;
     Sample.earth; Sample.theMoon; Sample.mars] Sample.earth)
    as (Hce & _ & Hre & _).
  fold earthAfterTick in Hce, Hre.
  destruct (C7_orbit_invariant (fun _ => 0) Sample.world []
              (mkInput false (Vector.mk 400 400)) 1 earthAfterTick E1)
    as [He _].
  destruct (He (Vector.mk 400 400) Hce) as (_ & _ & Hdist & _).
  destruct (C7_orbit_invariant (fun _ => 0) Sample.world []
              (mkInput false (Vector.mk 400 400)) 2 moonAfterTick E2) as [_ H].
  destruct (H 1%nat earthAfterTick Hc Hp (Nat.lt_succ_diag_r 1) E1)
    as [Hpos Hvel].
  split; [exact E1|]. split; [exact E2|].
  split; [rewrite Hdist; [exact Hre|rewrite Hre; cbn; lra]|].
  split; [exact Hr|]. split; [exact Hs|]. split; [exact Hvel|exact Hpos].
Defined.

(* ================================================================== *)
(** * 16. The frame loop and the pause *)
(* ================================================================== *)

Lemma spawnExplosion_gameData rng x y color w :
  gameData (spawnExplosion rng x y color w) = gameData w.
Proof.
  destruct (spawnExplosion_spec rng x y color w) as [Hf _].
  apply frameOf_inv in Hf. destruct Hf as (H & _). exact H.
Qed.

Lemma endGame_gameData success reason w :
  gameData (endGame success reason w) = gameData w.
Proof. now rewrite endGame_eq. Qed.

Lemma gravityBody_gameData rng localG body w :
  gameData (exitWorld (gravityBody rng localG body w)) = gameData w.
Proof.
  unfold gravityBody.
  destruct (BodyType.eqb (Body.type body) BodyType.rocket); [reflexivity|].
  destruct (rocket (physics w)) as [r|]; [|reflexivity]. cbv zeta.
  destruct (Rlt_dec _ _); [|reflexivity]. cbn [exitWorld].
  destruct (Body.type body);
    try (now rewrite spawnExplosion_gameData, endGame_gameData).
  - destruct (100 <? _)%nat; [|reflexivity].
    now rewrite spawnExplosion_gameData, endGame_gameData.
  - now rewrite endGame_gameData.
Qed.

Lemma gravityLoop_gameData rng localG : forall bs w,
  gameData (exitWorld (gravityLoop rng localG bs w)) = gameData w.
Proof.
  induction bs as [|b bs IH]; intros w; [reflexivity|].
  cbn [gravityLoop].
  pose proof (gravityBody_gameData rng localG b w) as H.
  destruct (gravityBody rng localG b w) as [w1|w1]; cbn [exitWorld] in H.
  - exact H.
  - now rewrite IH.
Qed.

Lemma thrustBlock_gameData rng r w :
  gameData (thrustBlock rng r w) = gameData w.
Proof.
  unfold thrustBlock. cbv zeta.
  destruct (isThrusting (gameState w) && _); [|reflexivity].
  match goal with
  | |- context [set_rocket (Some ?b) w] => set (r3 := b)
  end.
  destruct (frameCount (gameData (set_rocket (Some r3) w)) mod 3 =? 0)%nat;
    [|reflexivity].
  destruct (getPooledParticle_spec rng (Vector.x (Body.pos r3))
              (Vector.y (Body.pos r3)) "#ffaa00" (set_rocket (Some r3) w))
    as (_ & Hf & _).
  destruct (getPooledParticle rng _ _ _ _) as [p w1]. cbn [snd] in Hf.
  apply frameOf_inv in Hf. destruct Hf as (H & _). cbn. now rewrite H.
Qed.

Lemma closestBlock_gameData w :
  gameData (closestBlock w) = gameData w.
Proof.
  unfold closestBlock. destruct (find _ _); [|reflexivity].
  destruct (rocket (physics w)); [|reflexivity].
  destruct (ltClosest _ _); reflexivity.
Qed.

Lemma calculateGravity_gameData rng w :
  gameData (calculateGravity rng w) = gameData w.
Proof.
  unfold calculateGravity.
  destruct (rocket (physics w)) as [r|]; [|reflexivity].
  destruct (bodies (physics w)); [reflexivity|]. cbv zeta.
  pose proof (gravityLoop_gameData rng
                (GameConfig.G_BASE * scaleFactor (gameData w))
                (bodies (physics (thrustBlock rng r w)))
                (thrustBlock rng r w)) as H.
  destruct (gravityLoop rng _ _ _) as [w1|w1]; cbn [exitWorld] in H.
  - now rewrite H, thrustBlock_gameData.
  - now rewrite closestBlock_gameData, H, thrustBlock_gameData.
Qed.

Lemma updateRocket_gameData w :
  gameData (updateRocket w) = gameData w.
Proof.
  unfold updateRocket. destruct (rocket (physics w)); [|reflexivity].
  cbv zeta. destruct (Rlt_dec _ _); [|reflexivity].
  now rewrite endGame_gameData.
Qed.

Lemma updateParticles_gameData w :
  gameData (updateParticles w) = gameData w.
Proof.
  unfold updateParticles. destruct (particleLoop _ _ _). reflexivity.
Qed.

(** A physics step does not touch [gameData]: the accumulator is only
    changed by [loop]. *)
Lemma physicsStep_gameData rng w :
  gameData (physicsStep rng w) = gameData w.
Proof.
  unfold physicsStep.
  rewrite updateParticles_gameData, updateRocket_gameData.
  unfold updateBodies. cbn [gameData set_bodies set_physics].
  apply calculateGravity_gameData.
Qed.

Lemma loop_eq rng now w :
  loop rng now w
  = if isPaused (gameState w) then accumulate now w
    else
      let w4 := drawBlock rng
                  (stepsLoop rng 5
                     (twinkle rng (shakeBlock rng (accumulate now w)))) in
      set_frameCount (S (frameCount (gameData w4))) w4.
Proof.
  unfold loop. cbv zeta.
  set (w0 := if Req_dec_T (lastTimestamp (gameData w)) 0
             then set_lastTimestamp now w else w).
  assert (H0 : set_lastTimestamp now w0 = set_lastTimestamp now w).
  { unfold w0. destruct (Req_dec_T (lastTimestamp (gameData w)) 0); reflexivity. }
  assert (Hd : (if Rlt_dec (1 / 4) (now - lastTimestamp (gameData w0))
                then 1 / 4 else now - lastTimestamp (gameData w0))
               = clampDelta (lastTimestamp (gameData w)) now).
  { unfold clampDelta, w0.
    destruct (Req_dec_T (lastTimestamp (gameData w)) 0); reflexivity. }
  rewrite H0, Hd.
  change (accumulator (gameData (set_lastTimestamp now w)))
    with (accumulator (gameData w)).
  fold (accumulate now w).
  change (isPaused (gameState (accumulate now w)))
    with (isPaused (gameState w)).
  reflexivity.
Qed.

Lemma loop_paused rng now w :
  isPaused (gameState w) = true -> loop rng now w = accumulate now w.
Proof. intros Hp. now rewrite loop_eq, Hp. Qed.

Lemma loop_running rng now w :
  isPaused (gameState w) = false ->
  loop rng now w
  = let w4 := drawBlock rng
                (stepsLoop rng 5 (twinkle rng (shakeBlock rng (accumulate now w)))) in
    set_frameCount (S (frameCount (gameData w4))) w4.
Proof. intros Hp. now rewrite loop_eq, Hp. Qed.

(** While the game is paused a frame changes the clock and the accumulator
    and nothing else. *)
Lemma accumulate_frozen now w :
  physics (accumulate now w) = physics w
  /\ gameState (accumulate now w) = gameState w
  /\ upgrades (accumulate now w) = upgrades w
  /\ lastTimestamp (gameData (accumulate now w)) = now
  /\ accumulator (gameData (accumulate now w))
     = accumulator (gameData w) + clampDelta (lastTimestamp (gameData w)) now.
Proof. repeat split. Qed.

Lemma frames_paused rng ts : forall w,
  isPaused (gameState w) = true ->
  physics (frames rng ts w) = physics w
  /\ gameState (frames rng ts w) = gameState w.
Proof.
  induction ts as [|now ts IH]; intros w Hp; [split; reflexivity|].
  cbn [frames]. rewrite (loop_paused rng now w Hp).
  destruct (IH (accumulate now w) Hp) as [H1 H2].
  rewrite H1, H2. split; reflexivity.
Qed.

Lemma oneStep_accumulator rng w :
  accumulator (gameData (oneStep rng w)) = accumulator (gameData w) - step.
Proof.
  unfold oneStep. cbv zeta. cbn. now rewrite physicsStep_gameData.
Qed.

(** The [while] loop runs [stepsTaken] passes. *)
Lemma stepsLoop_count rng : forall n w,
  stepsLoop rng n w
  = Nat.iter (stepsTaken n (accumulator (gameData w))) (oneStep rng) w.
Proof.
  induction n as [|n IH]; intros w; [reflexivity|].
  cbn [stepsLoop stepsTaken].
  destruct (Rge_dec (accumulator (gameData w)) step); [|reflexivity].
  rewrite Nat.iter_succ_r. fold (oneStep rng w).
  rewrite IH, oneStep_accumulator. reflexivity.
Qed.

Lemma random_gameData rng w :
  gameData (snd (random rng w)) = gameData w.
Proof. reflexivity. Qed.

Lemma shakeBlock_gameData rng w :
  gameData (shakeBlock rng w) = gameData w.
Proof.
  unfold shakeBlock. destruct (Rlt_dec 0 _); [|reflexivity].
  cbn. destruct (Rlt_dec _ _); reflexivity.
Qed.

Lemma starsLoop_gameData rng : forall todo done w,
  gameData (snd (starsLoop rng done todo w)) = gameData w.
Proof.
  induction todo as [|s todo IH]; intros done w; [reflexivity|].
  cbn [starsLoop]. cbn [random].
  destruct (Rlt_dec _ _); cbn [random]; now rewrite IH.
Qed.

Lemma twinkle_gameData rng w :
  gameData (twinkle rng w) = gameData w.
Proof.
  unfold twinkle.
  pose proof (starsLoop_gameData rng (stars (physics w)) [] w) as H.
  destruct (starsLoop rng [] (stars (physics w)) w) as [l w1].
  cbn [snd] in H. cbn. exact H.
Qed.

Lemma stepsTaken_backlog : stepsTaken 5 (1 + 1 / 60) = 5%nat.
Proof.
  unfold stepsTaken, step.
  repeat (destruct (Rge_dec _ _); [|lra]). reflexivity.
Qed.

Lemma stepsTaken_single : stepsTaken 5 (0 + 1 / 60) = 1%nat.
Proof.
  unfold stepsTaken, step.
  destruct (Rge_dec _ _); [|lra].
  destruct (Rge_dec _ _); [lra|]. reflexivity.
Qed.

Lemma clampDelta_within (last now : R) :
  last <> 0 -> now - last <= 1 / 4 -> clampDelta last now = now - last.
Proof.
  intros Hl Hd. unfold clampDelta. cbv zeta.
  destruct (Req_dec_T last 0); [contradiction|].
  destruct (Rlt_dec (1 / 4) (now - last)); [lra|reflexivity].
Qed.

(** A paused frame, for a clock that has started. *)
Lemma paused_frame rng now w t a :
  isPaused (gameState w) = true ->
  lastTimestamp (gameData w) = t -> t <> 0 -> now - t <= 1 / 4 ->
  accumulator (gameData w) = a ->
  isPaused (gameState (loop rng now w)) = true
  /\ lastTimestamp (gameData (loop rng now w)) = now
  /\ accumulator (gameData (loop rng now w)) = a + (now - t).
Proof.
  intros Hp Hl Ht Hd Ha. rewrite (loop_paused rng now w Hp).
  destruct (accumulate_frozen now w) as (_ & Hgs & _ & Hlast & Hacc).
  rewrite Hgs, Hlast, Hacc, Hl, Ha, (clampDelta_within t now Ht Hd). auto.
Qed.

Lemma togglePause_flying w :
  mode (gameState w) = FLYING ->
  isPaused (gameState (togglePause w)) = negb (isPaused (gameState w))
  /\ gameData (togglePause w) = gameData w
  /\ physics (togglePause w) = physics w.
Proof. intros Hm. unfold togglePause. rewrite Hm. repeat split. Qed.

(** C5, on the code.  A game paused in flight with an empty accumulator at
    clock time 1 s gets four frames, a quarter of a second apart.  The
    simulation is frozen: bodies, rocket, fuel and closest approach are as
    they were.  But each frame has added its time to the accumulator, which
    now holds a full second.  After the resume the next frame, 1/60 s later,
    runs five physics steps, where the same frame after no pause runs
    one: the paused time is applied as a backlog. *)
Theorem C5_pause_backlog (rng : nat -> R) (w : World) :
  isPaused (gameState w) = true ->
  mode (gameState w) = FLYING ->
  accumulator (gameData w) = 0 ->
  lastTimestamp (gameData w) = 1 ->
  let w1 := frames rng [5 / 4; 3 / 2; 7 / 4; 2] w in
  let resumed := togglePause w1 in
  let fresh := togglePause w in
  physics w1 = physics w
  /\ gameState w1 = gameState w
  /\ accumulator (gameData w1) = 1
  /\ isPaused (gameState resumed) = false
  /\ loop rng (2 + 1 / 60) resumed
     = (let w4 := drawBlock rng
                    (Nat.iter 5 (oneStep rng)
                       (twinkle rng (shakeBlock rng
                          (accumulate (2 + 1 / 60) resumed)))) in
        set_frameCount (S (frameCount (gameData w4))) w4)
  /\ loop rng (1 + 1 / 60) fresh
     = (let w4 := drawBlock rng
                    (Nat.iter 1 (oneStep rng)
                       (twinkle rng (shakeBlock rng
                          (accumulate (1 + 1 / 60) fresh)))) in
        set_frameCount (S (frameCount (gameData w4))) w4).
Proof.
  intros Hp Hm Ha Hl w1 resumed fresh.
  destruct (frames_paused rng [5 / 4; 3 / 2; 7 / 4; 2] w Hp) as [Hph Hgs].
  change (frames rng [5 / 4; 3 / 2; 7 / 4; 2] w) with w1 in Hph, Hgs.
  assert (Hacc : lastTimestamp (gameData w1) = 2
                 /\ accumulator (gameData w1) = 1).
  { unfold w1. cbn [frames].
    destruct (paused_frame rng (5 / 4) w 1 0 Hp Hl) as (P1 & L1 & A1);
      [lra|lra|exact Ha|].
    destruct (paused_frame rng (3 / 2) _ (5 / 4) (0 + (5 / 4 - 1)) P1 L1)
      as (P2 & L2 & A2); [lra|lra|exact A1|].
    destruct (paused_frame rng (7 / 4) _ (3 / 2) (0 + (5 / 4 - 1) + (3 / 2 - 5 / 4))
                P2 L2) as (P3 & L3 & A3); [lra|lra|exact A2|].
    destruct (paused_frame rng 2 _ (7 / 4)
                (0 + (5 / 4 - 1) + (3 / 2 - 5 / 4) + (7 / 4 - 3 / 2)) P3 L3)
      as (P4 & L4 & A4); [lra|lra|exact A3|].
    split; [exact L4|]. rewrite A4. lra. }
  destruct Hacc as [Hlast Hacc].
  assert (Hm1 : mode (gameState w1) = FLYING) by (rewrite Hgs; exact Hm).
  destruct (togglePause_flying w1 Hm1) as (Hres & Hgd & _).
  destruct (togglePause_flying w Hm) as (Hfresh & Hgd' & _).
  fold resumed in Hres, Hgd. fold fresh in Hfresh, Hgd'.
  rewrite Hgs, Hp in Hres. rewrite Hp in Hfresh. cbn [negb] in Hres, Hfresh.
  split; [exact Hph|]. split; [exact Hgs|]. split; [exact Hacc|].
  split; [exact Hres|]. split.
  - rewrite (loop_running rng _ resumed Hres). cbv zeta.
    rewrite stepsLoop_count, twinkle_gameData, shakeBlock_gameData.
    destruct (accumulate_frozen (2 + 1 / 60) resumed) as (_ & _ & _ & _ & Hx).
    rewrite Hx, Hgd, Hacc, Hlast, clampDelta_within by lra.
    replace (1 + (2 + 1 / 60 - 2)) with (1 + 1 / 60) by lra.
    now rewrite stepsTaken_backlog.
  - rewrite (loop_running rng _ fresh Hfresh). cbv zeta.
    rewrite stepsLoop_count, twinkle_gameData, shakeBlock_gameData.
    destruct (accumulate_frozen (1 + 1 / 60) fresh) as (_ & _ & _ & _ & Hx).
    rewrite Hx, Hgd', Ha, Hl, clampDelta_within by lra.
    replace (0 + (1 + 1 / 60 - 1)) with (0 + 1 / 60) by lra.
    now rewrite stepsTaken_single.
Qed.

Lemma C5_pause_backlog_witness :
  let w := set_isPaused true (Sample.flying (Sample.aRocket 700 400 100 0)) in
  isPaused (gameState w) = true
  /\ mode (gameState w) = FLYING
  /\ accumulator (gameData w) = 0
  /\ lastTimestamp (gameData w) = 1
  /\ forall rng,
       accumulator (gameData (frames rng [5 / 4; 3 / 2; 7 / 4; 2] w)) = 1.
Proof.
  intros w.
  split; [reflexivity|]. split; [reflexivity|]. split; [reflexivity|].
  split; [reflexivity|]. intros rng.
  exact (proj1 (proj2 (proj2 (C5_pause_backlog rng w eq_refl eq_refl
                                               eq_refl eq_refl)))).
Defined.

(* ================================================================== *)
(** * 17. The earlier draft *)
(* ================================================================== *)

(** In the draft a crash never shows its explosion: [endGame] has destroyed
    the rocket before the guard [if (physics.rocket && physics.rocket.pos)]
    is evaluated, so [spawnExplosion] is not called.  The final version reads
    the position of the rocket before it calls [endGame]. *)
Lemma Draft_crash_without_explosion rng body w :
  let w' := Draft.explodeAndDestroy rng body (endGame false crashed w) in
  w' = endGame false crashed w
  /\ shakeStrength (gameState w') = shakeStrength (gameState w)
  /\ particles (physics w') = particles (physics w).
Proof.
  cbv zeta. unfold Draft.explodeAndDestroy. cbv zeta.
  rewrite endGame_rocket, endGame_eq. repeat split.
Qed.

(** The same on the loop body of the draft: a rocket that hits a body other
    than the launch or destination body ends the run as a crash, and neither
    the screen shake nor the particles change. *)
Lemma Draft_gravityBody_crash rng localG body w r :
  rocket (physics w) = Some r ->
  Body.type body <> BodyType.rocket ->
  Body.type body <> BodyType.target_end ->
  Body.type body <> BodyType.target_start ->
  Vector.mag (Vector.sub (Body.pos body) (Body.pos r))
  < Draft.collisionDist body w ->
  exists w',
    Draft.gravityBody rng localG body w = Return w'
    /\ mode (gameState w') = ENDED
    /\ rocket (physics w') = None
    /\ shakeStrength (gameState w') = shakeStrength (gameState w)
    /\ particles (physics w') = particles (physics w).
Proof.
  intros Hr H1 H2 H3 Hd. unfold Draft.gravityBody.
  apply BodyType_eqb_neq in H1, H2, H3. rewrite H1, H2, H3, Hr. cbv zeta.
  cbn [andb].
  match goal with
  | |- context [Rlt_dec ?a ?b] => destruct (Rlt_dec a b) as [_|Hn]
  end.
  - match goal with
    | |- context [endGame false crashed ?w2] =>
        destruct (Draft_crash_without_explosion rng body w2) as (He & Hs & Hp)
    end.
    cbv zeta in He, Hs, Hp. eexists. split; [reflexivity|].
    rewrite He in *. rewrite endGame_mode, endGame_rocket. auto.
  - exfalso. apply Hn. exact Hd.
Qed.

(* ================================================================== *)
(** * 18. Entering [ENDED] *)
(* ================================================================== *)

Lemma spawnExplosion_gameState rng x y color w :
  gameState (spawnExplosion rng x y color w)
  = gameState (set_shakeStrength 10 w).
Proof.
  destruct (spawnExplosion_spec rng x y color w) as [Hf _].
  apply frameOf_inv in Hf. destruct Hf as (_ & H & _). exact H.
Qed.

Lemma endGame_outcome success reason w :
  stepOutcome w (endGame success reason w).
Proof.
  right. rewrite endGame_eq. cbn.
  split; [reflexivity|]. split; [reflexivity|]. now exists success, reason.
Qed.

Lemma crash_explosion_outcome rng x y color w :
  stepOutcome w (spawnExplosion rng x y color (endGame false crashed w)).
Proof.
  right. rewrite spawnExplosion_rocket, spawnExplosion_gameState.
  rewrite endGame_eq. cbn.
  split; [reflexivity|]. split; [reflexivity|]. now exists false, crashed.
Qed.

Lemma dispatch_outcome rng body r w :
  stepOutcome w (dispatch rng body r w).
Proof.
  unfold dispatch.
  pose proof (crash_explosion_outcome rng (Vector.x (Body.pos r))
                (Vector.y (Body.pos r)) (Body.color body) w) as Hcrash.
  destruct (Body.type body); try exact Hcrash.
  - destruct (100 <? Body.age r)%nat; [exact Hcrash|]. left. now split.
  - apply endGame_outcome.
Qed.

Lemma gravityLoop_outcome rng localG r f : forall bs w a,
  rocket (physics w) = Some (Body.set_acc a (Body.set_fuel f r)) ->
  stepOutcome w (exitWorld (gravityLoop rng localG bs w)).
Proof.
  induction bs as [|b bs IH]; intros w a Hr; [left; now split|].
  cbn [gravityLoop].
  destruct (BodyType.eqb (Body.type b) BodyType.rocket) eqn:E.
  - apply BodyType_eqb_eq in E.
    rewrite (gravityBody_rocket rng localG b w E). now apply (IH w a).
  - apply BodyType_eqb_neq in E.
    destruct (gravityBody_cases rng localG b w r a f Hr E) as [a1 H1].
    cbv zeta in H1. rewrite H1.
    destruct (Rlt_dec (distTo b r) (collisionDist b w)).
    + cbn [exitWorld].
      exact (dispatch_outcome rng b r
               (set_rocket (Some (Body.set_acc a1 (Body.set_fuel f r))) w)).
    + exact (IH (set_rocket (Some (Body.set_acc a1 (Body.set_fuel f r))) w)
                a1 eq_refl).
Qed.

Lemma closestBlock_none w :
  rocket (physics w) = None -> closestBlock w = w.
Proof.
  intros Hr. unfold closestBlock. rewrite Hr. now destruct (find _ _).
Qed.

Lemma closestBlock_keeps w :
  mode (gameState (closestBlock w)) = mode (gameState w)
  /\ coins (gameState (closestBlock w)) = coins (gameState w).
Proof.
  unfold closestBlock. destruct (find _ _); [|now split].
  destruct (rocket (physics w)); [|now split].
  destruct (ltClosest _ _); now split.
Qed.

Lemma calculateGravity_outcome rng w :
  stepOutcome w (calculateGravity rng w).
Proof.
  unfold calculateGravity.
  destruct (rocket (physics w)) as [r|] eqn:Hr; [|left; now split].
  destruct (bodies (physics w)); [left; now split|]. cbv zeta.
  destruct (thrustBlock_spec rng r w Hr) as ([a Ha] & _ & Hgs & _).
  pose proof (gravityLoop_outcome rng
                (GameConfig.G_BASE * scaleFactor (gameData w)) r _
                (bodies (physics (thrustBlock rng r w)))
                (thrustBlock rng r w) a Ha) as H.
  unfold stepOutcome in H. rewrite Hgs in H.
  destruct (gravityLoop rng _ _ _) as [w1|w1]; cbn [exitWorld] in H.
  - exact H.
  - destruct H as [[H1 H2]|(H1 & H2 & H3)].
    + left. destruct (closestBlock_keeps w1) as [K1 K2].
      rewrite K1, K2. now split.
    + right. rewrite (closestBlock_none w1 H2). auto.
Qed.

Lemma updateRocket_outcome w :
  stepOutcome w (updateRocket w).
Proof.
  unfold updateRocket. destruct (rocket (physics w)); [|left; now split].
  cbv zeta. destruct (Rlt_dec _ _); [|left; now split].
  match goal with
  | |- stepOutcome w (endGame false lost_space ?w1) =>
      exact (endGame_outcome false lost_space w1)
  end.
Qed.

Lemma updateParticles_gameState w :
  gameState (updateParticles w) = gameState w.
Proof.
  unfold updateParticles. destruct (particleLoop _ _ _). reflexivity.
Qed.

(** A physics step leaves mode and coins alone, or it ends the run. *)
Lemma physicsStep_outcome rng w :
  stepOutcome w (physicsStep rng w).
Proof.
  unfold physicsStep, stepOutcome.
  rewrite updateParticles_gameState, updateParticles_rocket.
  set (w1 := calculateGravity rng w).
  destruct (calculateGravity_outcome rng w) as [[M1 C1]|(M1 & R1 & E1)];
    fold w1 in M1, C1 || fold w1 in M1, R1, E1.
  - destruct (updateRocket_outcome (updateBodies w1)) as [[M2 C2]|(M2 & R2 & E2)].
    + left. rewrite M2, C2. split; [exact M1|exact C1].
    + right. split; [exact M2|]. split; [exact R2|].
      destruct E2 as (s & rs & E2). exists s, rs. rewrite E2.
      f_equal. exact C1.
  - right. rewrite updateRocket_none by exact R1.
    split; [exact M1|]. split; [exact R1|exact E1].
Qed.

(** C2.  [endGame], the only function that sets the mode to [ENDED],
    destroys the rocket and adds the reward to the coins: the landing reward
    of 100 on success; nothing on a failure by crash, whatever the closest
    approach; on any other failure [max 0 (50 - floor (closestDist / 2))]
    (nothing when no distance was measured and [closestDist] is still
    [Infinity]).  And a physics step that enters [ENDED] does so in this
    way: it leaves no rocket, and the coins have grown by the reward of a
    landing, of a crash or of a loss in space. *)
Theorem C2_endGame_reward (success : bool) (reason : Reason) (w : World) :
  let w' := endGame success reason w in
  mode (gameState w') = ENDED
  /\ rocket (physics w') = None
  /\ coins (gameState w')
     = (coins (gameState w)
        + (if success then 100
           else match reason, closestDist (gameState w) with
                | crashed, _ => 0
                | _, Finite d => Z.max 0 (50 - Zfloor (d / 2))
                | _, Infinity => 0
                end))%Z
  /\ forall rng,
       let w2 := physicsStep rng w in
       mode (gameState w) <> ENDED ->
       mode (gameState w2) = ENDED ->
       rocket (physics w2) = None
       /\ exists success' reason',
            coins (gameState w2)
            = (coins (gameState w)
               + reward success' reason' (closestDist (gameState w2)))%Z.
Proof.
  intros w'. subst w'.
  rewrite endGame_mode, endGame_rocket, endGame_coins.
  split; [reflexivity|]. split; [reflexivity|]. split.
  - unfold reward, distanceScore.
    destruct success; [reflexivity|].
    destruct reason; destruct (closestDist (gameState w)); reflexivity.
  - intros rng w2 Hm He.
    destruct (physicsStep_outcome rng w) as [[M _]|(_ & R & E)].
    + fold w2 in M. congruence.
    + split; [exact R|exact E].
Qed.

Lemma updateBodies_keeps w :
  gameState (updateBodies w) = gameState w
  /\ rocket (physics (updateBodies w)) = rocket (physics w).
Proof. split; reflexivity. Qed.

(** A physics step of the sample world with the rocket over the sun. *)
Lemma sample_step_crashes rng :
  mode (gameState (physicsStep rng
                     (Sample.flying (Sample.aRocket 400 400 100 150)))) = ENDED.
Proof.
  set (r := Sample.aRocket 400 400 100 150).
  assert (Hhit : hits (Sample.flying r) r Sample.theSun).
  { unfold hits. rewrite distTo_same by reflexivity.
    unfold collisionDist, GameConfig.COLLISION_PADDING. cbn. lra. }
  destruct (calculateGravity_hit rng (Sample.flying r) r [] Sample.theSun
              [Sample.earth; Sample.theMoon; Sample.mars]
              eq_refl eq_refl (Forall_nil _)) as [a Hcg];
    [discriminate|exact Hhit|].
  rewrite dispatch_terminal in Hcg by discriminate.
  assert (Hsun : BodyType.eqb (Body.type Sample.theSun) BodyType.target_end
                 = false) by reflexivity.
  rewrite Hsun in Hcg.
  unfold physicsStep.
  destruct (updateBodies_keeps (calculateGravity rng (Sample.flying r)))
    as [Kg Kr].
  rewrite updateParticles_gameState, updateRocket_none.
  - rewrite Kg, Hcg, spawnExplosion_gameState.
    cbn [gameState set_shakeStrength set_gameState mode].
    apply endGame_mode.
  - rewrite Kr, Hcg, spawnExplosion_rocket. apply endGame_rocket.
Qed.

(** The sample world with a rocket over the sun: the physics step ends the
    run and leaves no rocket; and a rocket lost in space with no distance on
    record earns nothing. *)
Lemma C2_endGame_reward_witness :
  let w := Sample.flying (Sample.aRocket 400 400 100 150) in
  mode (gameState w) <> ENDED
  /\ (forall rng,
        mode (gameState (physicsStep rng w)) = ENDED
        /\ rocket (physics (physicsStep rng w)) = None)
  /\ mode (gameState (endGame false lost_space w)) = ENDED
  /\ coins (gameState (endGame false lost_space w)) = 100%Z.
Proof.
  intros w.
  assert (Hm : mode (gameState w) <> ENDED) by discriminate.
  destruct (C2_endGame_reward false lost_space w) as (H1 & _ & H3 & H4).
  split; [exact Hm|]. split.
  - intros rng. split; [apply sample_step_crashes|].
    exact (proj1 (H4 rng Hm (sample_step_crashes rng))).
  - split; [exact H1|]. rewrite H3. reflexivity.
Defined.

(* ================================================================== *)
(** * 19. The store over many purchases *)
(* ================================================================== *)

(** [Math.floor(c * 1.5)] on an integer [c]. *)
Lemma Zfloor_three_halves (c : Z) :
  Zfloor (IZR c * (3 / 2)) = (3 * c / 2)%Z.
Proof.
  apply Zfloor_eq.
  pose proof (Z.div_mod (3 * c) 2 ltac:(lia)) as Hd.
  pose proof (Z.mod_pos_bound (3 * c) 2 ltac:(lia)) as Hm.
  set (q := (3 * c / 2)%Z) in *.
  set (m := ((3 * c) mod 2)%Z) in *.
  assert (Hc : IZR c * (3 / 2) = IZR q + IZR m / 2).
  { assert (H3 : IZR (3 * c) = IZR (2 * q + m)) by (f_equal; exact Hd).
    rewrite mult_IZR, plus_IZR, mult_IZR in H3. lra. }
  rewrite Hc.
  assert (H0 : (0 <= m)%Z) by lia.
  assert (H1 : (m <= 1)%Z) by lia.
  apply IZR_le in H0, H1. lra.
Qed.

Lemma costMultiplier_configOf (k : UpgradeKey) :
  costMultiplier (configOf k) = 3 / 2.
Proof. destruct k; reflexivity. Qed.

Lemma costAt_S (k : UpgradeKey) (n : nat) :
  costAt (configOf k) (S n) = (3 * costAt (configOf k) n / 2)%Z.
Proof.
  cbn [costAt]. rewrite costMultiplier_configOf. apply Zfloor_three_halves.
Qed.

Lemma costAt_pos (k : UpgradeKey) (n : nat) : (0 < costAt (configOf k) n)%Z.
Proof.
  induction n as [|n IH].
  - destruct k; reflexivity.
  - rewrite costAt_S.
    assert (H : (costAt (configOf k) n <= 3 * costAt (configOf k) n / 2)%Z).
    { apply Z.div_le_lower_bound; lia. }
    lia.
Qed.

Lemma paid_S (c : UpgradeConfig) (n : nat) :
  paid c (S n) = (paid c n + costAt c n)%Z.
Proof. reflexivity. Qed.

Lemma paid_mono (k : UpgradeKey) (n m : nat) :
  (n <= m)%nat -> (paid (configOf k) n <= paid (configOf k) m)%Z.
Proof.
  induction 1 as [|m _ IH]; [lia|].
  rewrite paid_S. pose proof (costAt_pos k m). lia.
Qed.

Lemma paid_nonneg (k : UpgradeKey) (n : nat) : (0 <= paid (configOf k) n)%Z.
Proof. apply (paid_mono k 0 n). lia. Qed.

(** The price of all four steps of a track. *)
Lemma paid_four (k : UpgradeKey) :
  paid (configOf k) 4
  = match k with Kfuel => 405 | Kthrust => 650 | Klaunch => 487 end%Z.
Proof.
  rewrite !paid_S, !costAt_S. destruct k; reflexivity.
Qed.

Lemma storeInv_init (w : World) :
  storeInv (coins (gameState w)) (UpgradeSystem.init w).
Proof.
  split; [|split].
  - intros k u. subst u.
    destruct k; cbn; repeat split; first [lia | reflexivity].
  - unfold spent, purchases. cbn. lia.
  - cbn. tauto.
Qed.

Lemma purchases_set_same (k : UpgradeKey) (v : Upgrade) (w w0 : World) :
  purchases k (set_upgrades (UpgradeSystem.set k v (upgrades w)) w0)
  = Z.to_nat (u_level v - 1).
Proof. unfold purchases. cbn [upgrades set_upgrades]. now rewrite get_set_same. Qed.

Lemma purchases_set_other (k k' : UpgradeKey) (v : Upgrade) (w w0 : World) :
  k <> k' ->
  purchases k' (set_upgrades (UpgradeSystem.set k v (upgrades w)) w0)
  = purchases k' w.
Proof.
  intros H. unfold purchases. cbn [upgrades set_upgrades].
  now rewrite get_set_other.
Qed.

Lemma storeInv_buy (c0 : Z) (k : UpgradeKey) (w : World) :
  storeInv c0 w -> storeInv c0 (buyUpgrade k w).
Proof.
  intros (Hk & Hc & Hn). unfold buyUpgrade.
  destruct (UpgradeSystem.canBuy k w) eqn:E.
  2:{ rewrite buy_rejected; [exact (conj Hk (conj Hc Hn))|].
      intros Ha. apply canBuy_affordable in Ha. congruence. }
  apply canBuy_affordable in E. rewrite (buy_accepted _ _ E). cbv zeta.
  destruct E as [Hlt Hle].
  destruct (Hk k) as ((Hl1 & Hl5) & Hmax & Hmul & Hcost).
  set (u := UpgradeSystem.get k (upgrades w)) in *.
  set (v := mkUpgrade (u_level u + 1)
                      (Zfloor (IZR (u_cost u) * u_costMultiplier u))
                      (u_name u) (u_max u) (u_costMultiplier u)).
  assert (Hp : Z.to_nat (u_level v - 1) = S (purchases k w)).
  { unfold purchases. fold u. cbn [v u_level]. lia. }
  assert (Hsp : forall w0,
             spent (set_upgrades (UpgradeSystem.set k v (upgrades w)) w0)
             = (spent w + u_cost u)%Z).
  { intros w0. unfold spent.
    destruct k;
      rewrite purchases_set_same, !purchases_set_other by discriminate;
      rewrite Hp, paid_S, <- Hcost; lia. }
  split; [|split].
  - intros k' u'. subst u'. cbn [upgrades set_upgrades].
    destruct (UpgradeKey_eq_dec k k') as [<-|Hne].
    + rewrite get_set_same, purchases_set_same, Hp. cbn [v u_level u_max u_cost u_costMultiplier].
      repeat split; try lia; try assumption.
      cbn [costAt]. rewrite <- Hcost, costMultiplier_configOf, Hmul. reflexivity.
    + rewrite get_set_other, purchases_set_other by assumption. apply Hk.
  - rewrite Hsp. cbn. lia.
  - intros H0. cbn. lia.
Qed.

Lemma storeInv_buys (c0 : Z) (ks : list UpgradeKey) (w : World) :
  storeInv c0 w -> storeInv c0 (buys ks w).
Proof.
  revert w. induction ks as [|k ks IH]; intros w H; [exact H|].
  cbn [buys]. apply IH, storeInv_buy, H.
Qed.

Lemma purchases_le_four (c0 : Z) (k : UpgradeKey) (w : World) :
  storeInv c0 w -> (purchases k w <= 4)%nat.
Proof.
  intros (Hk & _). destruct (Hk k) as ((H1 & H5) & _).
  unfold purchases. lia.
Qed.

(** X1.  From the levels [UpgradeSystem.init] sets, whatever buttons of the
    store are clicked and however often: every level stays between 1 and its
    maximum 5, the coins never grow, they never drop below zero (when they
    were not below zero at the start), and the tank that [getStats] reports
    holds between 100 and 220. *)
Theorem store_levels_bounded (ks : list UpgradeKey) (w : World) :
  let w' := buys ks (UpgradeSystem.init w) in
  (forall k, (1 <= u_level (UpgradeSystem.get k (upgrades w')) <= 5)%Z
             /\ u_max (UpgradeSystem.get k (upgrades w')) = 5%Z)
  /\ (coins (gameState w') <= coins (gameState w))%Z
  /\ ((0 <= coins (gameState w))%Z -> (0 <= coins (gameState w'))%Z)
  /\ 100 <= maxFuel (UpgradeSystem.getStats w') <= 220.
Proof.
  intros w'.
  assert (H : storeInv (coins (gameState w)) w')
    by apply storeInv_buys, storeInv_init.
  destruct H as (Hk & Hc & Hn).
  split; [|split; [|split]].
  - intros k. destruct (Hk k) as (Hl & Hm & _). now split.
  - rewrite Hc. unfold spent.
    pose proof (paid_nonneg Kfuel (purchases Kfuel w')).
    pose proof (paid_nonneg Kthrust (purchases Kthrust w')).
    pose proof (paid_nonneg Klaunch (purchases Klaunch w')). lia.
  - exact Hn.
  - destruct (Hk Kfuel) as ((H1 & H5) & _). cbn [UpgradeSystem.get] in H1, H5.
    unfold UpgradeSystem.getStats. cbn [maxFuel].
    apply IZR_le in H1, H5. lra.
Qed.

(** X2.  The price list of the store.  After any purchases the cost shown
    for a track is the base cost multiplied by 1.5 and rounded down once per
    level bought; the coins that are gone are exactly the sum of the costs
    of the levels bought; and all twelve levels together cost 1542 coins
    (405 for the tank, 650 for the engine, 487 for the catapult). *)
Theorem store_accounting (ks : list UpgradeKey) (w : World) :
  let w' := buys ks (UpgradeSystem.init w) in
  (forall k, u_cost (UpgradeSystem.get k (upgrades w'))
             = costAt (configOf k) (purchases k w'))
  /\ coins (gameState w') = (coins (gameState w) - spent w')%Z
  /\ (0 <= spent w' <= 1542)%Z
  /\ paid (configOf Kfuel) 4 = 405%Z
  /\ paid (configOf Kthrust) 4 = 650%Z
  /\ paid (configOf Klaunch) 4 = 487%Z.
Proof.
  intros w'.
  assert (H : storeInv (coins (gameState w)) w')
    by apply storeInv_buys, storeInv_init.
  pose proof (purchases_le_four _ Kfuel _ H) as Hf.
  pose proof (purchases_le_four _ Kthrust _ H) as Ht.
  pose proof (purchases_le_four _ Klaunch _ H) as Hl.
  destruct H as (Hk & Hc & _).
  split; [|split; [|split]].
  - intros k. apply (Hk k).
  - exact Hc.
  - unfold spent.
    pose proof (paid_nonneg Kfuel (purchases Kfuel w')).
    pose proof (paid_nonneg Kthrust (purchases Kthrust w')).
    pose proof (paid_nonneg Klaunch (purchases Klaunch w')).
    apply (paid_mono Kfuel) in Hf. apply (paid_mono Kthrust) in Ht.
    apply (paid_mono Klaunch) in Hl.
    rewrite paid_four in Hf, Ht, Hl. lia.
  - split; [exact (paid_four Kfuel)|].
    split; [exact (paid_four Kthrust)|exact (paid_four Klaunch)].
Qed.

(* ================================================================== *)
(** * 20. The constructor of a body *)
(* ================================================================== *)

Lemma shapeLoop_spec (rng : nat -> R) (count : nat) :
  forall i numPoints radius vs w,
    snd (shapeLoop rng count i numPoints radius vs w)
    = set_rngPos (rngPos w + count) w
    /\ List.length (fst (shapeLoop rng count i numPoints radius vs w))
       = (List.length vs + count)%nat.
Proof.
  induction count as [|c IH]; intros i n radius vs w.
  - cbn [shapeLoop fst snd]. split; [|lia].
    rewrite Nat.add_0_r. destruct w; reflexivity.
  - cbn [shapeLoop random]. 
    match goal with |- context [shapeLoop rng c ?i' n radius ?vs' ?w'] =>
      destruct (IH i' n radius vs' w') as [Hs Hl] end.
    rewrite Hs, Hl. split.
    + cbn [rngPos set_rngPos]. unfold set_rngPos. cbn. f_equal. lia.
    + rewrite length_app. cbn [List.length]. lia.
Qed.

Lemma mag_polar (a r : R) :
  Vector.mag (Vector.mk (cos a * r) (sin a * r)) = Rabs r.
Proof.
  unfold Vector.mag. cbn [Vector.x Vector.y].
  replace (cos a * r * (cos a * r) + sin a * r * (sin a * r)) with (Rsqr r).
  - apply sqrt_Rsqr_abs.
  - unfold Rsqr. pose proof (sin2_cos2 a) as H. unfold Rsqr in H. nra.
Qed.

Lemma shapeLoop_corners (rng : nat -> R) (count : nat) :
  unitRange rng ->
  forall i numPoints radius vs w,
    0 <= radius ->
    Forall (cornerOf radius) vs ->
    Forall (cornerOf radius)
           (fst (shapeLoop rng count i numPoints radius vs w)).
Proof.
  intros Hr. induction count as [|c IH]; intros i n radius vs w H0 Hvs.
  - exact Hvs.
  - cbn [shapeLoop random]. apply IH; [exact H0|].
    apply Forall_app. split; [exact Hvs|].
    constructor; [|constructor].
    unfold cornerOf. rewrite mag_polar.
    destruct (Hr (rngPos w)) as [Hq0 Hq1].
    rewrite Rabs_right by nra. nra.
Qed.

Lemma numPointsOf_range (q : R) : 0 <= q < 1 -> (6 <= numPointsOf q <= 9)%nat.
Proof.
  intros [H0 H1]. unfold numPointsOf.
  assert (Hlo : (0 <= Zfloor (q * 4))%Z) by (apply Zfloor_lub; lra).
  assert (Hhi : (Zfloor (q * 4) < 4)%Z).
  { apply lt_IZR. destruct (Zfloor_bound (q * 4)) as [Hb _]. lra. }
  lia.
Qed.

(** [new Body(...)] of a type other than ['obstacle']: one random number,
    for the orbit angle, and no polygon. *)
Lemma newBody_plain (rng : nat -> R) (x y mass radius : R) (color : string)
      (isStatic : bool) (type : BodyType.t) (w : World) :
  BodyType.eqb type BodyType.obstacle = false ->
  newBody rng x y mass radius color isStatic type w
  = (plainBody x y mass radius color isStatic type (scaleFactor (gameData w))
               (rng (rngPos w)),
     set_rngPos (S (rngPos w)) w).
Proof. intros H. unfold newBody, random. rewrite H. reflexivity. Qed.

(** [new Body(...)] of the type ['obstacle']. *)
Lemma newBody_obstacle (rng : nat -> R) (x y mass radius : R) (color : string)
      (isStatic : bool) (w : World) :
  let n := numPointsOf (rng (S (rngPos w))) in
  let r := radius * scaleFactor (gameData w) in
  exists shape,
    newBody rng x y mass radius color isStatic BodyType.obstacle w
    = (Body.mk (Vector.mk x y) (Vector.mk 0 0) (Vector.mk 0 0) mass r color
               isStatic BodyType.obstacle [] None None 0
               (rng (rngPos w) * PI * 2) 0 (Vector.mk x y) false
               0 0 0 0 0 0 shape,
       set_rngPos (rngPos w + 2 + n) w)
    /\ List.length shape = n
    /\ (unitRange rng -> 0 <= r -> Forall (cornerOf r) shape).
Proof.
  intros n r. unfold newBody, random.
  cbn [BodyType.eqb gameData set_rngPos rngPos].
  fold (numPointsOf (rng (S (rngPos w)))). fold n. fold r.
  match goal with |- context [shapeLoop rng n 0 n r [] ?w'] =>
    pose proof (shapeLoop_spec rng n 0%nat n r [] w') as [Hs Hl];
    pose proof (fun H => shapeLoop_corners rng n H 0%nat n r [] w') as Hc;
    destruct (shapeLoop rng n 0 n r [] w') as [shape w2] eqn:E
  end.
  cbn [fst snd] in Hs, Hl, Hc. exists shape. split; [|split].
  - f_equal. rewrite Hs. cbn [rngPos set_rngPos]. unfold set_rngPos. cbn.
    f_equal. lia.
  - exact Hl.
  - intros Hr H0. apply Hc; [exact Hr|exact H0|constructor].
Qed.

(** X3.  The constructor of [Body].  The radius is the argument times the
    scale factor, the body stands still at [(x, y)] with an empty trail.
    An obstacle gets a polygon of 6 to 9 corners, each between 0.7 and 1.3
    radii from the centre, and takes two random numbers and one more per
    corner; any other body gets no polygon and takes one random number. *)
Theorem newBody_polygon (rng : nat -> R) (x y mass radius : R)
      (color : string) (isStatic : bool) (type : BodyType.t) (w : World) :
  unitRange rng ->
  0 <= radius * scaleFactor (gameData w) ->
  let b := fst (newBody rng x y mass radius color isStatic type w) in
  let w' := snd (newBody rng x y mass radius color isStatic type w) in
  let n := List.length (Body.shapeVertices b) in
  constructed x y mass radius (scaleFactor (gameData w)) color isStatic type b
  /\ Body.orbitCenter b = None /\ Body.parentBody b = None
  /\ (exists k, w' = set_rngPos k w)
  /\ (type <> BodyType.obstacle -> n = 0%nat /\ rngPos w' = S (rngPos w))
  /\ (type = BodyType.obstacle ->
      (6 <= n <= 9)%nat
      /\ Forall (cornerOf (Body.radius b)) (Body.shapeVertices b)
      /\ rngPos w' = (rngPos w + 2 + n)%nat).
Proof.
  intros Hr H0.
  destruct (BodyType.eqb type BodyType.obstacle) eqn:E.
  - assert (type = BodyType.obstacle) as -> by (destruct type; easy).
    destruct (newBody_obstacle rng x y mass radius color isStatic w)
      as (shape & -> & Hl & Hc).
    cbn [fst snd Body.shapeVertices Body.radius Body.orbitCenter
         Body.parentBody].
    split; [|split; [|split; [|split; [|split]]]].
    + unfold constructed. cbn. repeat split.
    + reflexivity.
    + reflexivity.
    + eexists. reflexivity.
    + intros H. contradiction.
    + intros _. rewrite Hl. split; [|split].
      * apply numPointsOf_range, Hr.
      * apply Hc; assumption.
      * reflexivity.
  - rewrite newBody_plain by exact E. cbn [fst snd].
    split; [|split; [|split; [|split; [|split]]]].
    + unfold constructed. cbn. repeat split.
    + reflexivity.
    + reflexivity.
    + eexists. reflexivity.
    + intros _. split; reflexivity.
    + intros ->. discriminate.
Qed.

(** A rock of radius 10 in the sample world, every random number one
    half. *)
Lemma newBody_polygon_witness :
  let rng := fun _ : nat => 1 / 2 in
  let b := fst (newBody rng 0 0 1 10 "#888" false BodyType.obstacle
                        Sample.world) in
  unitRange rng
  /\ 0 <= 10 * scaleFactor (gameData Sample.world)
  /\ (6 <= List.length (Body.shapeVertices b) <= 9)%nat
  /\ Forall (cornerOf (Body.radius b)) (Body.shapeVertices b).
Proof.
  intros rng b.
  assert (Hr : unitRange rng) by (intros n; unfold rng; lra).
  assert (H0 : 0 <= 10 * scaleFactor (gameData Sample.world)) by (cbn; lra).
  split; [exact Hr|]. split; [exact H0|].
  pose proof (newBody_polygon rng 0 0 1 10 "#888" false BodyType.obstacle
                Sample.world Hr H0) as H.
  cbv zeta in H. destruct H as (_ & _ & _ & _ & _ & H).
  destruct (H eq_refl) as (Hn & Hc & _). split; [exact Hn|exact Hc].
Defined.

(* ================================================================== *)
(** * 21. The solar system of a level *)
(* ================================================================== *)

Lemma rebuilt_refl (w : World) : rebuilt w w.
Proof. exists (bodies (physics w)), (rngPos w). destruct w as [? ? [] ? ? ? ?]. reflexivity. Qed.

Lemma rebuilt_trans (w1 w2 w3 : World) :
  rebuilt w1 w2 -> rebuilt w2 w3 -> rebuilt w1 w3.
Proof.
  intros (bs & n & ->) (bs' & n' & ->). exists bs', n'. reflexivity.
Qed.

(** What is left as it was when a world is rebuilt. *)
Lemma rebuilt_keeps (w w' : World) :
  rebuilt w w' ->
  gameData w' = gameData w /\ gameState w' = gameState w
  /\ rocket (physics w') = rocket (physics w)
  /\ ghostTrail (physics w') = ghostTrail (physics w)
  /\ particles (physics w') = particles (physics w)
  /\ particlePool (physics w') = particlePool (physics w)
  /\ stars (physics w') = stars (physics w)
  /\ upgrades w' = upgrades w /\ mouse w' = mouse w /\ ui w' = ui w.
Proof. intros (bs & n & ->). repeat split. Qed.

(** One pass of the ring loop. *)
Lemma ringRock_spec (rng : nat -> R) (i saturn : nat) (w : World) :
  let s := scaleFactor (gameData w) in
  exists b n,
    ringRock rng i saturn w = (b, set_rngPos n w)
    /\ ringRockAt s saturn i b
    /\ (unitRange rng -> 0 <= s -> ringRockRange s b).
Proof.
  intros s. unfold ringRock.
  destruct (newBody_obstacle rng 0 0 5 2 "#8d6e63" false w)
    as (shape & E & Hl & Hc).
  rewrite E. cbn [random rngPos set_rngPos gameData].
  eexists. eexists. split; [reflexivity|]. split.
  - unfold ringRockAt, constructed. cbn. repeat split.
  - intros Hr H0. unfold ringRockRange. cbn.
    fold s. fold s in Hc.
    match goal with |- context [rng ?k * (10 * s)] =>
      pose proof (Hr k) as [Ha Hb] end.
    match goal with |- context [rng ?k * (2 / 100)] =>
      pose proof (Hr k) as [Hc1 Hc2] end.
    split; [nra|]. split; [nra|]. split.
    + rewrite Hl. apply numPointsOf_range, Hr.
    + apply Hc; [exact Hr|nra].
Qed.

Lemma ringLoop_spec (rng : nat -> R) (saturn count : nat) :
  forall i w,
    let s := scaleFactor (gameData w) in
    exists rs n,
      ringLoop rng count i saturn w
      = set_rngPos n (set_bodies (bodies (physics w) ++ rs) w)
      /\ List.length rs = count
      /\ (forall k b, nth_error rs k = Some b ->
            ringRockAt s saturn (i + k) b
            /\ (unitRange rng -> 0 <= s -> ringRockRange s b)).
Proof.
  induction count as [|c IH]; intros i w s.
  - exists [], (rngPos w). cbn [ringLoop]. split; [|split].
    + rewrite app_nil_r. destruct w as [? ? [] ? ? ? ?]. reflexivity.
    + reflexivity.
    + intros [|k] b H; discriminate.
  - cbn [ringLoop].
    destruct (ringRock_spec rng i saturn w) as (b & n & E & Hat & Hrange).
    rewrite E.
    destruct (IH (S i) (push b (set_rngPos n w))) as (rs & n' & E' & Hl & Hall).
    rewrite E'. exists (b :: rs), n'. split; [|split].
    + cbn [push bodies physics set_bodies set_physics set_rngPos].
      rewrite <- app_assoc. reflexivity.
    + cbn [List.length]. now rewrite Hl.
    + intros [|k] b' H.
      * cbn in H. injection H as <-. rewrite Nat.add_0_r. split; assumption.
      * cbn [nth_error] in H. replace (i + S k)%nat with (S i + k)%nat by lia.
        apply (Hall k b' H).
Qed.

(** One pass of the asteroid loop. *)
Lemma asteroid_spec (rng : nat -> R) (c : LevelConfig) (w : World) :
  let g := gameData w in
  let s := scaleFactor g in
  exists b n,
    asteroid rng (asteroidMinSize c * s) (asteroidMaxSize c * s)
             (zoneStart g) (zoneEnd g) w
    = (b, set_rngPos n w)
    /\ asteroidAt g b
    /\ (unitRange rng -> 0 <= s ->
        0 <= asteroidMinSize c <= asteroidMaxSize c ->
        asteroidRange c g b).
Proof.
  intros g s. unfold asteroid, random. cbv beta iota zeta.
  match goal with |- context [newBody rng 0 0 20 ?sz "#777" false _ ?w1] =>
    destruct (newBody_obstacle rng 0 0 20 sz "#777" false w1)
      as (shape & E & Hl & Hc); rewrite E
  end.
  cbn [rngPos set_rngPos gameData] in *. fold g in Hc |- *. fold s in Hc |- *.
  eexists. eexists. split; [reflexivity|]. split.
  - unfold asteroidAt. cbn. repeat split.
  - intros Hr H0 [Hmin Hmax]. unfold asteroidRange. cbn. fold s.
    pose proof (Hr (rngPos w)) as [Hq0 Hq1].
    assert (Hd : 0 <= asteroidMaxSize c * s - asteroidMinSize c * s) by nra.
    assert (Hsz : asteroidMinSize c * s
                  <= asteroidMinSize c * s
                     + rng (rngPos w)
                       * (asteroidMaxSize c * s - asteroidMinSize c * s)
                  <= asteroidMaxSize c * s).
    { set (d := asteroidMaxSize c * s - asteroidMinSize c * s) in *.
      replace (asteroidMaxSize c * s) with (asteroidMinSize c * s + d)
        by (unfold d; ring).
      nra. }
    split.
    { split; apply Rmult_le_compat_r; solve [exact H0 | apply Hsz]. }
    split.
    { match goal with |- context [rng ?k * (zoneEnd g - zoneStart g)] =>
        pose proof (Hr k) as [Ha Hb] end.
      unfold Rmin, Rmax.
      destruct (Rle_dec (zoneStart g) (zoneEnd g)); nra. }
    split.
    { match goal with |- context [rng ?k * PI * 2] =>
        pose proof (Hr k) as [Ha Hb] end.
      pose proof PI_RGT_0. nra. }
    split.
    { match goal with |- context [Rlt_dec (1 / 2) (rng ?k)] =>
        destruct (Rlt_dec (1 / 2) (rng k)) end;
      match goal with |- context [rng ?k * (4 / 1000)] =>
        pose proof (Hr k) as [Ha Hb] end.
      - rewrite Rabs_right by nra. nra.
      - rewrite Rabs_left by nra. nra. }
    split.
    + rewrite Hl. apply numPointsOf_range, Hr.
    + apply Hc; [exact Hr|nra].
Qed.

Lemma asteroidLoop_spec (rng : nat -> R) (c : LevelConfig) (count : nat) :
  forall w,
    let g := gameData w in
    let s := scaleFactor g in
    exists bs n,
      asteroidLoop rng count (asteroidMinSize c * s) (asteroidMaxSize c * s)
                   (zoneStart g) (zoneEnd g) w
      = set_rngPos n (set_bodies (bodies (physics w) ++ bs) w)
      /\ List.length bs = count
      /\ Forall (asteroidAt g) bs
      /\ (unitRange rng -> 0 <= s ->
          0 <= asteroidMinSize c <= asteroidMaxSize c ->
          Forall (asteroidRange c g) bs).
Proof.
  induction count as [|k IH]; intros w g s.
  - exists [], (rngPos w). cbn [asteroidLoop]. split; [|split; [|split]].
    + rewrite app_nil_r. destruct w as [? ? [] ? ? ? ?]. reflexivity.
    + reflexivity.
    + constructor.
    + intros; constructor.
  - cbn [asteroidLoop].
    destruct (asteroid_spec rng c w) as (b & n & E & Hat & Hrange).
    fold g in E, Hat, Hrange. fold s in E, Hrange. rewrite E.
    destruct (IH (push b (set_rngPos n w))) as (bs & n' & E' & Hl & Hall & Hr).
    cbn [push gameData set_rngPos set_bodies set_physics] in E', Hall, Hr.
    fold g in E', Hall, Hr. fold s in E', Hr.
    rewrite E'. exists (b :: bs), n'. split; [|split; [|split]].
    + cbn [push bodies physics set_bodies set_physics set_rngPos].
      rewrite <- app_assoc. reflexivity.
    + cbn [List.length]. now rewrite Hl.
    + constructor; assumption.
    + intros H1 H2 H3. constructor; [apply Hrange|apply Hr]; assumption.
Qed.

(** [createSolarSystem] in one piece: the sun and the planets, the ring,
    then the asteroids of the level -- or the throw. *)
Lemma createSolarSystem_eq (rng : nat -> R) (w : World) :
  let g := gameData w in
  let s := scaleFactor g in
  let w17 := ringLoop rng 12 0 4
               (set_rngPos (5 + rngPos w) (set_bodies (planets rng w) w)) in
  createSolarSystem rng w
  = match levelConfigOf (level (gameState w17)) with
    | None => Thrown w17
    | Some c =>
        Done (asteroidLoop rng (asteroidCount c) (asteroidMinSize c * s)
                (asteroidMaxSize c * s) (zoneStart g) (zoneEnd g) w17)
    end.
Proof.
  intros g s w17. unfold createSolarSystem. cbv zeta.
  repeat (rewrite newBody_plain by reflexivity; cbv beta iota;
          cbn [gameData rngPos physics bodies set_rngPos push set_bodies
               set_physics rocket ghostTrail particles particlePool stars
               app List.length gameState upgrades mouse ui]).
  reflexivity.
Qed.

(** The parts of the list [createSolarSystem] leaves: the sun and the
    planets, the twelve rocks of the ring (when the level has an entry in
    [LEVELS_DATA.levels]) and the asteroids. *)
Lemma createSolarSystem_parts (rng : nat -> R) (w : World) :
  let g := gameData w in
  let s := scaleFactor g in
  exists rs n,
    List.length rs = 12%nat
    /\ (forall k b, nth_error rs k = Some b ->
          ringRockAt s 4 k b
          /\ (unitRange rng -> 0 <= s -> ringRockRange s b))
    /\ match levelConfigOf (level (gameState w)) with
       | None =>
           createSolarSystem rng w
           = Thrown (set_rngPos n (set_bodies (planets rng w ++ rs) w))
       | Some c =>
           exists bs m,
             createSolarSystem rng w
             = Done (set_rngPos m
                       (set_bodies (planets rng w ++ rs ++ bs) w))
             /\ List.length bs = asteroidCount c
             /\ Forall (asteroidAt g) bs
             /\ (unitRange rng -> 0 <= s ->
                 0 <= asteroidMinSize c <= asteroidMaxSize c ->
                 Forall (asteroidRange c g) bs)
       end.
Proof.
  intros g s. rewrite createSolarSystem_eq. cbv zeta.
  destruct (ringLoop_spec rng 4 12 0
              (set_rngPos (5 + rngPos w) (set_bodies (planets rng w) w)))
    as (rs & n & E & Hl & Hall).
  assert (E1 : ringLoop rng 12 0 4
                 (set_rngPos (5 + rngPos w) (set_bodies (planets rng w) w))
               = set_rngPos n (set_bodies (planets rng w ++ rs) w))
    by (rewrite E; reflexivity).
  clear E. rewrite E1.
  change (scaleFactor
            (gameData (set_rngPos (5 + rngPos w)
                                  (set_bodies (planets rng w) w))))
    with s in Hall.
  exists rs, n. split; [exact Hl|]. split; [exact Hall|].
  change (gameState (set_rngPos n (set_bodies (planets rng w ++ rs) w)))
    with (gameState w).
  destruct (levelConfigOf (level (gameState w))) as [c|]; [|reflexivity].
  fold g. fold s.
  destruct (asteroidLoop_spec rng c (asteroidCount c)
              (set_rngPos n (set_bodies (planets rng w ++ rs) w)))
    as (bs & m & E' & Hl' & Hat & Hr).
  change (gameData (set_rngPos n (set_bodies (planets rng w ++ rs) w)))
    with g in E', Hat, Hr.
  fold s in E', Hr.
  exists bs, m. rewrite E'. rewrite app_assoc.
  split; [reflexivity|]. split; [exact Hl'|]. split; assumption.
Qed.

Lemma levelConfigOf_valid (l : Z) :
  (1 <= l <= 4)%Z ->
  exists c, levelConfigOf l = Some c /\ lv_id c = l
            /\ 0 <= asteroidMinSize c <= asteroidMaxSize c
            /\ asteroidCount c
               = nth (Z.to_nat (l - 1)) [3; 8; 14; 20]%nat 0%nat.
Proof.
  intros H.
  assert (Hl : l = 1%Z \/ l = 2%Z \/ l = 3%Z \/ l = 4%Z) by lia.
  destruct Hl as [-> | [-> | [-> | ->]]];
    [ exists (mkLevelConfig 1 "Level 1" 3 15 25)
    | exists (mkLevelConfig 2 "Level 2" 8 15 30)
    | exists (mkLevelConfig 3 "Level 3" 14 18 28)
    | exists (mkLevelConfig 4 "Level 4" 20 20 32) ];
    (split; [reflexivity|]; split; [reflexivity|];
     split; [cbn [asteroidMinSize asteroidMaxSize]; split; lra|reflexivity]).
Qed.

Lemma levelConfigOf_invalid (l : Z) :
  ~ (1 <= l <= 4)%Z -> levelConfigOf l = None.
Proof.
  intros H. unfold levelConfigOf.
  destruct (l <? 1)%Z eqn:E; [reflexivity|].
  apply Z.ltb_ge in E. apply nth_error_None.
  unfold LEVELS_DATA_levels. cbn [List.length]. lia.
Qed.

Lemma map_type_repeat (t : BodyType.t) (l : list Body.t) :
  Forall (fun b => Body.type b = t) l ->
  map Body.type l = repeat t (List.length l).
Proof.
  induction 1 as [|b l Hb _ IH]; [reflexivity|].
  cbn. now rewrite Hb, IH.
Qed.

Lemma Forall_nth_error {A} (P : A -> Prop) (l : list A) :
  (forall k b, nth_error l k = Some b -> P b) -> Forall P l.
Proof.
  intros H. apply Forall_forall. intros b Hin.
  apply In_nth_error in Hin as [k Hk]. apply (H k b Hk).
Qed.

Lemma parentsEarlier_app (l1 l2 : list Body.t) :
  parentsEarlier l1 ->
  Forall (fun b => forall j, Body.parentBody b = Some j ->
                             (j < List.length l1)%nat) l2 ->
  parentsEarlier (l1 ++ l2).
Proof.
  intros H1 H2 i b j Hn Hp.
  destruct (Nat.lt_ge_cases i (List.length l1)) as [Hlt|Hge].
  - rewrite nth_error_app1 in Hn by exact Hlt. apply (H1 i b j Hn Hp).
  - rewrite nth_error_app2 in Hn by exact Hge.
    apply nth_error_In in Hn. rewrite Forall_forall in H2.
    specialize (H2 b Hn j Hp). lia.
Qed.

Lemma parentsEarlier_planets (rng : nat -> R) (w : World) :
  parentsEarlier (planets rng w).
Proof.
  intros i b j Hn Hp.
  do 5 (destruct i as [|i]; [cbn in Hn; injection Hn as <-; cbn in Hp;
                             first [discriminate | injection Hp as <-; lia]|]).
  destruct i; discriminate.
Qed.

Lemma planets_types (rng : nat -> R) (w : World) :
  Body.type (sunOf rng w) = BodyType.sun
  /\ Body.type (earthOf rng w) = BodyType.target_start
  /\ Body.type (moonOf rng w) = BodyType.moon
  /\ Body.type (marsOf rng w) = BodyType.target_end
  /\ Body.type (saturnOf rng w) = BodyType.saturn.
Proof. repeat split. Qed.

Lemma find_launch_planets (rng : nat -> R) (w : World) (rest : list Body.t) :
  find (fun b => BodyType.eqb (Body.type b) BodyType.target_start)
       (planets rng w ++ rest) = Some (earthOf rng w).
Proof.
  destruct (planets_types rng w) as (H1 & H2 & _).
  unfold planets. cbn [app find]. rewrite H1, H2. reflexivity.
Qed.

Lemma find_destination_planets (rng : nat -> R) (w : World)
      (rest : list Body.t) :
  find (fun b => BodyType.eqb (Body.type b) BodyType.target_end)
       (planets rng w ++ rest) = Some (marsOf rng w).
Proof.
  destruct (planets_types rng w) as (H1 & H2 & H3 & H4 & _).
  unfold planets. cbn [app find]. rewrite H1, H2, H3, H4. reflexivity.
Qed.

(** [createSolarSystem] for a level from 1 to 4. *)
Lemma createSolarSystem_done (rng : nat -> R) (w : World) :
  (1 <= level (gameState w) <= 4)%Z ->
  exists rest n,
    createSolarSystem rng w
    = Done (set_rngPos n (set_bodies (planets rng w ++ rest) w))
    /\ (5 + List.length rest)%nat = bodyCount (level (gameState w)).
Proof.
  intros Hlv.
  destruct (levelConfigOf_valid _ Hlv) as (c & Hc & _ & _ & Hcount).
  destruct (createSolarSystem_parts rng w) as (rs & n & Hl & _ & H).
  rewrite Hc in H. destruct H as (bs & m & E & Hlb & _).
  exists (rs ++ bs), m. split; [exact E|].
  rewrite length_app, Hl, Hlb, Hcount. reflexivity.
Qed.

(** [createSolarSystem] for any other level. *)
Lemma createSolarSystem_thrown (rng : nat -> R) (w : World) :
  ~ (1 <= level (gameState w) <= 4)%Z ->
  exists rs n,
    createSolarSystem rng w
    = Thrown (set_rngPos n (set_bodies (planets rng w ++ rs) w))
    /\ List.length rs = 12%nat.
Proof.
  intros Hlv.
  destruct (createSolarSystem_parts rng w) as (rs & n & Hl & _ & H).
  rewrite (levelConfigOf_invalid _ Hlv) in H.
  exists rs, n. split; assumption.
Qed.

(** X4.  The layout of a level.  For a level from 1 to 4
    [createSolarSystem] returns; it changes nothing but [physics.bodies]
    (and takes random numbers); the list holds the sun, the launch body, the
    moon, the destination and Saturn, then the 12 rocks of the ring, then
    the 3, 8, 14 or 20 asteroids of the level, so 20, 25, 31 or 37 bodies
    with exactly one launch body and one destination; every parent stands
    before its children; and every body is static or circles a fixed point
    or a parent, so gravity moves none of them. *)
Theorem createSolarSystem_layout (rng : nat -> R) (w : World) :
  (1 <= level (gameState w) <= 4)%Z ->
  exists c w',
    levelConfigOf (level (gameState w)) = Some c
    /\ asteroidCount c
       = nth (Z.to_nat (level (gameState w) - 1)) [3; 8; 14; 20]%nat 0%nat
    /\ createSolarSystem rng w = Done w'
    /\ rebuilt w w'
    /\ firstn 5 (bodies (physics w')) = planets rng w
    /\ map Body.type (bodies (physics w')) = systemTypes (asteroidCount c)
    /\ List.length (bodies (physics w')) = (17 + asteroidCount c)%nat
    /\ launchBody w' = Some (earthOf rng w)
    /\ find (fun b => BodyType.eqb (Body.type b) BodyType.target_end)
            (bodies (physics w')) = Some (marsOf rng w)
    /\ parentsEarlier (bodies (physics w'))
    /\ Forall onRails (bodies (physics w')).
Proof.
  intros Hlv.
  destruct (levelConfigOf_valid _ Hlv) as (c & Hc & _ & _ & Hcount).
  destruct (createSolarSystem_parts rng w) as (rs & n & Hl & Hrs & H).
  rewrite Hc in H. destruct H as (bs & m & E & Hlb & Hat & _).
  assert (Hring : Forall (fun b => Body.type b = BodyType.obstacle
                                   /\ Body.parentBody b = Some 4%nat) rs).
  { apply Forall_nth_error. intros k b Hk.
    destruct (Hrs k b Hk) as ((Hcon & _ & Hp & _) & _).
    split; [apply Hcon|exact Hp]. }
  exists c. eexists. split; [exact Hc|]. split; [exact Hcount|].
  split; [exact E|].
  cbn [bodies physics set_rngPos set_bodies set_physics].
  split; [|split; [|split; [|split; [|split; [|split; [|split]]]]]].
  - eexists. eexists. reflexivity.
  - reflexivity.
  - rewrite !map_app.
    rewrite (map_type_repeat BodyType.obstacle rs)
      by (eapply Forall_impl; [|exact Hring]; intros b Hb; apply Hb).
    rewrite (map_type_repeat BodyType.obstacle bs)
      by (eapply Forall_impl; [|exact Hat]; intros b Hb; apply Hb).
    rewrite Hl, Hlb. unfold systemTypes. rewrite repeat_app. reflexivity.
  - rewrite !length_app, Hl, Hlb. reflexivity.
  - apply find_launch_planets.
  - apply find_destination_planets.
  - apply parentsEarlier_app; [apply parentsEarlier_planets|].
    apply Forall_app. split.
    + eapply Forall_impl; [|exact Hring]. intros b [_ Hp] j Hj.
      rewrite Hp in Hj. injection Hj as <-. cbn. lia.
    + eapply Forall_impl; [|exact Hat].
      intros b (_ & _ & _ & _ & _ & _ & Hp) j Hj. congruence.
  - apply Forall_app. split.
    + unfold planets.
      apply Forall_cons; [left; reflexivity|].
      apply Forall_cons; [right; left; discriminate|].
      apply Forall_cons; [right; right; discriminate|].
      apply Forall_cons; [right; left; discriminate|].
      apply Forall_cons; [right; left; discriminate|].
      apply Forall_nil.
    + apply Forall_app. split.
      * eapply Forall_impl; [|exact Hring]. intros b [_ Hp].
        right. right. congruence.
      * eapply Forall_impl; [|exact Hat].
        intros b (_ & _ & _ & _ & _ & Hc' & _). right. left. congruence.
Qed.

(** Level 1 in the sample world: 20 bodies. *)
Lemma createSolarSystem_layout_witness :
  (1 <= level (gameState Sample.world) <= 4)%Z
  /\ exists w',
       createSolarSystem (fun _ => 0) Sample.world = Done w'
       /\ List.length (bodies (physics w')) = 20%nat
       /\ Forall onRails (bodies (physics w')).
Proof.
  assert (Hl : (1 <= level (gameState Sample.world) <= 4)%Z) by (cbn; lia).
  split; [exact Hl|].
  destruct (createSolarSystem_layout (fun _ => 0) Sample.world Hl)
    as (c & w' & _ & Hc & E & _ & _ & _ & Hn & _ & _ & _ & Hrails).
  exists w'. split; [exact E|]. split; [|exact Hrails].
  rewrite Hn, Hc. reflexivity.
Defined.

(** X5.  The ring and the asteroid belt.  With random numbers in the unit
    range and a scale factor that is not negative: the rock number [k] of
    the ring hangs on Saturn at the angle [k/12] of a turn, 30 to 40 scaled
    units out, at a speed between 0.05 and 0.07; an asteroid circles the
    centre of the arena between the two edges of the belt, at a speed
    between 0.002 and 0.006 in either direction; its radius is the size of
    the level multiplied by the scale factor twice; and each of them has a
    polygon of 6 to 9 corners. *)
Theorem createSolarSystem_belt (rng : nat -> R) (w w' : World) :
  unitRange rng ->
  0 <= scaleFactor (gameData w) ->
  createSolarSystem rng w = Done w' ->
  let g := gameData w in
  exists c,
    levelConfigOf (level (gameState w)) = Some c
    /\ forall i b,
         nth_error (bodies (physics w')) i = Some b ->
         ((5 <= i < 17)%nat ->
          ringRockAt (scaleFactor g) 4 (i - 5) b
          /\ ringRockRange (scaleFactor g) b)
         /\ ((17 <= i)%nat -> asteroidAt g b /\ asteroidRange c g b).
Proof.
  intros Hr H0 E g.
  destruct (createSolarSystem_parts rng w) as (rs & n & Hl & Hrs & H).
  destruct (levelConfigOf (level (gameState w))) as [c|] eqn:Hc;
    [|rewrite H in E; discriminate].
  destruct H as (bs & m & E' & Hlb & Hat & Hrange).
  rewrite E' in E. injection E as <-.
  assert (Hlv : (1 <= level (gameState w) <= 4)%Z).
  { destruct (Z_le_dec 1 (level (gameState w)));
      [destruct (Z_le_dec (level (gameState w)) 4); [lia|]|];
      rewrite levelConfigOf_invalid in Hc by lia; discriminate. }
  destruct (levelConfigOf_valid _ Hlv) as (c' & Hc' & _ & Hsizes & _).
  rewrite Hc in Hc'. injection Hc' as <-.
  specialize (Hrange Hr H0 Hsizes).
  exists c. split; [reflexivity|].
  cbn [bodies physics set_rngPos set_bodies set_physics].
  intros i b Hn. split.
  - intros [H5 H17].
    do 5 (destruct i as [|i]; [lia|]). cbn [nth_error Nat.sub] in Hn |- *.
    rewrite nth_error_app1 in Hn by lia.
    rewrite Nat.sub_0_r.
    destruct (Hrs _ _ Hn) as [Ha Hb]. split; [exact Ha|]. apply Hb; assumption.
  - intros H17.
    do 5 (destruct i as [|i]; [lia|]). cbn [nth_error] in Hn.
    rewrite nth_error_app2 in Hn by lia.
    apply nth_error_In in Hn. rewrite Forall_forall in Hat, Hrange.
    split; [apply Hat|apply Hrange]; exact Hn.
Qed.

(** Level 1 in the sample world, every random number zero. *)
Lemma createSolarSystem_belt_witness :
  let rng := fun _ : nat => 0 in
  unitRange rng
  /\ 0 <= scaleFactor (gameData Sample.world)
  /\ exists w',
       createSolarSystem rng Sample.world = Done w'
       /\ forall i b,
            nth_error (bodies (physics w')) i = Some b ->
            (17 <= i)%nat -> asteroidAt (gameData Sample.world) b.
Proof.
  intros rng.
  assert (Hr : unitRange rng) by (intros n; unfold rng; lra).
  assert (H0 : 0 <= scaleFactor (gameData Sample.world)) by (cbn; lra).
  split; [exact Hr|]. split; [exact H0|].
  destruct (createSolarSystem_done rng Sample.world) as (rest & n & E & _);
    [cbn; lia|].
  eexists. split; [exact E|]. intros i b Hi H17.
  pose proof (createSolarSystem_belt rng Sample.world _ Hr H0 E) as H.
  cbv zeta in H. destruct H as (c & _ & H).
  destruct (H i b Hi) as [_ Ha]. apply Ha, H17.
Defined.

(* ================================================================== *)
(** * 22. The stars *)
(* ================================================================== *)

Lemma starsInit_spec (rng : nat -> R) (n : nat) :
  forall w,
    exists l k,
      starsInit rng n w = set_rngPos k (set_stars (stars (physics w) ++ l) w)
      /\ List.length l = n
      /\ (unitRange rng -> 0 <= width (gameData w) ->
          0 <= height (gameData w) -> Forall (starIn (gameData w)) l).
Proof.
  induction n as [|n IH]; intros w.
  - exists [], (rngPos w). cbn [starsInit]. split; [|split].
    + rewrite app_nil_r. destruct w as [? ? [] ? ? ? ?]. reflexivity.
    + reflexivity.
    + intros; constructor.
  - cbn [starsInit random]. cbv beta iota zeta.
    match goal with |- context [starsInit rng n ?w1] =>
      destruct (IH w1) as (l & k & E & Hl & Hin); rewrite E end.
    cbn [gameData set_stars set_physics set_rngPos stars physics rngPos]
      in Hin |- *.
    eexists (_ :: l), k. split; [|split].
    + rewrite <- app_assoc. reflexivity.
    + cbn [List.length]. now rewrite Hl.
    + intros Hr Hw Hh. constructor; [|now apply Hin].
      unfold starIn. cbn [star_x star_y star_size star_alpha].
      pose proof (Hr (rngPos w)). pose proof (Hr (S (rngPos w))).
      pose proof (Hr (S (S (rngPos w)))).
      pose proof (Hr (S (S (S (rngPos w))))).
      repeat split; nra.
Qed.

Lemma initStars_spec (rng : nat -> R) (w : World) :
  exists l k,
    initStars rng w = set_rngPos k (set_stars l w)
    /\ List.length l = 150%nat
    /\ (unitRange rng -> 0 <= width (gameData w) ->
        0 <= height (gameData w) -> Forall (starIn (gameData w)) l).
Proof.
  unfold initStars.
  destruct (starsInit_spec rng 150 (set_stars [] w)) as (l & k & E & Hl & H).
  exists l, k. rewrite E. split; [reflexivity|]. split; assumption.
Qed.

Lemma starsLoop_spec (rng : nat -> R) (todo : list Star) :
  forall done w,
    exists l k,
      starsLoop rng done todo w = (done ++ l, set_rngPos k w)
      /\ map starPlace l = map starPlace todo
      /\ (unitRange rng -> forall g, Forall (starIn g) todo ->
                                     Forall (starIn g) l).
Proof.
  induction todo as [|s rest IH]; intros done w.
  - exists [], (rngPos w). cbn [starsLoop]. split; [|split].
    + rewrite app_nil_r. destruct w; reflexivity.
    + reflexivity.
    + intros; constructor.
  - cbn [starsLoop random].
    destruct (Rlt_dec (rng (rngPos w)) (1 / 100)).
    + match goal with |- context [starsLoop rng ?d rest ?w1] =>
        destruct (IH d w1) as (l & k & E & Hp & Hin); rewrite E end.
      eexists (_ :: l), k. split; [|split].
      * rewrite <- app_assoc. reflexivity.
      * cbn [map]. now rewrite Hp.
      * intros Hr g Hall. inversion Hall as [|? ? Hs Hrest]; subst.
        constructor; [|now apply Hin].
        destruct Hs as (Hx & Hy & Hz & _).
        unfold starIn.
        cbn [star_x star_y star_size star_alpha rngPos set_rngPos].
        pose proof (Hr (S (rngPos w))). repeat split; try tauto; nra.
    + match goal with |- context [starsLoop rng ?d rest ?w1] =>
        destruct (IH d w1) as (l & k & E & Hp & Hin); rewrite E end.
      exists (s :: l), k. split; [|split].
      * rewrite <- app_assoc. reflexivity.
      * cbn [map]. now rewrite Hp.
      * intros Hr g Hall. inversion Hall; subst.
        constructor; [assumption|now apply Hin].
Qed.

Lemma twinkle_spec (rng : nat -> R) (w : World) :
  exists l k,
    twinkle rng w = set_rngPos k (set_stars l w)
    /\ map starPlace l = map starPlace (stars (physics w))
    /\ (unitRange rng -> forall g, Forall (starIn g) (stars (physics w)) ->
                                   Forall (starIn g) l).
Proof.
  unfold twinkle.
  destruct (starsLoop_spec rng (stars (physics w)) [] w)
    as (l & k & E & Hp & Hin).
  rewrite E. exists l, k. split; [reflexivity|]. split; assumption.
Qed.

(** X6.  The stars.  With random numbers in the unit range, [initStars]
    leaves exactly 150 stars, each inside the canvas, of a size up to 1.5
    and an opacity from 0.2 to 1, and changes nothing else; the twinkle of a
    frame keeps the number of the stars, the place and the size of each,
    and the opacity within that range. *)
Theorem stars_stay_in_range (rng : nat -> R) (w : World) :
  unitRange rng ->
  0 <= width (gameData w) ->
  0 <= height (gameData w) ->
  let w1 := initStars rng w in
  (exists k, w1 = set_rngPos k (set_stars (stars (physics w1)) w))
  /\ List.length (stars (physics w1)) = 150%nat
  /\ Forall (starIn (gameData w)) (stars (physics w1))
  /\ forall w2 : World,
       let w3 := twinkle rng w2 in
       (exists k, w3 = set_rngPos k (set_stars (stars (physics w3)) w2))
       /\ map starPlace (stars (physics w3))
          = map starPlace (stars (physics w2))
       /\ List.length (stars (physics w3)) = List.length (stars (physics w2))
       /\ (Forall (starIn (gameData w2)) (stars (physics w2)) ->
           Forall (starIn (gameData w2)) (stars (physics w3))).
Proof.
  intros Hr Hw Hh w1. subst w1.
  destruct (initStars_spec rng w) as (l & k & E & Hl & Hin). rewrite E.
  cbn [stars physics set_rngPos set_stars set_physics].
  split; [exists k; reflexivity|]. split; [exact Hl|].
  split; [now apply Hin|].
  intros w2. cbv zeta.
  destruct (twinkle_spec rng w2) as (l2 & k2 & E2 & Hp & Hin2). rewrite E2.
  cbn [stars physics set_rngPos set_stars set_physics].
  split; [exists k2; reflexivity|]. split; [exact Hp|]. split.
  - rewrite <- (length_map starPlace l2), Hp. apply length_map.
  - apply Hin2, Hr.
Qed.

(** The stars of the sample world, 800 by 800. *)
Lemma stars_stay_in_range_witness :
  let rng := fun _ : nat => 1 / 2 in
  unitRange rng
  /\ 0 <= width (gameData Sample.world)
  /\ 0 <= height (gameData Sample.world)
  /\ Forall (starIn (gameData Sample.world))
            (stars (physics (initStars rng Sample.world))).
Proof.
  intros rng.
  assert (Hr : unitRange rng) by (intros n; unfold rng; lra).
  assert (Hw : 0 <= width (gameData Sample.world)) by (cbn; lra).
  assert (Hh : 0 <= height (gameData Sample.world)) by (cbn; lra).
  split; [exact Hr|]. split; [exact Hw|]. split; [exact Hh|].
  pose proof (stars_stay_in_range rng Sample.world Hr Hw Hh) as H.
  cbv zeta in H. exact (proj1 (proj2 (proj2 H))).
Defined.

(* ================================================================== *)
(** * 23. Reset, level change and resize *)
(* ================================================================== *)

(** [resetGame] up to its call of [createSolarSystem]. *)
Lemma resetGame_eq (rng : nat -> R) (a : Action.t) (now : R) (w : World) :
  (a = Action.next -> (1 <= level (gameState w) <= 4)%Z) ->
  resetGame rng a now w
  = match createSolarSystem rng (resetWorld a w) with
    | Thrown w1 => Thrown w1
    | Done w1 => Done (set_accumulator 0 (set_lastTimestamp now w1))
    end.
Proof.
  intros H. unfold resetGame, resetWorld.
  destruct a; cbv zeta; cbn [levelAfter].
  - reflexivity.
  - specialize (H eq_refl).
    cbn [level gameState set_level set_gameState set_ghostTrail set_physics].
    assert (E : (4 <? level (gameState w) + 1)%Z
                = (level (gameState w) =? 4)%Z).
    { destruct (Z.ltb_spec 4 (level (gameState w) + 1));
        destruct (Z.eqb_spec (level (gameState w)) 4); lia. }
    rewrite E.
    destruct (Z.eqb_spec (level (gameState w)) 4) as [E4|N4].
    + rewrite E4. reflexivity.
    + rewrite Z.mod_small by lia. reflexivity.
  - reflexivity.
Qed.

Lemma levelAfter_valid (a : Action.t) (l : Z) :
  (1 <= l <= 4)%Z -> (1 <= levelAfter a l <= 4)%Z.
Proof.
  intros H. destruct a; cbn [levelAfter]; [lia| |lia].
  pose proof (Z.mod_pos_bound l 4 ltac:(lia)). lia.
Qed.

(** [resetGame] on a level from 1 to 4, in one piece. *)
Lemma resetGame_done (rng : nat -> R) (a : Action.t) (now : R) (w : World) :
  (1 <= level (gameState w) <= 4)%Z ->
  exists rest n,
    resetGame rng a now w
    = Done (set_accumulator 0
              (set_lastTimestamp now
                 (set_rngPos n
                    (set_bodies (planets rng w ++ rest) (resetWorld a w)))))
    /\ (5 + List.length rest)%nat
       = bodyCount (levelAfter a (level (gameState w))).
Proof.
  intros Hlv. rewrite (resetGame_eq rng a now w (fun _ => Hlv)).
  assert (Hv0 : (1 <= level (gameState (resetWorld a w)) <= 4)%Z)
    by apply levelAfter_valid, Hlv.
  destruct (createSolarSystem_done rng (resetWorld a w) Hv0)
    as (rest & n & E & Hlen).
  rewrite E. exists rest, n. split; [reflexivity|exact Hlen].
Qed.

(** X7.  [resetGame] on a level from 1 to 4.  It returns, with the game
    idle and not paused, no rocket, no closest approach on record, no
    message on the screen, the accumulator at zero and the time stamp at the
    time of the call; ['next'] steps the level round the cycle 1, 2, 3, 4, 1
    and ['reset'] goes to level 1, both dropping the ghost trail, ['stay']
    keeps both; the bodies are those of the new level.  Coins, upgrades,
    the thrust flag, the shake and the particles are left as they are. *)
Theorem resetGame_spec (rng : nat -> R) (a : Action.t) (now : R) (w : World) :
  (1 <= level (gameState w) <= 4)%Z ->
  exists w',
    resetGame rng a now w = Done w'
    /\ mode (gameState w') = IDLE
    /\ isPaused (gameState w') = false
    /\ rocket (physics w') = None
    /\ closestDist (gameState w') = Infinity
    /\ messageShown (ui w') = false
    /\ accumulator (gameData w') = 0
    /\ lastTimestamp (gameData w') = now
    /\ level (gameState w') = levelAfter a (level (gameState w))
    /\ (1 <= level (gameState w') <= 4)%Z
    /\ ghostTrail (physics w')
       = match a with
         | Action.stay => ghostTrail (physics w)
         | _ => []
         end
    /\ firstn 5 (bodies (physics w')) = planets rng w
    /\ List.length (bodies (physics w')) = bodyCount (level (gameState w'))
    /\ coins (gameState w') = coins (gameState w)
    /\ upgrades w' = upgrades w
    /\ isThrusting (gameState w') = isThrusting (gameState w)
    /\ shakeStrength (gameState w') = shakeStrength (gameState w)
    /\ particles (physics w') = particles (physics w)
    /\ particlePool (physics w') = particlePool (physics w)
    /\ stars (physics w') = stars (physics w)
    /\ mouse w' = mouse w.
Proof.
  intros Hlv.
  destruct (resetGame_done rng a now w Hlv) as (rest & n & E & Hlen).
  rewrite E. eexists. split; [reflexivity|].
  cbn [gameState gameData physics ui upgrades mouse set_accumulator
       set_lastTimestamp set_gameData set_rngPos set_bodies set_physics
       mode isPaused rocket closestDist messageShown accumulator
       lastTimestamp level ghostTrail bodies coins isThrusting
       shakeStrength particles particlePool stars resetWorld].
  repeat split; try reflexivity.
  - apply levelAfter_valid, Hlv.
  - apply levelAfter_valid, Hlv.
  - rewrite length_app. cbn [planets List.length]. exact Hlen.
Qed.

(** From level 1 of the sample world to level 2, with its 25 bodies. *)
Lemma resetGame_spec_witness :
  (1 <= level (gameState Sample.world) <= 4)%Z
  /\ exists w',
       resetGame (fun _ => 0) Action.next 2 Sample.world = Done w'
       /\ level (gameState w') = 2%Z
       /\ List.length (bodies (physics w')) = 25%nat
       /\ coins (gameState w') = 100%Z.
Proof.
  assert (Hl : (1 <= level (gameState Sample.world) <= 4)%Z) by (cbn; lia).
  split; [exact Hl|].
  destruct (resetGame_spec (fun _ => 0) Action.next 2 Sample.world Hl)
    as (w' & E & _ & _ & _ & _ & _ & _ & _ & Hlv & _ & _ & _ & Hn & Hc & _).
  exists w'. split; [exact E|].
  assert (Hlv' : level (gameState w') = 2%Z) by (rewrite Hlv; reflexivity).
  split; [exact Hlv'|]. split; [rewrite Hn, Hlv'; reflexivity|].
  rewrite Hc. reflexivity.
Defined.

(** X8.  After any reset on a level from 1 to 4 the game can be played:
    the next release of the pointer launches.  The game is in flight, the
    coins are those from before the reset, no closest approach is on
    record, and the rocket is new: type ['rocket'], mass 1, a full tank,
    age 0, no trail, no acceleration, and the velocity that
    [getLaunchVector] gives for the pointer. *)
Theorem reset_then_launch (rng : nat -> R) (a : Action.t) (now : R)
      (e : option Vector.t) (w : World) :
  (1 <= level (gameState w) <= 4)%Z ->
  let w1 := worldOf (resetGame rng a now w) in
  let w2 := inputEnd rng e w1 in
  mode (gameState w2) = FLYING
  /\ closestDist (gameState w2) = Infinity
  /\ coins (gameState w2) = coins (gameState w)
  /\ bodies (physics w2) = bodies (physics w1)
  /\ exists r,
       rocket (physics w2) = Some r
       /\ Body.type r = BodyType.rocket
       /\ Body.mass r = 1
       /\ Body.fuel r = maxFuel (UpgradeSystem.getStats w)
       /\ Body.age r = 0%nat
       /\ Body.trail r = []
       /\ Body.acc r = Vector.mk 0 0
       /\ Body.vel r = fst (getLaunchVector (updateMouse e w1)).
Proof.
  intros Hlv.
  destruct (resetGame_done rng a now w Hlv) as (rest & n & E & _).
  intros w1 w2. subst w2 w1. rewrite E. cbn [worldOf].
  match goal with |- context [inputEnd rng e ?x] => set (w1 := x) end.
  set (w2 := inputEnd rng e w1).
  assert (Hm : mode (gameState w1) = IDLE) by reflexivity.
  assert (Hb : launchBody w1 = Some (earthOf rng w))
    by apply find_launch_planets.
  assert (E2 : w2 = launch rng e w1)
    by (unfold w2, inputEnd; rewrite Hm; reflexivity).
  rewrite E2, (launch_eq rng e w1 _ Hb).
  split; [reflexivity|].
  split; [destruct e; reflexivity|]. split; [destruct e; reflexivity|].
  split; [destruct e; reflexivity|].
  eexists. split; [reflexivity|].
  unfold launchedRocket.
  cbn [Body.type Body.mass Body.fuel Body.age Body.trail Body.acc Body.vel].
  repeat split.
Qed.

(** A retry in the sample world, then a release of the pointer at
    (700, 300). *)
Lemma reset_then_launch_witness :
  let w1 := worldOf (resetGame (fun _ => 0) Action.stay 2 Sample.world) in
  let w2 := inputEnd (fun _ => 0) (Some (Vector.mk 700 300)) w1 in
  (1 <= level (gameState Sample.world) <= 4)%Z
  /\ mode (gameState w2) = FLYING
  /\ exists r, rocket (physics w2) = Some r /\ Body.fuel r = 100.
Proof.
  intros w1 w2.
  assert (Hl : (1 <= level (gameState Sample.world) <= 4)%Z) by (cbn; lia).
  split; [exact Hl|].
  pose proof (reset_then_launch (fun _ => 0) Action.stay 2
                (Some (Vector.mk 700 300)) Sample.world Hl) as H.
  cbv zeta in H. fold w1 in H. fold w2 in H.
  destruct H as (Hm & _ & _ & _ & r & Hr & _ & _ & Hf & _).
  split; [exact Hm|]. exists r. split; [exact Hr|].
  rewrite Hf. cbn. lra.
Defined.

(** X9.  [changeLevel] for a value that reads as the integer [v].  In any
    case the level becomes [v], the game is idle with no rocket, and the sun
    and the planets are rebuilt, so there is a launch body.  For [v] from 1
    to 4 the function returns with the bodies of that level and the timing
    reset.  For any other [v] it throws when it looks up the level: the
    list ends after the ring (17 bodies, no asteroids), and the accumulator
    and the time stamp are not reset. *)
Theorem changeLevel_spec (rng : nat -> R) (v : Z) (now : R) (w : World) :
  let r := changeLevel rng v now w in
  let w' := worldOf r in
  level (gameState w') = v
  /\ mode (gameState w') = IDLE
  /\ isPaused (gameState w') = false
  /\ rocket (physics w') = None
  /\ closestDist (gameState w') = Infinity
  /\ ghostTrail (physics w') = ghostTrail (physics w)
  /\ coins (gameState w') = coins (gameState w)
  /\ firstn 5 (bodies (physics w')) = planets rng w
  /\ launchBody w' = Some (earthOf rng w)
  /\ ((1 <= v <= 4)%Z ->
      r = Done w'
      /\ List.length (bodies (physics w')) = bodyCount v
      /\ accumulator (gameData w') = 0
      /\ lastTimestamp (gameData w') = now)
  /\ (~ (1 <= v <= 4)%Z ->
      r = Thrown w'
      /\ List.length (bodies (physics w')) = 17%nat
      /\ accumulator (gameData w') = accumulator (gameData w)
      /\ lastTimestamp (gameData w') = lastTimestamp (gameData w)).
Proof.
  intros r w'. subst w' r. unfold changeLevel.
  rewrite resetGame_eq by discriminate.
  set (w0 := resetWorld Action.stay (set_level v w)).
  assert (Hp : planets rng w0 = planets rng w) by reflexivity.
  assert (Hl0 : level (gameState w0) = v) by reflexivity.
  assert (Hshape : exists rest n,
             (createSolarSystem rng w0
              = Done (set_rngPos n (set_bodies (planets rng w ++ rest) w0))
              /\ (1 <= v <= 4)%Z
              /\ (5 + List.length rest)%nat = bodyCount v)
             \/ (createSolarSystem rng w0
                 = Thrown (set_rngPos n
                             (set_bodies (planets rng w ++ rest) w0))
                 /\ ~ (1 <= v <= 4)%Z
                 /\ List.length rest = 12%nat)).
  { destruct (Z_le_dec 1 v) as [H1|H1];
      [destruct (Z_le_dec v 4) as [H4|H4]|].
    1:{ assert (Hv : (1 <= level (gameState w0) <= 4)%Z)
          by (rewrite Hl0; lia).
        destruct (createSolarSystem_done rng w0 Hv) as (rest & n & E & Hlen).
        rewrite Hp in E. rewrite Hl0 in Hlen.
        exists rest, n. left. split; [exact E|]. split; [lia|exact Hlen]. }
    all: assert (Hv : ~ (1 <= level (gameState w0) <= 4)%Z)
           by (rewrite Hl0; lia);
         destruct (createSolarSystem_thrown rng w0 Hv) as (rs & n & E & Hlen);
         rewrite Hp in E; exists rs, n; right;
         (split; [exact E|]); split; [lia|exact Hlen]. }
  destruct Hshape as (rest & n & [(E & Hv & Hlen)|(E & Hv & Hlen)]);
    rewrite E; cbn [worldOf];
    (split; [reflexivity|]); (split; [reflexivity|]);
    (split; [reflexivity|]); (split; [reflexivity|]);
    (split; [reflexivity|]); (split; [reflexivity|]);
    (split; [reflexivity|]); (split; [reflexivity|]);
    (split; [apply find_launch_planets|]).
  - split; [|intros H; contradiction]. intros _.
    split; [reflexivity|]. split; [|split; reflexivity].
    cbn [bodies physics set_accumulator set_lastTimestamp set_gameData
         set_rngPos set_bodies set_physics].
    rewrite length_app. exact Hlen.
  - split; [intros H; contradiction|]. intros _.
    split; [reflexivity|]. split; [|split; reflexivity].
    cbn [bodies physics set_rngPos set_bodies set_physics].
    rewrite length_app, Hlen. reflexivity.
Qed.

Lemma scaleFor_range (iw ih : R) : 6 / 10 <= scaleFor iw ih <= 12 / 10.
Proof.
  unfold scaleFor. split.
  - apply Rmax_l.
  - apply Rmax_lub; [lra|apply Rmin_l].
Qed.

(** The two tests of [resize] compute [scaleFor]. *)
Lemma scaleFor_eq (iw ih : R) :
  let s0 := Rmin iw ih / 800 in
  let s1 := if Rlt_dec (12 / 10) s0 then 12 / 10 else s0 in
  (if Rlt_dec s1 (6 / 10) then 6 / 10 else s1) = scaleFor iw ih.
Proof.
  intros s0 s1. subst s1. unfold scaleFor. fold s0.
  destruct (Rlt_dec (12 / 10) s0) as [H|H].
  - destruct (Rlt_dec (12 / 10) (6 / 10)) as [H'|H']; [lra|].
    rewrite Rmin_left by lra. rewrite Rmax_right by lra. reflexivity.
  - rewrite (Rmin_right (12 / 10) s0) by lra.
    destruct (Rlt_dec s0 (6 / 10)) as [H'|H'].
    + rewrite Rmax_left by lra. reflexivity.
    + rewrite Rmax_right by lra. reflexivity.
Qed.

Lemma resize_eq (rng : nat -> R) (iw ih now : R) (w : World) :
  resize rng iw ih now w
  = match mode (gameState w) with
    | IDLE => resetGame rng Action.stay now (initStars rng (resized iw ih w))
    | _ => Done (initStars rng (resized iw ih w))
    end.
Proof.
  assert (E : forall w1, mode (gameState (initStars rng w1))
                         = mode (gameState w1)).
  { intros w1. destruct (initStars_spec rng w1) as (l & k & -> & _).
    reflexivity. }
  unfold resize. cbv zeta. rewrite E.
  pose proof (scaleFor_eq iw ih) as Hs. cbv zeta in Hs.
  unfold resized. rewrite <- Hs.
  cbn [gameData set_width set_height set_cx set_cy set_scaleFactor
       set_gameData width height cx cy scaleFactor frameCount lastTimestamp
       accumulator].
  destruct (Rlt_dec (12 / 10) (Rmin iw ih / 800));
    cbn [gameData set_scaleFactor set_gameData scaleFactor width height cx cy
         frameCount lastTimestamp accumulator];
    match goal with |- context [Rlt_dec ?a (6 / 10)] =>
      destruct (Rlt_dec a (6 / 10)) end;
    reflexivity.
Qed.

Lemma earthOf_fields (rng : nat -> R) (w : World) :
  let g := gameData w in
  Body.pos (earthOf rng w)
  = Vector.mk (cx g + Rmin (width g) (height g) * (22 / 100)) (cy g)
  /\ Body.radius (earthOf rng w) = 10 * scaleFactor g
  /\ Body.orbitCenter (earthOf rng w) = Some (Vector.mk (cx g) (cy g))
  /\ Body.orbitRadius (earthOf rng w)
     = Rmin (width g) (height g) * (22 / 100).
Proof. repeat split. Qed.

(** X10.  [resize] for a window of any size.  The canvas takes the size of
    the window, the centre and the pointer go to its middle, the scale
    factor is a 800th of the smaller side kept between 0.6 and 1.2, and
    there are 150 new stars; coins, level and upgrades stay.  In the idle
    game (on a level from 1 to 4) the bodies are rebuilt for the new size
    and the timing is reset; in any other mode the function returns with
    the bodies, the rocket, the game state and the timing as they were, so
    the bodies keep the radii and orbits of the old size. *)
Theorem resize_spec (rng : nat -> R) (iw ih now : R) (w : World) :
  let r := resize rng iw ih now w in
  let w' := worldOf r in
  width (gameData w') = iw
  /\ height (gameData w') = ih
  /\ cx (gameData w') = iw / 2
  /\ cy (gameData w') = ih / 2
  /\ scaleFactor (gameData w') = scaleFor iw ih
  /\ 6 / 10 <= scaleFactor (gameData w') <= 12 / 10
  /\ mouse w' = Vector.mk (iw / 2) (ih / 2)
  /\ List.length (stars (physics w')) = 150%nat
  /\ coins (gameState w') = coins (gameState w)
  /\ level (gameState w') = level (gameState w)
  /\ upgrades w' = upgrades w
  /\ frameCount (gameData w') = frameCount (gameData w)
  /\ (mode (gameState w) <> IDLE ->
      r = Done w'
      /\ gameState w' = gameState w
      /\ bodies (physics w') = bodies (physics w)
      /\ rocket (physics w') = rocket (physics w)
      /\ accumulator (gameData w') = accumulator (gameData w)
      /\ lastTimestamp (gameData w') = lastTimestamp (gameData w))
  /\ (mode (gameState w) = IDLE ->
      (1 <= level (gameState w) <= 4)%Z ->
      r = Done w'
      /\ List.length (bodies (physics w')) = bodyCount (level (gameState w))
      /\ accumulator (gameData w') = 0
      /\ lastTimestamp (gameData w') = now
      /\ exists earth,
           launchBody w' = Some earth
           /\ Body.radius earth = 10 * scaleFor iw ih
           /\ Body.pos earth
              = Vector.mk (iw / 2 + Rmin iw ih * (22 / 100)) (ih / 2)).
Proof.
  intros r w'. subst w' r. rewrite resize_eq.
  destruct (initStars_spec rng (resized iw ih w)) as (l & k & E & Hl & _).
  rewrite E. set (w1 := set_rngPos k (set_stars l (resized iw ih w))).
  pose proof (scaleFor_range iw ih) as Hrange.
  assert (Hflight :
            let w' := worldOf (Done w1) in
            width (gameData w') = iw
            /\ height (gameData w') = ih
            /\ cx (gameData w') = iw / 2
            /\ cy (gameData w') = ih / 2
            /\ scaleFactor (gameData w') = scaleFor iw ih
            /\ 6 / 10 <= scaleFactor (gameData w') <= 12 / 10
            /\ mouse w' = Vector.mk (iw / 2) (ih / 2)
            /\ List.length (stars (physics w')) = 150%nat
            /\ coins (gameState w') = coins (gameState w)
            /\ level (gameState w') = level (gameState w)
            /\ upgrades w' = upgrades w
            /\ frameCount (gameData w') = frameCount (gameData w)
            /\ (Done w1 = Done w'
                /\ gameState w' = gameState w
                /\ bodies (physics w') = bodies (physics w)
                /\ rocket (physics w') = rocket (physics w)
                /\ accumulator (gameData w') = accumulator (gameData w)
                /\ lastTimestamp (gameData w') = lastTimestamp (gameData w))).
  { cbn [worldOf]. repeat split; first [exact Hl | apply Hrange]. }
  cbv zeta in Hflight.
  destruct (mode (gameState w)) eqn:Hm.
  2,3: repeat (split; [apply Hflight|]);
       (split; [intros _; apply Hflight|intros H; discriminate]).
  rewrite resetGame_eq by discriminate.
  set (w0 := resetWorld Action.stay w1).
  assert (Hp : planets rng w0 = planets rng w1) by reflexivity.
  assert (Hl0 : level (gameState w0) = level (gameState w)) by reflexivity.
  assert (Hshape : exists rest n,
             (createSolarSystem rng w0
              = Done (set_rngPos n (set_bodies (planets rng w1 ++ rest) w0))
              /\ (1 <= level (gameState w) <= 4)%Z
              /\ (5 + List.length rest)%nat
                 = bodyCount (level (gameState w)))
             \/ (createSolarSystem rng w0
                 = Thrown (set_rngPos n
                             (set_bodies (planets rng w1 ++ rest) w0))
                 /\ ~ (1 <= level (gameState w) <= 4)%Z)).
  { destruct (Z_le_dec 1 (level (gameState w))) as [H1|H1];
      [destruct (Z_le_dec (level (gameState w)) 4) as [H4|H4]|].
    1:{ assert (Hv : (1 <= level (gameState w0) <= 4)%Z)
          by (rewrite Hl0; lia).
        destruct (createSolarSystem_done rng w0 Hv) as (rest & n & E' & Hlen).
        rewrite Hp in E'. rewrite Hl0 in Hlen.
        exists rest, n. left. split; [exact E'|]. split; [lia|exact Hlen]. }
    all: assert (Hv : ~ (1 <= level (gameState w0) <= 4)%Z)
           by (rewrite Hl0; lia);
         destruct (createSolarSystem_thrown rng w0 Hv) as (rs & n & E' & _);
         rewrite Hp in E'; exists rs, n; right;
         (split; [exact E'|]); lia. }
  destruct Hshape as (rest & n & [(E' & Hv & Hlen)|(E' & Hv)]);
    rewrite E'; cbn [worldOf];
    (split; [reflexivity|]); (split; [reflexivity|]);
    (split; [reflexivity|]); (split; [reflexivity|]);
    (split; [reflexivity|]); (split; [exact Hrange|]);
    (split; [reflexivity|]); (split; [exact Hl|]);
    (split; [reflexivity|]); (split; [reflexivity|]);
    (split; [reflexivity|]); (split; [reflexivity|]);
    (split; [intros H; contradiction|]); intros _ Hv'; [|contradiction].
  split; [reflexivity|]. split.
  { cbn [bodies physics set_accumulator set_lastTimestamp set_gameData
         set_rngPos set_bodies set_physics].
    rewrite length_app. exact Hlen. }
  split; [reflexivity|]. split; [reflexivity|].
  exists (earthOf rng w1). split; [apply find_launch_planets|].
  destruct (earthOf_fields rng w1) as (Hpos & Hrad & _).
  split; [exact Hrad|exact Hpos].
Qed.

(* ================================================================== *)
(** * 24. The rocket from step to step *)
(* ================================================================== *)

Lemma move_same (fc : nat) (store : list Body.t) (b : Body.t) :
  let bm := Body.move fc store b in
  Body.type bm = Body.type b /\ Body.trail bm = Body.trail b
  /\ Body.age bm = Body.age b /\ Body.acc bm = Body.acc b
  /\ Body.mass bm = Body.mass b /\ Body.radius bm = Body.radius b
  /\ Body.fuel bm = Body.fuel b /\ Body.isStatic bm = Body.isStatic b.
Proof.
  unfold Body.move. cbv zeta.
  destruct (Body.orbitCenter b); [repeat split|].
  destruct (Body.parent store b); [repeat split|].
  destruct (Body.oscillate b); [repeat split|].
  destruct (Body.isStatic b) eqn:E; cbn [negb]; repeat split;
    cbn; now rewrite ?E.
Qed.

(** What [update()] does to the fields that are not position or velocity:
    the acceleration is cleared, a rocket grows one step older, and a planet
    or a rocket gets the new position appended to its trail on every fifth
    frame, the oldest point being dropped once the trail is over its
    limit. *)
Lemma update_fields (fc : nat) (th : bool) (m : Vector.t)
      (store : list Body.t) (b : Body.t) :
  let b' := Body.update fc th m store b in
  Body.type b' = Body.type b
  /\ Body.mass b' = Body.mass b
  /\ Body.radius b' = Body.radius b
  /\ Body.acc b' = Vector.mk 0 0
  /\ Body.age b'
     = (if BodyType.eqb (Body.type b) BodyType.rocket
        then S (Body.age b) else Body.age b)
  /\ Body.pos b' = Body.pos (Body.move fc store b)
  /\ Body.trail b'
     = (if leavesTrail (Body.type b) && (fc mod 5 =? 0)%nat
        then let tr := Body.trail b ++ [Body.pos b'] in
             if (trailLimit (Body.type b) <? List.length tr)%nat
             then tl tr else tr
        else Body.trail b).
Proof.
  destruct (move_same fc store b) as (Ht & Htr & Hage & _ & Hm & Hr & _).
  unfold Body.update. cbv zeta.
  set (bm := Body.move fc store b) in *.
  assert (H0 : Vector.mult (Body.acc bm) 0 = Vector.mk 0 0)
    by (unfold Vector.mult; f_equal; ring).
  rewrite H0. set (b1 := Body.set_acc (Vector.mk 0 0) bm).
  assert (Ht1 : Body.type b1 = Body.type b) by exact Ht.
  rewrite Ht1.
  set (b2 := if BodyType.eqb (Body.type b) BodyType.rocket
             then if th
                  then Body.set_angle
                         (Vector.heading
                            (Vector.sub m
                               (Body.pos (Body.set_age (S (Body.age b1)) b1))))
                         (Body.set_age (S (Body.age b1)) b1)
                  else if Rlt_dec (1 / 10)
                            (Vector.mag
                               (Body.vel (Body.set_age (S (Body.age b1)) b1)))
                       then Body.set_angle
                              (Vector.heading
                                 (Body.vel (Body.set_age (S (Body.age b1)) b1)))
                              (Body.set_age (S (Body.age b1)) b1)
                       else Body.set_age (S (Body.age b1)) b1
             else b1).
  assert (H2 : Body.type b2 = Body.type b
               /\ Body.mass b2 = Body.mass b
               /\ Body.radius b2 = Body.radius b
               /\ Body.acc b2 = Vector.mk 0 0
               /\ Body.age b2
                  = (if BodyType.eqb (Body.type b) BodyType.rocket
                     then S (Body.age b) else Body.age b)
               /\ Body.pos b2 = Body.pos bm
               /\ Body.trail b2 = Body.trail b).
  { subst b2.
    destruct (BodyType.eqb (Body.type b) BodyType.rocket);
      [destruct th;
       [|match goal with |- context [Rlt_dec ?a ?c] =>
           destruct (Rlt_dec a c) end]|];
      cbn; rewrite ?Hage; repeat split; assumption. }
  destruct H2 as (Ht2 & Hm2 & Hr2 & Ha2 & Hage2 & Hp2 & Htr2).
  rewrite Ht2. fold (leavesTrail (Body.type b)).
  fold (trailLimit (Body.type b)).
  destruct (leavesTrail (Body.type b) && (fc mod 5 =? 0)%nat).
  - cbn [Body.type Body.mass Body.radius Body.acc Body.age Body.pos
         Body.trail Body.set_trail].
    rewrite Htr2, Hp2. repeat split; assumption.
  - repeat split; assumption.
Qed.

(** The bodies either all miss the rocket, or there is a first one that the
    rocket hits. *)
Lemma first_hit (w : World) (r : Body.t) (bs : list Body.t) :
  Forall (misses w r) bs
  \/ exists pre body post,
       bs = pre ++ body :: post
       /\ Forall (misses w r) pre
       /\ Body.type body <> BodyType.rocket
       /\ hits w r body.
Proof.
  induction bs as [|b bs IH]; [left; constructor|].
  destruct (BodyType.eqb (Body.type b) BodyType.rocket) eqn:E.
  - apply BodyType_eqb_eq in E.
    destruct IH as [IH|(pre & body & post & -> & Hpre & Ht & Hh)].
    + left. constructor; [now left|exact IH].
    + right. exists (b :: pre), body, post.
      split; [reflexivity|]. split; [|now split].
      constructor; [now left|exact Hpre].
  - apply BodyType_eqb_neq in E.
    destruct (Rlt_dec (distTo b r) (collisionDist b w)) as [Hlt|Hge].
    + right. exists [], b, bs. split; [reflexivity|].
      split; [constructor|]. split; [exact E|exact Hlt].
    + destruct IH as [IH|(pre & body & post & -> & Hpre & Ht & Hh)].
      * left. constructor; [now right|exact IH].
      * right. exists (b :: pre), body, post.
        split; [reflexivity|]. split; [|now split].
        constructor; [now right|exact Hpre].
Qed.

(** [calculateGravity] for a live rocket and a list of bodies that is not
    empty: after the thrust block and the gravity of the bodies, either the
    closest approach is updated, or the collision branch runs for one of the
    bodies. *)
Lemma calculateGravity_shape (rng : nat -> R) (w : World) (r : Body.t) :
  rocket (physics w) = Some r ->
  bodies (physics w) <> [] ->
  exists a,
    let w2 := set_rocket (Some (inLoop w r a)) (thrustBlock rng r w) in
    calculateGravity rng w = closestBlock w2
    \/ exists body,
         In body (bodies (physics w))
         /\ calculateGravity rng w = dispatch rng body r w2.
Proof.
  intros Hr Hne.
  destruct (first_hit w r (bodies (physics w)))
    as [Hall|(pre & body & post & Hb & Hpre & Ht & Hh)].
  - destruct (calculateGravity_clear rng w r Hr Hne Hall) as [a Ha].
    exists a. left. exact Ha.
  - destruct (calculateGravity_hit rng w r pre body post Hr Hb Hpre Ht Hh)
      as [a Ha].
    exists a. right. exists body. split; [|exact Ha].
    rewrite Hb. apply in_elt.
Qed.

(** The rocket part of a step: [update()], then the lost-in-space test. *)
Lemma updateRocket_cases (w : World) (r : Body.t) :
  rocket (physics w) = Some r ->
  let r' := Body.update (frameCount (gameData w)) (isThrusting (gameState w))
                        (mouse w) (bodies (physics w)) r in
  updateRocket w = set_rocket (Some r') w
  \/ updateRocket w = endGame false lost_space (set_rocket (Some r') w).
Proof.
  intros Hr r'. unfold updateRocket. rewrite Hr. cbv zeta. fold r'.
  match goal with |- context [Rlt_dec ?a ?b] => destruct (Rlt_dec a b) end;
    [right|left]; reflexivity.
Qed.

Lemma core_inv (w w' : World) :
  core w = core w' ->
  gameData w = gameData w' /\ gameState w = gameState w'
  /\ rocket (physics w) = rocket (physics w')
  /\ ghostTrail (physics w) = ghostTrail (physics w')
  /\ upgrades w = upgrades w' /\ mouse w = mouse w' /\ ui w = ui w'.
Proof.
  unfold core. intros H. injection H as -> -> -> -> -> -> ->. repeat split.
Qed.

Lemma core_intro (w w' : World) :
  gameData w = gameData w' -> gameState w = gameState w' ->
  rocket (physics w) = rocket (physics w') ->
  ghostTrail (physics w) = ghostTrail (physics w') ->
  upgrades w = upgrades w' -> mouse w = mouse w' -> ui w = ui w' ->
  core w = core w'.
Proof. unfold core. now intros -> -> -> -> -> -> ->. Qed.

Lemma core_updateParticles (w : World) : core (updateParticles w) = core w.
Proof.
  unfold updateParticles. destruct (particleLoop _ _ _). reflexivity.
Qed.

Lemma core_updateBodies (w : World) : core (updateBodies w) = core w.
Proof. reflexivity. Qed.

(** The core of the world after these functions depends on the core
    before them only. *)
Lemma core_set_rocket (x : option Body.t) (w w' : World) :
  core w = core w' -> core (set_rocket x w) = core (set_rocket x w').
Proof.
  intros H. apply core_inv in H as (H1 & H2 & H3 & H4 & H5 & H6 & H7).
  apply core_intro; cbn; assumption || reflexivity.
Qed.

Lemma core_set_closestDist (c : ExtR) (w w' : World) :
  core w = core w' ->
  core (set_closestDist c w) = core (set_closestDist c w').
Proof.
  intros H. apply core_inv in H as (H1 & H2 & H3 & H4 & H5 & H6 & H7).
  apply core_intro; cbn; try assumption. now rewrite H2.
Qed.

Lemma core_set_shakeStrength (s : R) (w w' : World) :
  core w = core w' ->
  core (set_shakeStrength s w) = core (set_shakeStrength s w').
Proof.
  intros H. apply core_inv in H as (H1 & H2 & H3 & H4 & H5 & H6 & H7).
  apply core_intro; cbn; try assumption. now rewrite H2.
Qed.

Lemma core_endGame (success : bool) (reason : Reason) (w w' : World) :
  core w = core w' ->
  core (endGame success reason w) = core (endGame success reason w').
Proof.
  intros H. apply core_inv in H as (H1 & H2 & H3 & H4 & H5 & H6 & H7).
  rewrite !endGame_eq. unfold ghostAfter.
  apply core_intro; cbn; rewrite ?H1, ?H2, ?H3, ?H4, ?H5, ?H6, ?H7;
    reflexivity.
Qed.

Lemma core_spawnExplosion (rng : nat -> R) (x y : R) (color : string)
      (w : World) :
  core (spawnExplosion rng x y color w) = core (set_shakeStrength 10 w).
Proof.
  destruct (spawnExplosion_spec rng x y color w) as [H _].
  apply frameOf_inv in H as (H1 & H2 & _ & H3 & H4 & H5 & H6 & H7).
  apply core_intro; assumption.
Qed.

Lemma core_thrustBlock (rng : nat -> R) (r : Body.t) (w : World) (x : option Body.t) :
  rocket (physics w) = Some r ->
  core (set_rocket x (thrustBlock rng r w)) = core (set_rocket x w).
Proof.
  intros Hr.
  destruct (thrustBlock_spec rng r w Hr)
    as (_ & Hgd & Hgs & _ & Hgt & Hu & Hm & Hui).
  apply core_intro; cbn; assumption || reflexivity.
Qed.

(** The closest-approach block writes a distance below the one on
    record, or nothing. *)
Lemma closestBlock_cases (w : World) :
  exists c,
    closestBlock w = set_closestDist c w
    /\ extLe c (closestDist (gameState w))
    /\ (extNonneg (closestDist (gameState w)) -> extNonneg c).
Proof.
  assert (Hsame : exists c,
             w = set_closestDist c w
             /\ extLe c (closestDist (gameState w))
             /\ (extNonneg (closestDist (gameState w)) -> extNonneg c)).
  { exists (closestDist (gameState w)). split; [|split].
    - destruct w as [? [] ? ? ? ? ?]. reflexivity.
    - destruct (closestDist (gameState w)); cbn; [lra|exact I].
    - tauto. }
  unfold closestBlock.
  destruct (find _ _) as [mars|]; [|exact Hsame].
  destruct (rocket (physics w)) as [r|]; [|exact Hsame].
  destruct (ltClosest _ _) eqn:E; [|exact Hsame].
  eexists. split; [reflexivity|]. split.
  - unfold ltClosest in E. destruct (closestDist (gameState w)); cbn; [|exact I].
    match type of E with context [Rlt_dec ?a ?b] =>
      destruct (Rlt_dec a b); [lra|discriminate] end.
  - intros _. cbn. apply mag_nonneg.
Qed.

Lemma core_closest_same (w : World) :
  core (set_closestDist (closestDist (gameState w)) w) = core w.
Proof. destruct w as [? [] ? ? ? ? ?]. reflexivity. Qed.

Lemma core_shake_same (w : World) :
  core (set_shakeStrength (shakeStrength (gameState w)) w) = core w.
Proof. destruct w as [? [] ? ? ? ? ?]. reflexivity. Qed.

Lemma endGame_shake (success : bool) (reason : Reason) (w : World) :
  shakeStrength (gameState (endGame success reason w))
  = shakeStrength (gameState w).
Proof. rewrite endGame_eq. reflexivity. Qed.

(** [calculateGravity] with a live rocket, seen from the core: the flight
    goes on, with more acceleration, less fuel and perhaps a closer approach
    on record, or it ends in [endGame], with an explosion or without. *)
Lemma calculateGravity_core (rng : nat -> R) (w : World) (r : Body.t) :
  rocket (physics w) = Some r ->
  exists c a f,
    let r1 := Body.set_acc a (Body.set_fuel f r) in
    let w1 := calculateGravity rng w in
    extLe c (closestDist (gameState w))
    /\ (extNonneg (closestDist (gameState w)) -> extNonneg c)
    /\ ((rocket (physics w1) = Some r1
         /\ core w1 = core (set_closestDist c (set_rocket (Some r1) w)))
        \/ exists success reason sh,
             (sh = shakeStrength (gameState w) \/ sh = 10)
             /\ c = closestDist (gameState w)
             /\ core w1
                = core (set_shakeStrength sh
                          (endGame success reason
                             (set_rocket (Some r1) w)))).
Proof.
  intros Hr.
  assert (Hle : extLe (closestDist (gameState w)) (closestDist (gameState w)))
    by (destruct (closestDist (gameState w)); cbn; [lra|exact I]).
  destruct (bodies (physics w)) as [|b0 bs0] eqn:Eb.
  { exists (closestDist (gameState w)), (Body.acc r), (Body.fuel r).
    cbv zeta. rewrite set_acc_fuel_same.
    assert (E : calculateGravity rng w = w)
      by (unfold calculateGravity; rewrite Hr, Eb; reflexivity).
    rewrite E. split; [exact Hle|]. split; [tauto|]. left.
    split; [exact Hr|].
    rewrite (set_rocket_same w _ Hr). symmetry. apply core_closest_same. }
  assert (Hne : bodies (physics w) <> []) by (rewrite Eb; discriminate).
  clear b0 bs0 Eb.
  destruct (calculateGravity_shape rng w r Hr Hne) as (a & Hshape).
  cbv zeta in Hshape.
  set (f := fuelAfter (isThrusting (gameState w)) (Body.fuel r)).
  set (r1 := Body.set_acc a (Body.set_fuel f r)).
  change (inLoop w r a) with r1 in Hshape.
  set (w2 := set_rocket (Some r1) (thrustBlock rng r w)) in Hshape.
  assert (Hc2 : core w2 = core (set_rocket (Some r1) w))
    by apply core_thrustBlock, Hr.
  assert (Hgs2 : gameState w2 = gameState w).
  { apply core_inv in Hc2 as (_ & H & _). exact H. }
  destruct Hshape as [E|(body & _ & E)].
  - destruct (closestBlock_cases w2) as (c & Ec & Hc1 & Hc3).
    rewrite Hgs2 in Hc1, Hc3.
    exists c, a, f. cbv zeta. fold r1. rewrite E, Ec.
    split; [exact Hc1|]. split; [exact Hc3|]. left.
    split; [reflexivity|]. apply core_set_closestDist, Hc2.
  - exists (closestDist (gameState w)), a, f. cbv zeta. fold r1. rewrite E.
    split; [exact Hle|]. split; [tauto|].
    assert (Hland : forall success reason,
               core (endGame success reason w2)
               = core (set_shakeStrength (shakeStrength (gameState w))
                         (endGame success reason (set_rocket (Some r1) w)))).
    { intros success reason.
      rewrite (core_endGame success reason w2 _ Hc2).
      change (shakeStrength (gameState w))
        with (shakeStrength (gameState (set_rocket (Some r1) w))).
      rewrite <- (endGame_shake success reason (set_rocket (Some r1) w)).
      symmetry. apply core_shake_same. }
    assert (Hcrash : forall x y color,
               core (spawnExplosion rng x y color (endGame false crashed w2))
               = core (set_shakeStrength 10
                         (endGame false crashed (set_rocket (Some r1) w)))).
    { intros x y color. rewrite core_spawnExplosion.
      apply core_set_shakeStrength, core_endGame, Hc2. }
    assert (Hgo : rocket (physics w2) = Some r1
                  /\ core w2
                     = core (set_closestDist (closestDist (gameState w))
                               (set_rocket (Some r1) w))).
    { split; [reflexivity|]. rewrite Hc2. symmetry.
      apply (core_closest_same (set_rocket (Some r1) w)). }
    unfold dispatch.
    destruct (Body.type body);
      try (right; exists false, crashed, 10;
           split; [now right|]; split; [reflexivity|]; apply Hcrash).
    + destruct (100 <? Body.age r)%nat.
      * right. exists false, crashed, 10.
        split; [now right|]. split; [reflexivity|]. apply Hcrash.
      * left. exact Hgo.
    + right. exists true, landed, (shakeStrength (gameState w)).
      split; [now left|]. split; [reflexivity|]. apply Hland.
Qed.

Lemma physicsStep_eq (rng : nat -> R) (w : World) :
  physicsStep rng w
  = updateParticles (updateRocket (updateBodies (calculateGravity rng w))).
Proof. reflexivity. Qed.

(** A physics step without a rocket leaves the core as it is. *)
Lemma physicsStep_core_none (rng : nat -> R) (w : World) :
  rocket (physics w) = None -> core (physicsStep rng w) = core w.
Proof.
  intros Hr. rewrite physicsStep_eq.
  assert (E : calculateGravity rng w = w)
    by (unfold calculateGravity; rewrite Hr; reflexivity).
  rewrite E, core_updateParticles, updateRocket_none by exact Hr.
  apply core_updateBodies.
Qed.

(** A physics step with the rocket [r], seen from the core.  Either the
    flight goes on: the rocket is [r] one step later and nothing else
    changes but the closest approach, which can only come down.  Or the
    flight ends in [endGame]; the shake is then as before or, after an
    explosion, 10. *)
Lemma physicsStep_core (rng : nat -> R) (w : World) (r : Body.t) :
  rocket (physics w) = Some r ->
  exists c,
    extLe c (closestDist (gameState w))
    /\ (extNonneg (closestDist (gameState w)) -> extNonneg c)
    /\ ((exists r',
           stepped r r'
           /\ core (physicsStep rng w)
              = core (set_closestDist c (set_rocket (Some r') w)))
        \/ exists r1 success reason sh,
             (Body.trail r1 = Body.trail r \/ stepped r r1)
             /\ (sh = shakeStrength (gameState w) \/ sh = 10)
             /\ core (physicsStep rng w)
                = core (set_shakeStrength sh
                          (endGame success reason
                             (set_closestDist c
                                (set_rocket (Some r1) w))))).
Proof.
  intros Hr. rewrite physicsStep_eq.
  destruct (calculateGravity_core rng w r Hr) as (c & a & f & H).
  cbv zeta in H. destruct H as (Hle & Hnn & H).
  set (r1 := Body.set_acc a (Body.set_fuel f r)) in *.
  set (w1 := calculateGravity rng w) in *.
  exists c. split; [exact Hle|]. split; [exact Hnn|].
  rewrite core_updateParticles.
  destruct H as [(Hr1 & Hc1)|(success & reason & sh & Hsh & -> & Hc1)].
  - set (wb := updateBodies w1).
    assert (Hrb : rocket (physics wb) = Some r1) by exact Hr1.
    assert (Hcb : core wb = core (set_closestDist c (set_rocket (Some r1) w)))
      by (rewrite <- Hc1; apply core_updateBodies).
    pose proof (updateRocket_cases wb r1 Hrb) as Hcases. cbv zeta in Hcases.
    set (r1' := Body.update (frameCount (gameData wb))
                            (isThrusting (gameState wb)) (mouse wb)
                            (bodies (physics wb)) r1) in Hcases.
    assert (Hst : stepped r r1') by (unfold stepped, r1', r1; eauto 8).
    assert (Hc' : core (set_rocket (Some r1') wb)
                  = core (set_closestDist c (set_rocket (Some r1') w)))
      by apply (core_set_rocket _ _ _ Hcb).
    destruct Hcases as [E|E]; rewrite E.
    + left. exists r1'. split; [exact Hst|exact Hc'].
    + right. exists r1', false, lost_space, (shakeStrength (gameState w)).
      split; [now right|]. split; [now left|].
      rewrite (core_endGame _ _ _ _ Hc').
      change (shakeStrength (gameState w))
        with (shakeStrength
                (gameState (set_closestDist c (set_rocket (Some r1') w)))).
      rewrite <- (endGame_shake false lost_space
                    (set_closestDist c (set_rocket (Some r1') w))).
      symmetry. apply core_shake_same.
  - assert (Hnone : rocket (physics (updateBodies w1)) = None).
    { apply core_inv in Hc1 as (_ & _ & H3 & _).
      change (rocket (physics (updateBodies w1))) with (rocket (physics w1)).
      rewrite H3, endGame_eq. reflexivity. }
    rewrite (updateRocket_none _ Hnone), core_updateBodies, Hc1.
    right. exists r1, success, reason, sh.
    split; [now left|]. split; [exact Hsh|].
    apply core_set_shakeStrength, core_endGame. symmetry.
    apply (core_closest_same (set_rocket (Some r1) w)).
Qed.

Lemma extLe_refl (c : ExtR) : extLe c c.
Proof. destruct c; cbn; [lra|exact I]. Qed.

Lemma extLe_trans (a b c : ExtR) : extLe a b -> extLe b c -> extLe a c.
Proof. destruct a, b, c; cbn; try tauto; lra. Qed.

(** A physics step, case by case. *)
Lemma physicsStep_cases (rng : nat -> R) (w : World) :
  stepCases w (physicsStep rng w).
Proof.
  unfold stepCases, flightGoesOn, flightEnds.
  destruct (rocket (physics w)) as [r|] eqn:Hr.
  - destruct (physicsStep_core rng w r Hr) as (c & Hle & Hnn & H).
    destruct H as [(r' & Hst & Hc)|(r1 & success & reason & sh & Ht & Hsh & Hc)];
      apply core_inv in Hc as (H1 & H2 & H3 & H4 & H5 & H6 & H7).
    + rewrite H1, H2, H3, H4, H5, H6, H7.
      cbn [gameData gameState physics upgrades mouse ui set_closestDist
           set_gameState set_rocket set_physics level closestDist rocket
           ghostTrail mode coins isPaused isThrusting shakeStrength].
      repeat (split; [first [reflexivity | assumption]|]).
      left. exists r'. repeat split; assumption.
    + rewrite endGame_eq in H1, H2, H3, H4, H5, H6, H7.
      cbn [gameData gameState physics upgrades mouse ui set_closestDist
           set_gameState set_rocket set_physics set_shakeStrength level
           closestDist rocket ghostTrail mode coins isPaused isThrusting
           shakeStrength ghostAfter messageShown msgTitle msgSuccess]
        in H1, H2, H3, H4, H5, H6, H7.
      rewrite H1, H2, H3, H4, H5, H6, H7.
      cbn [level closestDist mode coins isPaused isThrusting shakeStrength
           messageShown msgTitle msgSuccess].
      repeat (split; [first [reflexivity | assumption]|]).
      right.
      repeat (split; [reflexivity|]).
      split; [exists success, reason; repeat split|].
      split; [destruct Hsh as [->| ->]; [now left|now right]|].
      exists r1. split; [exact Ht|reflexivity].
  - pose proof (physicsStep_core_none rng w Hr) as Hc.
    apply core_inv in Hc as (H1 & H2 & H3 & H4 & H5 & H6 & H7).
    rewrite H1, H2, H3, H4, H5, H6, H7.
    repeat (split; [first [reflexivity | apply extLe_refl | tauto]|]).
    repeat split; first [reflexivity | assumption].
Qed.

(* ================================================================== *)
(** * 25. A flight, tick by tick *)
(* ================================================================== *)

(** The rocket one step later. *)
Lemma stepped_fields (r r' : Body.t) :
  stepped r r' ->
  Body.type r' = Body.type r
  /\ Body.mass r' = Body.mass r
  /\ Body.radius r' = Body.radius r
  /\ Body.acc r' = Vector.mk 0 0
  /\ Body.age r'
     = (if BodyType.eqb (Body.type r) BodyType.rocket
        then S (Body.age r) else Body.age r)
  /\ ((List.length (Body.trail r) <= trailLimit (Body.type r))%nat ->
      (List.length (Body.trail r') <= trailLimit (Body.type r))%nat).
Proof.
  intros (a & f & fc & th & m & store & ->).
  destruct (update_fields fc th m store (Body.set_acc a (Body.set_fuel f r)))
    as (Ht & Hm & Hr & Ha & Hage & _ & Htr).
  cbv zeta in Htr.
  cbn [Body.type Body.mass Body.radius Body.age Body.trail Body.set_acc
       Body.set_fuel] in Ht, Hm, Hr, Hage, Htr.
  repeat (split; [assumption|]).
  intros Hlen. rewrite Htr.
  destruct (leavesTrail (Body.type r) && (fc mod 5 =? 0)%nat); [|exact Hlen].
  match goal with |- context [(?a <? ?n)%nat] =>
    destruct (Nat.ltb_spec a n) as [Hlt|Hge] end.
  - rewrite length_app in Hlt. cbn [List.length] in Hlt.
    destruct (Body.trail r); cbn [app tl List.length] in *;
      [lia|rewrite length_app; cbn [List.length]; lia].
  - exact Hge.
Qed.

(** The two input signals of a tick do not touch what the step reads of
    the flight. *)
Lemma tick_cases (rng : nat -> R) (i : Input) (w : World) :
  let w' := tick rng i w in
  gameData w' = gameData w
  /\ upgrades w' = upgrades w
  /\ level (gameState w') = level (gameState w)
  /\ extLe (closestDist (gameState w')) (closestDist (gameState w))
  /\ (extNonneg (closestDist (gameState w)) ->
      extNonneg (closestDist (gameState w')))
  /\ match rocket (physics w) with
     | None =>
         rocket (physics w') = None
         /\ mode (gameState w') = mode (gameState w)
         /\ coins (gameState w') = coins (gameState w)
         /\ closestDist (gameState w') = closestDist (gameState w)
         /\ shakeStrength (gameState w') = shakeStrength (gameState w)
         /\ isPaused (gameState w') = isPaused (gameState w)
         /\ ghostTrail (physics w') = ghostTrail (physics w)
         /\ ui w' = ui w
     | Some r =>
         (exists r',
            rocket (physics w') = Some r'
            /\ stepped r r'
            /\ mode (gameState w') = mode (gameState w)
            /\ coins (gameState w') = coins (gameState w)
            /\ isPaused (gameState w') = isPaused (gameState w)
            /\ shakeStrength (gameState w') = shakeStrength (gameState w)
            /\ ghostTrail (physics w') = ghostTrail (physics w)
            /\ ui w' = ui w)
         \/ (rocket (physics w') = None
             /\ mode (gameState w') = ENDED
             /\ (exists success reason,
                   coins (gameState w')
                   = (coins (gameState w)
                      + reward success reason (closestDist (gameState w')))%Z)
             /\ exists r1,
                  (Body.trail r1 = Body.trail r \/ stepped r r1)
                  /\ ghostTrail (physics w')
                     = if (0 <? List.length (Body.trail r1))%nat
                       then Body.trail r1 else ghostTrail (physics w))
     end.
Proof.
  intros w'. subst w'. unfold tick.
  set (w0 := set_mouse (in_aim i) (set_isThrusting (in_thrust i) w)).
  pose proof (physicsStep_cases rng w0) as H. unfold stepCases in H.
  assert (E1 : gameData w0 = gameData w) by reflexivity.
  assert (E2 : upgrades w0 = upgrades w) by reflexivity.
  assert (E3 : level (gameState w0) = level (gameState w)) by reflexivity.
  assert (E4 : closestDist (gameState w0) = closestDist (gameState w))
    by reflexivity.
  assert (E5 : rocket (physics w0) = rocket (physics w)) by reflexivity.
  assert (E6 : mode (gameState w0) = mode (gameState w)) by reflexivity.
  assert (E7 : coins (gameState w0) = coins (gameState w)) by reflexivity.
  assert (E8 : isPaused (gameState w0) = isPaused (gameState w))
    by reflexivity.
  assert (E9 : shakeStrength (gameState w0) = shakeStrength (gameState w))
    by reflexivity.
  assert (E10 : ghostTrail (physics w0) = ghostTrail (physics w))
    by reflexivity.
  assert (E11 : ui w0 = ui w) by reflexivity.
  unfold flightGoesOn, flightEnds in H.
  rewrite E1, E2, E3, E4, E5 in H.
  rewrite ?E6, ?E7, ?E8, ?E9, ?E10, ?E11 in H.
  clearbody w0.
  destruct H as (H1 & H2 & _ & H4 & H5 & H6 & H).
  repeat (split; [assumption|]).
  destruct (rocket (physics w)) as [r|].
  - destruct H as [(r' & Ha & Hb & Hc & Hd & He & _ & Hf & Hg & Hh)
                  |(Ha & Hb & _ & _ & _ & (s & rs & Hc & _) & _ & Hd)].
    + left. exists r'. repeat (split; [assumption|]). exact Hh.
    + right. split; [exact Ha|]. split; [exact Hb|].
      split; [exists s, rs; exact Hc|exact Hd].
  - destruct H as (Ha & Hb & Hc & Hd). rewrite Ha.
    rewrite ?E6, ?E7, ?E4, ?E9, ?E8.
    repeat (split; [first [assumption | reflexivity]|]). exact Hd.
Qed.

Lemma ticks_cons (rng : nat -> R) (i : Input) (l : list Input) (w : World) :
  ticks rng (i :: l) w = ticks rng l (tick rng i w).
Proof.
  lazy delta [ticks]. lazy fix. lazy beta iota. fold ticks. reflexivity.
Qed.

Lemma ticks_nil (rng : nat -> R) (w : World) : ticks rng [] w = w.
Proof. lazy delta [ticks]. lazy fix. lazy beta iota. reflexivity. Qed.

Lemma trailsShort_tick (rng : nat -> R) (i : Input) (w : World) :
  trailsShort w -> trailsShort (tick rng i w).
Proof.
  intros [Hg Hr].
  destruct (tick_cases rng i w) as (_ & _ & _ & _ & _ & H).
  destruct (rocket (physics w)) as [r|].
  - destruct (Hr r eq_refl) as [Ht Hl].
    assert (Hstep : forall r1, stepped r r1 ->
               Body.type r1 = BodyType.rocket
               /\ (List.length (Body.trail r1)
                   <= GameConfig.ROCKET_TRAIL_LIMIT)%nat).
    { intros r1 Hs.
      destruct (stepped_fields r r1 Hs) as (Ht1 & _ & _ & _ & _ & Hl1).
      rewrite Ht in Ht1, Hl1. split; [exact Ht1|]. apply Hl1, Hl. }
    destruct H as [(r' & Ha & Hs & _ & _ & _ & _ & Hgt & _)
                  |(Ha & _ & _ & r1 & Hr1 & Hgt)].
    + split; [now rewrite Hgt|].
      intros r0 E. rewrite Ha in E. injection E as <-. apply Hstep, Hs.
    + split; [|intros r0 E; rewrite Ha in E; discriminate].
      rewrite Hgt. destruct (0 <? _)%nat; [|exact Hg].
      destruct Hr1 as [E|Hs]; [now rewrite E|apply Hstep, Hs].
  - destruct H as (Ha & _ & _ & _ & _ & _ & Hgt & _).
    split; [now rewrite Hgt|]. intros r0 E. rewrite Ha in E. discriminate.
Qed.

(** X11.  The trail is bounded.  Over any sequence of ticks, under any
    input, the trail of the rocket never holds more than 600 points, and
    neither does the ghost trail that [endGame] keeps of it. *)
Theorem trail_bounded (rng : nat -> R) (l : list Input) (w : World) :
  trailsShort w -> trailsShort (ticks rng l w).
Proof.
  revert w. induction l as [|i l IH]; intros w H; [exact H|].
  rewrite ticks_cons. apply IH, trailsShort_tick, H.
Qed.

(** A fresh rocket in the sample world. *)
Lemma trail_bounded_witness :
  let w := Sample.flying (Sample.aRocket 700 400 100 0) in
  trailsShort w /\ forall rng l, trailsShort (ticks rng l w).
Proof.
  intros w.
  assert (H : trailsShort w).
  { split; [cbn; lia|]. intros r E. injection E as <-.
    split; [reflexivity|cbn; lia]. }
  split; [exact H|]. intros rng l. exact (trail_bounded rng l w H).
Defined.

(** X12.  The age of the rocket counts the steps of its flight.  A rocket
    that is still there after a sequence of ticks is as many steps older as
    there were ticks; it has kept its type, mass and radius; its
    acceleration is cleared (no force carries over into the next step);
    and, the flight not being over, mode, coins and ghost trail are as they
    were at the start. *)
Theorem rocket_age_counts_steps (rng : nat -> R) (l : list Input)
      (w : World) (r r' : Body.t) :
  rocket (physics w) = Some r ->
  Body.type r = BodyType.rocket ->
  rocket (physics (ticks rng l w)) = Some r' ->
  Body.age r' = (Body.age r + List.length l)%nat
  /\ Body.type r' = BodyType.rocket
  /\ Body.mass r' = Body.mass r
  /\ Body.radius r' = Body.radius r
  /\ (l <> [] -> Body.acc r' = Vector.mk 0 0)
  /\ mode (gameState (ticks rng l w)) = mode (gameState w)
  /\ coins (gameState (ticks rng l w)) = coins (gameState w)
  /\ ghostTrail (physics (ticks rng l w)) = ghostTrail (physics w).
Proof.
  revert w r. induction l as [|i l IH]; intros w r Hr Ht Hr'.
  - rewrite ticks_nil in Hr' |- *. rewrite Hr in Hr'. injection Hr' as <-.
    rewrite Nat.add_0_r. repeat split; try assumption. intros H. contradiction.
  - rewrite ticks_cons in Hr' |- *.
    destruct (tick_cases rng i w) as (_ & _ & _ & _ & _ & H).
    rewrite Hr in H.
    destruct H as [(r1 & Ha & Hs & Hm & Hc & _ & _ & Hgt & _)|(Ha & _)].
    2:{ rewrite (ticks_none rng l _ Ha) in Hr'. discriminate. }
    destruct (stepped_fields r r1 Hs) as (Ht1 & Hm1 & Hr1 & Ha1 & Hage1 & _).
    rewrite Ht in Ht1, Hage1. cbn [BodyType.eqb] in Hage1.
    destruct (IH _ r1 Ha Ht1 Hr') as (Hage & Hty & Hmass & Hrad & Hacc & Hmode
                                      & Hcoins & Hghost).
    split; [rewrite Hage, Hage1; cbn [List.length]; lia|].
    split; [exact Hty|]. split; [now rewrite Hmass|].
    split; [now rewrite Hrad|]. split.
    + intros _. destruct l as [|j l'].
      * rewrite ticks_nil in Hr'. rewrite Ha in Hr'. injection Hr' as <-.
        exact Ha1.
      * apply Hacc. discriminate.
    + split; [now rewrite Hmode|]. split; [now rewrite Hcoins|].
      now rewrite Hghost.
Qed.

(** A rocket at rest in the middle of an empty arena flies on. *)
Lemma rocket_flies_on (rng : nat -> R) (i : Input) :
  rocket (physics (ticks rng [i]
                     (set_bodies [] (Sample.flying
                                       (Sample.aRocket 400 400 100 7)))))
  <> None.
Proof.
  rewrite ticks_cons, ticks_nil.
  set (r := Sample.aRocket 400 400 100 7).
  set (w := set_bodies [] (Sample.flying r)).
  unfold tick.
  match goal with |- context [physicsStep rng ?x] => set (w1 := x) end.
  rewrite physicsStep_eq.
  assert (E1 : calculateGravity rng w1 = w1) by reflexivity.
  rewrite E1.
  pose proof (core_updateParticles (updateRocket (updateBodies w1))) as Hc.
  apply core_inv in Hc as (_ & _ & Hc & _). rewrite Hc.
  assert (Hr : rocket (physics (updateBodies w1)) = Some r) by reflexivity.
  unfold updateRocket. rewrite Hr. cbv zeta.
  match goal with |- context [Rlt_dec ?a ?b] => destruct (Rlt_dec a b) as [H|H] end;
    [|discriminate].
  exfalso. revert H.
  destruct (update_fields (frameCount (gameData (updateBodies w1)))
              (isThrusting (gameState (updateBodies w1)))
              (mouse (updateBodies w1)) (bodies (physics (updateBodies w1))) r)
    as (_ & _ & _ & _ & _ & Hp & _).
  cbn [physics rocket set_rocket set_physics gameData].
  rewrite Hp.
  assert (Hx : Body.pos (Body.move (frameCount (gameData (updateBodies w1)))
                 (bodies (physics (updateBodies w1))) r)
               = Vector.mk (400 + (0 + 0)) (400 + (0 + 0))) by reflexivity.
  rewrite Hx.
  assert (Ew : Rmax (width (gameData (updateBodies w1)))
                    (height (gameData (updateBodies w1))) = 800)
    by (apply Rmax_left; cbn; lra).
  rewrite Ew. unfold Vector.mag.
  assert (E0 : forall a b, a = 0 -> b = 0 -> sqrt (a * a + b * b) = 0).
  { intros a b -> ->. replace (0 * 0 + 0 * 0) with 0 by ring. apply sqrt_0. }
  rewrite E0 by (cbn; lra). lra.
Qed.

(** That rocket, seven ticks old, after one tick without thrust. *)
Lemma rocket_age_counts_steps_witness :
  let r := Sample.aRocket 400 400 100 7 in
  let w := set_bodies [] (Sample.flying r) in
  let l := [mkInput false (Vector.mk 400 400)] in
  rocket (physics w) = Some r
  /\ Body.type r = BodyType.rocket
  /\ forall rng,
       exists r',
         rocket (physics (ticks rng l w)) = Some r'
         /\ Body.age r' = 8%nat.
Proof.
  intros r w l. split; [reflexivity|]. split; [reflexivity|]. intros rng.
  destruct (rocket (physics (ticks rng l w))) as [r'|] eqn:E.
  - exists r'. split; [reflexivity|].
    destruct (rocket_age_counts_steps rng l w r r' eq_refl eq_refl E)
      as [Ha _].
    rewrite Ha. reflexivity.
  - exfalso. exact (rocket_flies_on rng _ E).
Defined.

(** X13.  The closest approach on record never grows.  Over any sequence of
    ticks the value of [closestDist] only comes down, and if it was a
    distance or [Infinity] at the start it is one at the end; the level,
    the globals of the canvas and the upgrades are not touched. *)
Theorem closest_approach_only_falls (rng : nat -> R) (l : list Input)
      (w : World) :
  let w' := ticks rng l w in
  extLe (closestDist (gameState w')) (closestDist (gameState w))
  /\ (extNonneg (closestDist (gameState w)) ->
      extNonneg (closestDist (gameState w')))
  /\ (rocket (physics w) = None ->
      closestDist (gameState w') = closestDist (gameState w))
  /\ level (gameState w') = level (gameState w)
  /\ gameData w' = gameData w
  /\ upgrades w' = upgrades w.
Proof.
  revert w. induction l as [|i l IH]; intros w w'; subst w'.
  - rewrite ticks_nil. split; [apply extLe_refl|]. repeat split; tauto.
  - rewrite ticks_cons.
    destruct (tick_cases rng i w) as (Hgd & Hup & Hlv & Hle & Hnn & H).
    destruct (IH (tick rng i w)) as (Hle' & Hnn' & Hnone' & Hlv' & Hgd' & Hup').
    split; [exact (extLe_trans _ _ _ Hle' Hle)|].
    split; [tauto|]. split.
    + intros Hr. rewrite Hr in H. destruct H as (Ha & _ & _ & Hc & _).
      rewrite (Hnone' Ha). exact Hc.
    + split; [now rewrite Hlv'|]. split; [now rewrite Hgd'|].
      now rewrite Hup'.
Qed.

Lemma reward_range (success : bool) (reason : Reason) (c : ExtR) :
  extNonneg c -> (0 <= reward success reason c <= 100)%Z.
Proof.
  intros Hc. unfold reward.
  destruct success; [unfold GameConfig.LANDING_REWARD; lia|].
  assert (H : (0 <= distanceScore c <= 100)%Z).
  { destruct c as [d|]; cbn [distanceScore]; [|lia]. cbn in Hc.
    assert (H0 : (0 <= Zfloor (d / 2))%Z) by (apply Zfloor_lub; lra).
    unfold GameConfig.MAX_DISTANCE_SCORE. lia. }
  destruct reason; [exact H|lia|exact H].
Qed.

(** X14.  A flight pays once.  Over any sequence of ticks, with a closest
    approach on record that is not negative, the coins never drop and grow
    by at most 100; without a rocket they do not change at all; and the
    mode at the end is the mode at the start or ['ENDED']. *)
Theorem flight_pays_once (rng : nat -> R) (l : list Input) (w : World) :
  extNonneg (closestDist (gameState w)) ->
  let w' := ticks rng l w in
  (coins (gameState w) <= coins (gameState w')
   <= coins (gameState w) + 100)%Z
  /\ (rocket (physics w) = None ->
      coins (gameState w') = coins (gameState w)
      /\ mode (gameState w') = mode (gameState w))
  /\ (mode (gameState w') = mode (gameState w)
      \/ mode (gameState w') = ENDED /\ rocket (physics w') = None).
Proof.
  revert w. induction l as [|i l IH]; intros w Hnn w'; subst w'.
  - rewrite ticks_nil. split; [lia|]. split; [tauto|now left].
  - rewrite ticks_cons.
    destruct (tick_cases rng i w) as (_ & _ & _ & _ & Hnn1 & H).
    specialize (Hnn1 Hnn).
    destruct (IH (tick rng i w) Hnn1) as (Hc & Hnone & Hmode).
    destruct (rocket (physics w)) as [r|].
    + destruct H as [(r1 & Ha & _ & Hm & Hco & _)
                    |(Ha & Hm & (s & rs & Hco) & _)].
      * rewrite <- Hco, <- Hm. split; [exact Hc|].
        split; [discriminate|exact Hmode].
      * destruct (Hnone Ha) as [Hc1 Hm1].
        pose proof (reward_range s rs _ Hnn1) as Hrw.
        split; [rewrite Hc1, Hco; lia|]. split; [discriminate|].
        right. split; [now rewrite Hm1|]. apply ticks_none, Ha.
    + destruct H as (Ha & Hm & Hco & _).
      destruct (Hnone Ha) as [Hc1 Hm1].
      split; [rewrite Hc1, Hco; lia|]. split.
      * intros _. split; [now rewrite Hc1|now rewrite Hm1, Hm].
      * left. now rewrite Hm1, Hm.
Qed.

(** A flight in the sample world, which has 100 coins. *)
Lemma flight_pays_once_witness :
  let w := Sample.flying (Sample.aRocket 700 400 100 0) in
  extNonneg (closestDist (gameState w))
  /\ forall rng l,
       (100 <= coins (gameState (ticks rng l w)) <= 200)%Z.
Proof.
  intros w.
  assert (H : extNonneg (closestDist (gameState w))) by exact I.
  split; [exact H|]. intros rng l.
  exact (proj1 (flight_pays_once rng l w H)).
Defined.

(* ================================================================== *)
(** * 26. Particles *)
(* ================================================================== *)

Lemma particleLoop_spec (rps : list Particle.t) :
  forall kept pool,
    particleLoop rps kept pool
    = (rev (filter alive (map Particle.update rps)) ++ kept,
       pool ++ filter (fun p => negb (alive p)) (map Particle.update rps)).
Proof.
  induction rps as [|p rps IH]; intros kept pool.
  - cbn. now rewrite app_nil_r.
  - cbn [particleLoop map filter].
    assert (E : alive (Particle.update p)
                = if Rle_dec (Particle.life (Particle.update p)) 0
                  then false else true) by reflexivity.
    destruct (Rle_dec (Particle.life (Particle.update p)) 0);
      rewrite E, IH; cbn [negb rev]; rewrite <- !app_assoc; reflexivity.
Qed.

(** X15.  The particle loop of a physics step.  Every particle is moved by
    its velocity and loses 0.03 of its life; those with no life left are
    taken out of [physics.particles] and appended to the pool, the last one
    of the list first; the others stay, in their order.  So no particle is
    lost, every particle in the list has life left, and nothing else in the
    world changes. *)
Theorem updateParticles_spec (w : World) :
  let ps := map Particle.update (particles (physics w)) in
  let w' := updateParticles w in
  particles (physics w') = filter alive ps
  /\ particlePool (physics w')
     = particlePool (physics w) ++ rev (filter (fun p => negb (alive p)) ps)
  /\ (List.length (particles (physics w'))
      + List.length (particlePool (physics w')))%nat
     = (List.length (particles (physics w))
        + List.length (particlePool (physics w)))%nat
  /\ Forall (fun p => 0 < Particle.life p) (particles (physics w'))
  /\ frameOf w' = frameOf w
  /\ rngPos w' = rngPos w.
Proof.
  intros ps w'. subst w'. unfold updateParticles.
  rewrite particleLoop_spec, app_nil_r, map_rev, !filter_rev, rev_involutive.
  fold ps.
  cbn [particles particlePool physics set_particles set_particlePool
       set_physics].
  split; [reflexivity|]. split; [reflexivity|]. split.
  - rewrite length_app, length_rev.
    assert (H : forall l : list Particle.t,
               (List.length (filter alive l)
                + List.length (filter (fun p => negb (alive p)) l))%nat
               = List.length l).
    { induction l as [|p l IH]; [reflexivity|].
      cbn [filter]. destruct (alive p); cbn [negb List.length]; lia. }
    specialize (H ps). unfold ps in H at 3. rewrite length_map in H. lia.
  - split; [|split; reflexivity].
    apply Forall_forall. intros p Hin. apply filter_In in Hin as [_ Ha].
    unfold alive in Ha. destruct (Rle_dec (Particle.life p) 0);
      [discriminate|lra].
Qed.

Lemma aged_S (n : nat) (p : Particle.t) :
  aged (S n) p = Particle.update (aged n p).
Proof. reflexivity. Qed.

Lemma aged_life (n : nat) (p : Particle.t) :
  Particle.life (aged n p) = Particle.life p - 3 / 100 * INR n.
Proof.
  induction n as [|n IH].
  - cbn. lra.
  - rewrite aged_S. unfold Particle.update. cbn [Particle.life].
    rewrite IH, S_INR. lra.
Qed.

Lemma physicsStep_particles_none (rng : nat -> R) (w : World) :
  rocket (physics w) = None ->
  particles (physics (physicsStep rng w))
  = filter alive (map Particle.update (particles (physics w)))
  /\ rocket (physics (physicsStep rng w)) = None.
Proof.
  intros Hr. split; [|apply physicsStep_none, Hr].
  rewrite physicsStep_eq.
  assert (E : calculateGravity rng w = w)
    by (unfold calculateGravity; rewrite Hr; reflexivity).
  rewrite E, updateRocket_none by exact Hr.
  unfold updateParticles.
  rewrite particleLoop_spec, app_nil_r, map_rev, !filter_rev, rev_involutive.
  reflexivity.
Qed.

(** X16.  The life of a particle.  A particle starts with the life 1 and
    loses 0.03 per step, so it is drawn for 33 steps and recycled in the
    34th: in a world without a rocket (which is where an explosion leaves
    it) a lone particle of life 1 is still there after [n] steps for [n] up
    to 33, moved [n] times by its velocity, and gone from then on. *)
Theorem particle_lives_33_steps (rng : nat -> R) (n : nat) (w : World)
      (p : Particle.t) :
  rocket (physics w) = None ->
  particles (physics w) = [p] ->
  Particle.life p = 1 ->
  particles (physics (Nat.iter n (physicsStep rng) w))
  = if (n <=? 33)%nat then [aged n p] else [].
Proof.
  intros Hr Hp Hl.
  assert (H : rocket (physics (Nat.iter n (physicsStep rng) w)) = None
              /\ particles (physics (Nat.iter n (physicsStep rng) w))
                 = if (n <=? 33)%nat then [aged n p] else []).
  { induction n as [|n [IHr IHp]].
    - split; [exact Hr|exact Hp].
    - rewrite Nat.iter_succ.
      destruct (physicsStep_particles_none rng _ IHr) as [E Hr'].
      split; [exact Hr'|]. rewrite E, IHp.
      destruct (Nat.leb_spec n 33) as [Hle|Hgt].
      + cbn [map filter]. rewrite <- aged_S. unfold alive.
        rewrite aged_life, Hl.
        destruct (Nat.leb_spec (S n) 33) as [Hle'|Hgt'].
        * apply le_INR in Hle'.
          assert (H33 : INR 33 = 33) by (simpl; lra).
          rewrite H33 in Hle'.
          destruct (Rle_dec _ _); [lra|reflexivity].
        * assert (Hn : n = 33%nat) by lia. subst n.
          assert (H34 : INR 34 = 34) by (simpl; lra).
          rewrite H34.
          destruct (Rle_dec _ _); [reflexivity|lra].
      + destruct (Nat.leb_spec (S n) 33); [lia|reflexivity]. }
  apply H.
Qed.

(** One particle in the sample world: still there after 33 steps, gone
    after 34. *)
Lemma particle_lives_33_steps_witness :
  let p := Particle.mk (Vector.mk 400 400) (Vector.mk 1 0) 1 "#fff" 2 in
  let w := set_particles [p] Sample.world in
  rocket (physics w) = None
  /\ particles (physics w) = [p]
  /\ Particle.life p = 1
  /\ forall rng,
       particles (physics (Nat.iter 33 (physicsStep rng) w)) = [aged 33 p]
       /\ particles (physics (Nat.iter 34 (physicsStep rng) w)) = [].
Proof.
  intros p w.
  split; [reflexivity|]. split; [reflexivity|]. split; [reflexivity|].
  intros rng. split.
  - exact (particle_lives_33_steps rng 33 w p eq_refl eq_refl eq_refl).
  - exact (particle_lives_33_steps rng 34 w p eq_refl eq_refl eq_refl).
Defined.

(* ================================================================== *)
(** * 27. The parts of a frame *)
(* ================================================================== *)

Lemma frameOf_stars (w w' : World) :
  frameOf w = frameOf w' -> stars (physics w) = stars (physics w').
Proof.
  unfold frameOf. intros H. injection H as _ _ _ _ _ Hs _ _ _. exact Hs.
Qed.

Lemma spawnExplosion_stars (rng : nat -> R) (x y : R) (color : string)
                           (w : World) :
  stars (physics (spawnExplosion rng x y color w)) = stars (physics w).
Proof.
  destruct (spawnExplosion_spec rng x y color w) as [Hf _].
  apply frameOf_stars in Hf. exact Hf.
Qed.

Lemma endGame_stars (success : bool) (reason : Reason) (w : World) :
  stars (physics (endGame success reason w)) = stars (physics w).
Proof. now rewrite endGame_eq. Qed.

Lemma gravityBody_stars (rng : nat -> R) (localG : R) (body : Body.t)
                        (w : World) :
  stars (physics (exitWorld (gravityBody rng localG body w)))
  = stars (physics w).
Proof.
  unfold gravityBody.
  destruct (BodyType.eqb (Body.type body) BodyType.rocket); [reflexivity|].
  destruct (rocket (physics w)) as [r|]; [|reflexivity]. cbv zeta.
  destruct (Rlt_dec _ _); [|reflexivity]. cbn [exitWorld].
  destruct (Body.type body);
    try (now rewrite spawnExplosion_stars, endGame_stars).
  - destruct (100 <? _)%nat; [|reflexivity].
    now rewrite spawnExplosion_stars, endGame_stars.
  - now rewrite endGame_stars.
Qed.

Lemma gravityLoop_stars (rng : nat -> R) (localG : R) :
  forall bs w,
    stars (physics (exitWorld (gravityLoop rng localG bs w)))
    = stars (physics w).
Proof.
  induction bs as [|b bs IH]; intros w; [reflexivity|].
  cbn [gravityLoop].
  pose proof (gravityBody_stars rng localG b w) as H.
  destruct (gravityBody rng localG b w) as [w1|w1]; cbn [exitWorld] in H.
  - exact H.
  - now rewrite IH.
Qed.

Lemma thrustBlock_stars (rng : nat -> R) (r : Body.t) (w : World) :
  stars (physics (thrustBlock rng r w)) = stars (physics w).
Proof.
  unfold thrustBlock. cbv zeta.
  destruct (isThrusting (gameState w) && _); [|reflexivity].
  match goal with
  | |- context [set_rocket (Some ?b) w] => set (r3 := b)
  end.
  destruct (frameCount (gameData (set_rocket (Some r3) w)) mod 3 =? 0)%nat;
    [|reflexivity].
  destruct (getPooledParticle_spec rng (Vector.x (Body.pos r3))
              (Vector.y (Body.pos r3)) "#ffaa00" (set_rocket (Some r3) w))
    as (_ & Hf & _).
  destruct (getPooledParticle rng _ _ _ _) as [p w1]. cbn [snd] in Hf.
  apply frameOf_stars in Hf. cbn. now rewrite Hf.
Qed.

Lemma closestBlock_stars (w : World) :
  stars (physics (closestBlock w)) = stars (physics w).
Proof.
  unfold closestBlock. destruct (find _ _); [|reflexivity].
  destruct (rocket (physics w)); [|reflexivity].
  destruct (ltClosest _ _); reflexivity.
Qed.

Lemma calculateGravity_stars (rng : nat -> R) (w : World) :
  stars (physics (calculateGravity rng w)) = stars (physics w).
Proof.
  unfold calculateGravity.
  destruct (rocket (physics w)) as [r|]; [|reflexivity].
  destruct (bodies (physics w)); [reflexivity|]. cbv zeta.
  pose proof (gravityLoop_stars rng
                (GameConfig.G_BASE * scaleFactor (gameData w))
                (bodies (physics (thrustBlock rng r w)))
                (thrustBlock rng r w)) as H.
  destruct (gravityLoop rng _ _ _) as [w1|w1]; cbn [exitWorld] in H.
  - now rewrite H, thrustBlock_stars.
  - now rewrite closestBlock_stars, H, thrustBlock_stars.
Qed.

Lemma updateRocket_stars (w : World) :
  stars (physics (updateRocket w)) = stars (physics w).
Proof.
  unfold updateRocket. destruct (rocket (physics w)); [|reflexivity].
  cbv zeta. destruct (Rlt_dec _ _); [|reflexivity].
  now rewrite endGame_stars.
Qed.

Lemma updateParticles_stars (w : World) :
  stars (physics (updateParticles w)) = stars (physics w).
Proof.
  unfold updateParticles. destruct (particleLoop _ _ _). reflexivity.
Qed.

(** A physics step leaves the stars alone. *)
Lemma physicsStep_stars (rng : nat -> R) (w : World) :
  stars (physics (physicsStep rng w)) = stars (physics w).
Proof.
  unfold physicsStep.
  rewrite updateParticles_stars, updateRocket_stars.
  unfold updateBodies. cbn [stars physics set_bodies set_physics].
  apply calculateGravity_stars.
Qed.

Lemma set_rngPos_same (w : World) : set_rngPos (rngPos w) w = w.
Proof. destruct w; reflexivity. Qed.

(** Drawing takes random numbers and changes nothing else. *)
Lemma drawBlock_world (rng : nat -> R) (w : World) :
  exists k, drawBlock rng w = set_rngPos k w.
Proof.
  assert (Hd : forall b w0, exists k, draw rng b w0 = set_rngPos k w0).
  { intros b w0. unfold draw.
    destruct (_ && _).
    - eexists. reflexivity.
    - exists (rngPos w0). symmetry. apply set_rngPos_same. }
  assert (Hf : forall bs w0,
             exists k, fold_left (fun w1 b => draw rng b w1) bs w0
                       = set_rngPos k w0).
  { induction bs as [|b bs IH]; intros w0.
    - exists (rngPos w0). symmetry. apply set_rngPos_same.
    - cbn [fold_left]. destruct (Hd b w0) as [k1 ->].
      destruct (IH (set_rngPos k1 w0)) as [k ->]. exists k. reflexivity. }
  unfold drawBlock. destruct (Hf (bodies (physics w)) w) as [k ->].
  cbn [rocket physics set_rngPos].
  destruct (rocket (physics w)) as [r|]; [|exists k; reflexivity].
  destruct (Hd r (set_rngPos k w)) as [k' ->]. exists k'. reflexivity.
Qed.

(** The shake block scales the shake strength down, to zero once it is
    below one half, and takes two random numbers when there is a shake. *)
Lemma shakeBlock_world (rng : nat -> R) (w : World) :
  exists k,
    shakeBlock rng w
    = set_rngPos k
        (set_shakeStrength (shakeAfter (shakeStrength (gameState w))) w).
Proof.
  unfold shakeBlock, shakeAfter.
  destruct (Rlt_dec 0 (shakeStrength (gameState w))).
  - cbn [random set_rngPos rngPos gameState set_shakeStrength set_gameState
         shakeStrength].
    destruct (Rlt_dec (shakeStrength (gameState w) * (9 / 10)) (1 / 2));
      eexists; reflexivity.
  - exists (rngPos w). destruct w as [? [] ? ? ? ? ?]. reflexivity.
Qed.

(** The physics steps of a frame when there is no rocket: the bodies and
    the particles move, the accumulator is used up, and the core is left
    alone. *)
Lemma stepsLoop_none (rng : nat -> R) (n : nat) :
  forall w,
    rocket (physics w) = None ->
    let w' := stepsLoop rng n w in
    rocket (physics w') = None
    /\ gameState w' = gameState w
    /\ ghostTrail (physics w') = ghostTrail (physics w)
    /\ stars (physics w') = stars (physics w)
    /\ upgrades w' = upgrades w /\ mouse w' = mouse w /\ ui w' = ui w
    /\ frameCount (gameData w') = frameCount (gameData w)
    /\ scaleFactor (gameData w') = scaleFactor (gameData w)
    /\ lastTimestamp (gameData w') = lastTimestamp (gameData w).
Proof.
  induction n as [|n IH]; intros w Hr; [repeat split; assumption|].
  cbn [stepsLoop].
  destruct (Rge_dec (accumulator (gameData w)) step);
    [|repeat split; assumption].
  pose proof (physicsStep_core_none rng w Hr) as Hc.
  apply core_inv in Hc as (H1 & H2 & H3 & H4 & H5 & H6 & H7).
  pose proof (physicsStep_stars rng w) as Hst.
  match goal with |- context [stepsLoop rng n ?x] => set (w1 := x) end.
  assert (Hr1 : rocket (physics w1) = None) by (unfold w1; cbn; now rewrite H3).
  destruct (IH w1 Hr1) as (I1 & I2 & I3 & I4 & I5 & I6 & I7 & I8 & I9 & I10).
  cbv zeta. split; [exact I1|].
  rewrite I2, I3, I4, I5, I6, I7, I8, I9, I10. unfold w1.
  cbn [gameState physics upgrades mouse ui gameData set_accumulator
       set_gameData ghostTrail stars frameCount scaleFactor lastTimestamp].
  rewrite H1, H2, H4, H5, H6, H7, Hst. repeat split.
Qed.

(** The physics steps of a frame leave the globals of the canvas alone,
    but for the accumulator. *)
Lemma stepsLoop_gameData (rng : nat -> R) (n : nat) :
  forall w,
    gameData (stepsLoop rng n w)
    = gameData (set_accumulator
                  (accumulator (gameData (stepsLoop rng n w))) w).
Proof.
  induction n as [|n IH]; intros w.
  - cbn [stepsLoop]. destruct w as [[] ? ? ? ? ? ?]. reflexivity.
  - cbn [stepsLoop].
    destruct (Rge_dec (accumulator (gameData w)) step).
    + rewrite IH at 1. cbn [gameData set_accumulator set_gameData].
      rewrite !physicsStep_gameData. reflexivity.
    + destruct w as [[] ? ? ? ? ? ?]. reflexivity.
Qed.

(** A frame of the running game, in one piece: the clock, the shake, the
    twinkle of the stars, the physics steps, the drawing, the frame
    count. *)
Lemma loop_running_eq (rng : nat -> R) (now : R) (w : World) :
  isPaused (gameState w) = false ->
  exists k1 l k2 k3,
    map starPlace l = map starPlace (stars (physics w))
    /\ (unitRange rng -> forall g, Forall (starIn g) (stars (physics w)) ->
                                   Forall (starIn g) l)
    /\ loop rng now w
       = set_frameCount (S (frameCount (gameData w)))
           (set_rngPos k3
              (stepsLoop rng 5
                 (set_rngPos k2
                    (set_stars l
                       (set_rngPos k1
                          (set_shakeStrength
                             (shakeAfter (shakeStrength (gameState w)))
                             (accumulate now w))))))).
Proof.
  intros Hp. rewrite (loop_running rng now w Hp). cbv zeta.
  destruct (shakeBlock_world rng (accumulate now w)) as [k1 E1].
  rewrite E1.
  assert (Es : shakeStrength (gameState (accumulate now w))
               = shakeStrength (gameState w)) by reflexivity.
  rewrite Es.
  match goal with |- context [twinkle rng ?x] =>
    destruct (twinkle_spec rng x) as (l & k2 & E2 & Hl & Hin); rewrite E2 end.
  match goal with |- context [drawBlock rng ?x] =>
    destruct (drawBlock_world rng x) as [k3 E3]; rewrite E3 end.
  exists k1, l, k2, k3. split; [exact Hl|]. split; [exact Hin|].
  f_equal. f_equal.
  cbn [gameData set_rngPos]. rewrite stepsLoop_gameData. reflexivity.
Qed.

Lemma pow_antitone (x : R) (n m : nat) :
  0 <= x <= 1 -> (n <= m)%nat -> x ^ m <= x ^ n.
Proof.
  intros Hx. induction 1 as [|m _ IH]; [lra|].
  cbn [pow]. assert (H0 : 0 <= x ^ m) by (apply pow_le; lra). nra.
Qed.

(** The shake of an explosion, frame after frame. *)
Lemma shakeAfter_iter (n : nat) :
  Nat.iter n shakeAfter 10
  = if (n <=? 28)%nat then 10 * (9 / 10) ^ n else 0.
Proof.
  assert (H28 : 1 / 20 <= (9 / 10) ^ 28) by (simpl pow; lra).
  assert (H29 : (9 / 10) ^ 29 < 1 / 20) by (simpl pow; lra).
  induction n as [|n IH]; [cbn; lra|].
  rewrite Nat.iter_succ, IH.
  destruct (Nat.leb_spec n 28) as [Hn|Hn].
  - assert (Hpos : 0 < (9 / 10) ^ n) by (apply pow_lt; lra).
    unfold shakeAfter.
    destruct (Rlt_dec 0 (10 * (9 / 10) ^ n)) as [_|H]; [|lra].
    destruct (Nat.leb_spec (S n) 28) as [Hs|Hs].
    + pose proof (pow_antitone (9 / 10) (S n) 28 ltac:(lra) Hs) as Hm.
      cbn [pow] in Hm |- *.
      destruct (Rlt_dec _ _); lra.
    + assert (E : n = 28%nat) by lia. subst n.
      cbn [pow] in H29.
      destruct (Rlt_dec _ _); lra.
  - destruct (Nat.leb_spec (S n) 28); [lia|].
    unfold shakeAfter. destruct (Rlt_dec 0 0); [lra|reflexivity].
Qed.

(** A frame of the running game without a rocket. *)
Lemma loop_none (rng : nat -> R) (now : R) (w : World) :
  rocket (physics w) = None ->
  isPaused (gameState w) = false ->
  let w' := loop rng now w in
  rocket (physics w') = None
  /\ isPaused (gameState w') = false
  /\ mode (gameState w') = mode (gameState w)
  /\ coins (gameState w') = coins (gameState w)
  /\ closestDist (gameState w') = closestDist (gameState w)
  /\ shakeStrength (gameState w')
     = shakeAfter (shakeStrength (gameState w))
  /\ ui w' = ui w.
Proof.
  intros Hr Hp.
  destruct (loop_running_eq rng now w Hp) as (k1 & l & k2 & k3 & _ & _ & E).
  cbv zeta. rewrite E.
  match goal with |- context [stepsLoop rng 5 ?x] => set (w0 := x) end.
  assert (Hr0 : rocket (physics w0) = None) by exact Hr.
  destruct (stepsLoop_none rng 5 w0 Hr0) as (I1 & I2 & _ & _ & _ & _ & I7 & _).
  cbn [rocket physics gameState ui set_frameCount set_gameData set_rngPos].
  rewrite I1, I2, I7. repeat split; assumption.
Qed.

(** X17.  The shake of an explosion dies out in 29 frames.  [endGame]
    leaves no rocket and no pause, the explosion a shake of 10.  From there
    the running game scales the shake by 0.9 per frame, whatever the times
    of the frames: after [n] frames it is [10 * 0.9 ^ n] for [n] up to 28
    and exactly 0 from the 29th frame on.  Mode and coins do not change
    meanwhile. *)
Theorem shake_dies_out (rng : nat -> R) (ts : list R) (w : World) :
  rocket (physics w) = None ->
  isPaused (gameState w) = false ->
  shakeStrength (gameState w) = 10 ->
  let w' := frames rng ts w in
  shakeStrength (gameState w')
  = (if (List.length ts <=? 28)%nat
     then 10 * (9 / 10) ^ List.length ts else 0)
  /\ mode (gameState w') = mode (gameState w)
  /\ coins (gameState w') = coins (gameState w)
  /\ rocket (physics w') = None.
Proof.
  intros Hr Hp Hs. cbv zeta. rewrite <- shakeAfter_iter, <- Hs. clear Hs.
  revert w Hr Hp. induction ts as [|now ts IH]; intros w Hr Hp.
  - cbn [frames List.length Nat.iter]. repeat split. exact Hr.
  - cbn [frames List.length].
    destruct (loop_none rng now w Hr Hp) as (H1 & H2 & H3 & H4 & _ & H6 & _).
    destruct (IH _ H1 H2) as (I1 & I2 & I3 & I4).
    rewrite I1, I2, I3, H3, H4, H6, Nat.iter_succ_r.
    repeat split. exact I4.
Qed.

(** Three frames after an explosion in the idle sample world. *)
Lemma shake_dies_out_witness :
  let w := set_shakeStrength 10 Sample.world in
  rocket (physics w) = None
  /\ isPaused (gameState w) = false
  /\ shakeStrength (gameState w) = 10
  /\ forall rng,
       shakeStrength (gameState (frames rng [2; 3; 4] w))
       = 10 * (9 / 10) ^ 3.
Proof.
  intros w.
  split; [reflexivity|]. split; [reflexivity|]. split; [reflexivity|].
  intros rng.
  exact (proj1 (shake_dies_out rng [2; 3; 4] w eq_refl eq_refl eq_refl)).
Defined.

(* ================================================================== *)
(** * 28. The clock of a frame *)
(* ================================================================== *)

Lemma stepsTaken_spec (n : nat) :
  forall a,
    let k := stepsTaken n a in
    (k <= n)%nat
    /\ (k = n \/ a - INR k * step < step)
    /\ (0 <= a -> 0 <= a - INR k * step)
    /\ (a < step -> k = 0%nat).
Proof.
  assert (Hstep : 0 < step) by (unfold step; lra).
  induction n as [|n IH]; intros a; cbn [stepsTaken].
  - cbv zeta. cbn [INR]. repeat split; try lia; try lra.
  - destruct (Rge_dec a step) as [Hge|Hlt].
    + destruct (IH (a - step)) as (H1 & H2 & H3 & H4). cbv zeta.
      rewrite S_INR. split; [lia|]. split; [|split].
      * destruct H2 as [H2|H2]; [left; lia|right; lra].
      * intros _. assert (H0 : 0 <= a - step) by lra.
        specialize (H3 H0). lra.
      * intros H. lra.
    + cbv zeta. cbn [INR]. split; [lia|]. split; [right; lra|].
      split; [intros; lra|reflexivity].
Qed.

Lemma iter_oneStep_accumulator (rng : nat -> R) (k : nat) (w : World) :
  accumulator (gameData (Nat.iter k (oneStep rng) w))
  = accumulator (gameData w) - INR k * step.
Proof.
  induction k as [|k IH].
  - unfold Nat.iter. cbn [nat_rect INR]. lra.
  - rewrite Nat.iter_succ, oneStep_accumulator, IH, S_INR. lra.
Qed.

Lemma clampDelta_le (last now : R) : clampDelta last now <= 1 / 4.
Proof.
  unfold clampDelta. cbv zeta. destruct (Rlt_dec _ _); lra.
Qed.

Lemma clampDelta_first (now : R) : clampDelta 0 now = 0.
Proof.
  unfold clampDelta. cbv zeta.
  destruct (Req_dec_T 0 0) as [_|H]; [|contradiction].
  destruct (Rlt_dec _ _); lra.
Qed.

(** X18.  The clock of a frame.  Every frame, paused or not, stamps the
    time of the call and adds the time since the last frame to the
    accumulator, but never more than a quarter of a second, and nothing on
    the first frame after the time stamp was zero.  A paused frame runs no
    step and does not count itself.  A running frame counts itself and
    takes a sixtieth of a second out of the accumulator for each physics
    step it runs, five at most; it leaves less than a sixtieth there unless
    it ran all five, and never makes the accumulator negative. *)
Theorem loop_timing (rng : nat -> R) (now : R) (w : World) :
  let w' := loop rng now w in
  let d := clampDelta (lastTimestamp (gameData w)) now in
  let a := accumulator (gameData w) + d in
  let k := if isPaused (gameState w) then 0%nat else stepsTaken 5 a in
  lastTimestamp (gameData w') = now
  /\ d <= 1 / 4
  /\ (lastTimestamp (gameData w) = 0 -> d = 0)
  /\ accumulator (gameData w') = a - INR k * step
  /\ (k <= 5)%nat
  /\ frameCount (gameData w')
     = (if isPaused (gameState w) then frameCount (gameData w)
        else S (frameCount (gameData w)))
  /\ (isPaused (gameState w) = false ->
      k = 5%nat \/ accumulator (gameData w') < step)
  /\ (0 <= a -> 0 <= accumulator (gameData w'))
  /\ scaleFactor (gameData w') = scaleFactor (gameData w)
  /\ width (gameData w') = width (gameData w)
  /\ height (gameData w') = height (gameData w).
Proof.
  intros w' d a k.
  destruct (accumulate_frozen now w) as (_ & _ & _ & Hlt & Hacc).
  fold d in Hacc. fold a in Hacc.
  split; [|split; [apply clampDelta_le|split]].
  2:{ intros H0. unfold d. rewrite H0. apply clampDelta_first. }
  all: subst w' k; destruct (isPaused (gameState w)) eqn:Hp.
  - rewrite (loop_paused rng now w Hp). exact Hlt.
  - destruct (loop_running_eq rng now w Hp) as (k1 & l & k2 & k3 & _ & _ & E).
    rewrite E. cbn [gameData set_frameCount set_gameData set_rngPos
                    lastTimestamp].
    rewrite stepsLoop_gameData. exact Hlt.
  - rewrite (loop_paused rng now w Hp). cbn [INR].
    split; [rewrite Hacc; lra|]. split; [lia|]. split; [reflexivity|].
    split; [discriminate|]. split; [rewrite Hacc; intros; lra|].
    repeat split.
  - destruct (loop_running_eq rng now w Hp) as (k1 & l & k2 & k3 & _ & _ & E).
    rewrite E.
    match goal with |- context [stepsLoop rng 5 ?x] => set (w0 := x) end.
    assert (Ha0 : accumulator (gameData w0) = a) by exact Hacc.
    assert (Ea : accumulator (gameData (stepsLoop rng 5 w0))
                 = a - INR (stepsTaken 5 a) * step).
    { rewrite stepsLoop_count, iter_oneStep_accumulator, Ha0. reflexivity. }
    destruct (stepsTaken_spec 5 a) as (H1 & H2 & H3 & _). cbv zeta in H1, H2, H3.
    cbn [gameData set_frameCount set_gameData set_rngPos accumulator
         frameCount scaleFactor width height].
    rewrite Ea.
    split; [reflexivity|]. split; [exact H1|]. split; [reflexivity|].
    split; [intros _; exact H2|]. split; [exact H3|].
    rewrite stepsLoop_gameData. repeat split.
Qed.

(* ================================================================== *)
(** * 29. The game over any run of events *)
(* ================================================================== *)

(** [sound] reads the mode, the closest approach, the pause, the coins, the
    rocket, the ghost trail, the scale factor and the number of stars, and
    nothing else. *)
Lemma coherent_same (w w' : World) :
  mode (gameState w') = mode (gameState w) ->
  closestDist (gameState w') = closestDist (gameState w) ->
  isPaused (gameState w') = isPaused (gameState w) ->
  coins (gameState w') = coins (gameState w) ->
  rocket (physics w') = rocket (physics w) ->
  ghostTrail (physics w') = ghostTrail (physics w) ->
  coherent w -> coherent w'.
Proof.
  unfold coherent, trailsShort. intros -> -> -> -> -> ->. exact (fun H => H).
Qed.

Lemma sound_same (w w' : World) :
  mode (gameState w') = mode (gameState w) ->
  closestDist (gameState w') = closestDist (gameState w) ->
  isPaused (gameState w') = isPaused (gameState w) ->
  coins (gameState w') = coins (gameState w) ->
  rocket (physics w') = rocket (physics w) ->
  ghostTrail (physics w') = ghostTrail (physics w) ->
  scaleFactor (gameData w') = scaleFactor (gameData w) ->
  List.length (stars (physics w')) = List.length (stars (physics w)) ->
  sound w -> sound w'.
Proof.
  intros H1 H2 H3 H4 H5 H6 H7 H8 (Hc & Hs & Hl).
  split; [exact (coherent_same w w' H1 H2 H3 H4 H5 H6 Hc)|].
  now rewrite H7, H8.
Qed.

(** A physics step keeps the state coherent. *)
Lemma coherent_physicsStep (rng : nat -> R) (w : World) :
  coherent w -> coherent (physicsStep rng w).
Proof.
  intros Hc. pose proof Hc as (I1 & I2 & I3 & I4 & I5 & Hg & Hr).
  destruct (physicsStep_cases rng w) as (_ & _ & _ & _ & _ & Hn & H).
  set (w' := physicsStep rng w) in *. clearbody w'.
  destruct (rocket (physics w)) as [r|] eqn:Er.
  - assert (Hm : mode (gameState w) = FLYING) by (apply I1; discriminate).
    destruct (Hr r eq_refl) as [Ht Hl].
    assert (Hstep : forall r1, stepped r r1 ->
               Body.type r1 = BodyType.rocket
               /\ (List.length (Body.trail r1)
                   <= GameConfig.ROCKET_TRAIL_LIMIT)%nat).
    { intros r1 Hs.
      destruct (stepped_fields r r1 Hs) as (Ht1 & _ & _ & _ & _ & Hl1).
      rewrite Ht in Ht1, Hl1. split; [exact Ht1|]. apply Hl1, Hl. }
    destruct H as [(r' & Ha & Hs & Em & Ec & Ep & _ & _ & Hgt & _)
                  |(Ha & Em & Ep & _ & _ & (su & re & Ec & _) & _
                    & r1 & Hr1 & Hgt)].
    + unfold coherent, trailsShort. rewrite Ha, Em, Ec, Ep, Hgt, Hm.
      split; [split; [discriminate|reflexivity]|].
      split; [discriminate|]. split; [apply Hn, I3|].
      split; [reflexivity|]. split; [exact I5|]. split; [exact Hg|].
      intros r0 E. injection E as <-. apply Hstep, Hs.
    + unfold coherent, trailsShort. rewrite Ha, Em, Ep, Ec, Hgt.
      split; [split; [discriminate|intros X; now elim X]|].
      split; [discriminate|]. split; [apply Hn, I3|].
      split; [discriminate|].
      split; [pose proof (reward_range su re _ (Hn I3)); lia|].
      split; [|discriminate].
      destruct (0 <? _)%nat; [|exact Hg].
      destruct Hr1 as [E|Hs']; [now rewrite E|apply Hstep, Hs'].
  - destruct H as (Eg & Ha & Hgt & _).
    apply (coherent_same w); try (now rewrite Eg); try assumption.
    now rewrite Ha, Er.
Qed.

Lemma sound_stepsLoop (rng : nat -> R) (n : nat) :
  forall w, sound w -> sound (stepsLoop rng n w).
Proof.
  induction n as [|n IH]; intros w Hs; [exact Hs|].
  cbn [stepsLoop]. destruct (Rge_dec _ _); [|exact Hs]. cbv zeta.
  apply IH. destruct Hs as (Hc & Hf & Hl).
  split; [|split].
  - apply (coherent_same (physicsStep rng w)); try reflexivity.
    apply coherent_physicsStep, Hc.
  - cbn [gameData set_accumulator set_gameData scaleFactor].
    now rewrite physicsStep_gameData.
  - cbn [physics set_accumulator set_gameData].
    now rewrite physicsStep_stars.
Qed.

(** A frame keeps the state sound. *)
Lemma sound_loop (rng : nat -> R) (now : R) (w : World) :
  sound w -> sound (loop rng now w).
Proof.
  intros Hs. destruct (isPaused (gameState w)) eqn:Hp.
  - rewrite (loop_paused rng now w Hp).
    apply (sound_same w); try reflexivity. exact Hs.
  - destruct (loop_running_eq rng now w Hp)
      as (k1 & l & k2 & k3 & Hl & _ & E).
    rewrite E. clear E.
    match goal with |- context [stepsLoop rng 5 ?x] => set (w1 := x) end.
    apply (sound_same (stepsLoop rng 5 w1)); try reflexivity.
    apply sound_stepsLoop. subst w1.
    apply (sound_same w); try reflexivity; [|exact Hs].
    cbn [physics stars set_rngPos set_stars set_physics].
    apply (f_equal (@List.length _)) in Hl.
    now rewrite !length_map in Hl.
Qed.

(** A launch keeps the state sound. *)
Lemma sound_launch (rng : nat -> R) (e : option Vector.t) (w : World) :
  sound w -> sound (launch rng e w).
Proof.
  intros Hs. destruct (launchBody w) as [earth|] eqn:He.
  - rewrite (launch_eq rng e w earth He).
    destruct Hs as ((I1 & I2 & I3 & I4 & I5 & Hg & Hr) & Hf & Hl).
    assert (Em : forall w0, gameState (updateMouse e w0) = gameState w0)
      by (intros w0; destruct e; reflexivity).
    assert (Ep : forall w0, physics (updateMouse e w0) = physics w0)
      by (intros w0; destruct e; reflexivity).
    assert (Ed : forall w0, gameData (updateMouse e w0) = gameData w0)
      by (intros w0; destruct e; reflexivity).
    unfold sound, coherent, trailsShort.
    cbn [gameState physics gameData set_mode set_gameState set_rocket
         set_physics set_rngPos mode closestDist isPaused coins rocket
         ghostTrail stars].
    rewrite Em, Ep, Ed.
    split; [|split; assumption].
    split; [split; [discriminate|reflexivity]|].
    split; [discriminate|]. split; [exact I3|].
    split; [reflexivity|]. split; [exact I5|]. split; [exact Hg|].
    intros r0 E. injection E as <-. split; [reflexivity|].
    unfold launchedRocket. cbn [Body.trail List.length]. lia.
  - rewrite (launch_no_body rng e w He). exact Hs.
Qed.

(** [createSolarSystem] changes the bodies and takes random numbers,
    whether it returns or throws. *)
Lemma createSolarSystem_rebuilt (rng : nat -> R) (w : World) :
  rebuilt w (worldOf (createSolarSystem rng w)).
Proof.
  destruct (createSolarSystem_parts rng w) as (rs & n & _ & _ & H).
  destruct (levelConfigOf (level (gameState w))).
  - destruct H as (bs & m & E & _). rewrite E. eexists _, _. reflexivity.
  - rewrite H. eexists _, _. reflexivity.
Qed.

(** [resetGame] makes any state coherent that has coins and a ghost trail
    within the limits, whether it returns or throws; the scale factor and
    the stars stay. *)
Lemma resetGame_frame (rng : nat -> R) (a : Action.t) (now : R) (w : World) :
  let w' := worldOf (resetGame rng a now w) in
  mode (gameState w') = IDLE
  /\ closestDist (gameState w') = Infinity
  /\ isPaused (gameState w') = false
  /\ coins (gameState w') = coins (gameState w)
  /\ rocket (physics w') = None
  /\ (ghostTrail (physics w') = ghostTrail (physics w)
      \/ ghostTrail (physics w') = [])
  /\ scaleFactor (gameData w') = scaleFactor (gameData w)
  /\ stars (physics w') = stars (physics w).
Proof.
  unfold resetGame.
  match goal with
  | |- context [match a with
                | Action.reset => ?x | Action.next => ?y | Action.stay => ?z
                end] =>
      set (w0 := match a with
                 | Action.reset => x | Action.next => y | Action.stay => z
                 end)
  end.
  assert (H0 : coins (gameState w0) = coins (gameState w)
               /\ (ghostTrail (physics w0) = ghostTrail (physics w)
                   \/ ghostTrail (physics w0) = [])
               /\ scaleFactor (gameData w0) = scaleFactor (gameData w)
               /\ stars (physics w0) = stars (physics w)).
  { subst w0. destruct a; cbv zeta.
    - repeat split. now right.
    - destruct (4 <? _)%Z; (repeat split; now right).
    - repeat split. now left. }
  clearbody w0. cbv zeta.
  match goal with
  | |- context [createSolarSystem rng ?x] => set (w1 := x)
  end.
  destruct (createSolarSystem_rebuilt rng w1) as (bs & n & E).
  destruct H0 as (C & G & F & S).
  destruct (createSolarSystem rng w1) as [w2|w2]; cbn [worldOf] in *;
    subst w2 w1;
    cbn [gameState physics gameData set_accumulator set_lastTimestamp
         set_gameData set_rngPos set_bodies set_physics set_closestDist
         set_rocket set_ui set_isPaused set_mode set_gameState mode
         closestDist isPaused coins rocket ghostTrail stars scaleFactor];
    repeat split; assumption.
Qed.

Lemma sound_resetGame (rng : nat -> R) (a : Action.t) (now : R) (w : World) :
  sound w -> sound (worldOf (resetGame rng a now w)).
Proof.
  intros ((I1 & I2 & I3 & I4 & I5 & Hg & Hr) & Hf & Hl).
  destruct (resetGame_frame rng a now w)
    as (E1 & E2 & E3 & E4 & E5 & E6 & E7 & E8).
  unfold sound, coherent, trailsShort.
  rewrite E1, E2, E3, E4, E5, E7, E8.
  split; [|split; assumption].
  split; [split; [discriminate|intros X; now elim X]|].
  split; [reflexivity|]. split; [exact I|]. split; [discriminate|].
  split; [exact I5|]. split; [|discriminate].
  destruct E6 as [-> | ->]; [exact Hg|cbn; lia].
Qed.

(** [resize] makes a coherent state sound. *)
Lemma sound_resize (rng : nat -> R) (iw ih now : R) (w : World) :
  coherent w -> sound (worldOf (resize rng iw ih now w)).
Proof.
  intros Hc.
  assert (Hs : sound (initStars rng (resized iw ih w))).
  { destruct (initStars_spec rng (resized iw ih w)) as (l & k & -> & Hl & _).
    split; [|split].
    - apply (coherent_same w); try reflexivity. exact Hc.
    - apply scaleFor_range.
    - exact Hl. }
  rewrite resize_eq.
  destruct (mode (gameState w)); [apply sound_resetGame| |]; exact Hs.
Qed.

(** A purchase keeps the state sound. *)
Lemma sound_buyUpgrade (k : UpgradeKey) (w : World) :
  sound w -> sound (buyUpgrade k w).
Proof.
  intros Hs. unfold buyUpgrade, UpgradeSystem.buy. cbv zeta.
  destruct (UpgradeSystem.canBuy k w) eqn:Hb; [|exact Hs].
  apply canBuy_affordable in Hb. destruct Hb as [_ Hb].
  destruct Hs as ((I1 & I2 & I3 & I4 & I5 & Ht) & Hf & Hl).
  split; [|split; assumption].
  split; [exact I1|]. split; [exact I2|]. split; [exact I3|].
  split; [exact I4|]. split; [|exact Ht].
  cbn [gameState set_upgrades set_coins set_gameState coins]. lia.
Qed.

(** Every handler keeps the state sound. *)
Lemma sound_handle (rng : nat -> R) (ev : Event) (w : World) :
  sound w -> sound (handle rng ev w).
Proof.
  intros Hs. destruct ev as [now|e|onUI e|onUI e| |now|now|now|v now|en k
                            |iw ih now]; cbn [handle].
  - apply sound_loop, Hs.
  - destruct e; [|exact Hs]. apply (sound_same w); try reflexivity. exact Hs.
  - destruct onUI; [exact Hs|]. unfold inputStart.
    destruct (mode (gameState w)); try exact Hs.
    destruct e; (apply (sound_same w); try reflexivity; exact Hs).
  - destruct onUI; [exact Hs|]. unfold inputEnd.
    destruct (mode (gameState w)); [apply sound_launch, Hs| |exact Hs].
    apply (sound_same w); try reflexivity. exact Hs.
  - unfold togglePause. destruct (mode (gameState w)) eqn:Em; try exact Hs.
    destruct Hs as ((I1 & I2 & I3 & I4 & I5 & Ht) & Hf & Hl).
    split; [|split; assumption].
    split; [exact I1|]. split; [exact I2|]. split; [exact I3|].
    split; [intros _; exact Em|]. split; [exact I5|exact Ht].
  - apply sound_resetGame. unfold togglePause.
    destruct (mode (gameState w)) eqn:Em; try exact Hs.
    destruct Hs as ((I1 & I2 & I3 & I4 & I5 & Ht) & Hf & Hl).
    split; [|split; assumption].
    split; [exact I1|]. split; [exact I2|]. split; [exact I3|].
    split; [intros _; exact Em|]. split; [exact I5|exact Ht].
  - apply sound_resetGame, Hs.
  - apply sound_resetGame, Hs.
  - unfold changeLevel. apply sound_resetGame.
    apply (sound_same w); try reflexivity. exact Hs.
  - destruct en; [apply sound_buyUpgrade, Hs|exact Hs].
  - apply sound_resize, Hs.
Qed.

(** The state is sound once [init] has run. *)
Lemma sound_init (rng : nat -> R) (iw ih t0 t1 : R) :
  sound (worldOf (init rng iw ih t0 t1 (initialWorld iw ih))).
Proof.
  unfold init. cbv zeta.
  assert (Hc : coherent (UpgradeSystem.init (initialWorld iw ih))).
  { unfold coherent, trailsShort. cbn.
    split; [split; [discriminate|intros X; now elim X]|].
    split; [reflexivity|]. split; [exact I|]. split; [discriminate|].
    split; [lia|]. split; [lia|discriminate]. }
  pose proof (sound_resize rng iw ih t0 _ Hc) as Hs.
  destruct (resize rng iw ih t0 _) as [w1|w1]; cbn [worldOf] in *;
    [|exact Hs].
  destruct (createSolarSystem_rebuilt rng w1) as (bs & n & E).
  destruct (createSolarSystem rng w1) as [w2|w2]; cbn [worldOf] in *;
    subst w2.
  - apply sound_loop. apply (sound_same w1); try reflexivity. exact Hs.
  - apply (sound_same w1); try reflexivity. exact Hs.
Qed.

(** X19.  The state of the game hangs together, whatever the player does.
    After [init] and any sequence of frames, pointer events, clicks on the
    buttons, level choices, purchases and resizes, at any times and with any
    random numbers, there is a rocket exactly while the mode is ['FLYING'],
    an idle game has no closest approach on record and a recorded one is not
    negative, the game is only paused in flight, the coins are not negative,
    the trail of the rocket and the ghost trail hold at most 600 points, the
    scale factor is between 0.6 and 1.2 and there are 150 stars. *)
Theorem game_stays_sound (rng : nat -> R) (iw ih t0 t1 : R)
                         (evs : list Event) :
  sound (run rng evs (worldOf (init rng iw ih t0 t1 (initialWorld iw ih)))).
Proof.
  generalize (sound_init rng iw ih t0 t1).
  generalize (worldOf (init rng iw ih t0 t1 (initialWorld iw ih))).
  induction evs as [|ev evs IH]; intros w Hs; [exact Hs|].
  cbn [run]. apply IH, sound_handle, Hs.
Qed.
